(** * Synchronised video playback: a shallow embedding of [src/src/video.js]

    The development follows the JavaScript source class by class:
    [Video2DView] (the adapter over the HTML video element),
    [SyncedVideoModel] (the replicated playback state), [TimeBarView] and
    [SyncedVideoView] (the synchroniser with its drift correction), with
    the [throttle] of the time bar; and, of [src/src/assetManager.js], the
    import checker, the choice of what to load and the waiting for the files
    of an asset, where the answers of the server are a parameter.

    Modelling conventions.
    - JavaScript numbers that hold times, offsets and rates are exact
      rationals ([Q]); comparisons of numbers ([===], [<], [>=]) are the
      decidable comparisons of [Q], so results are stated up to [==].
      NaN and the infinities are outside the model.
    - [undefined] and [null] are [None] of an [option].
    - [this.now()] is an argument of every handler that reads the clock.
    - A [while] loop runs on fuel; [None] means the fuel ran out.
    - Promise continuations are handlers of their own, run by a later event.
    - Besides the state it writes, a handler records what it asks of its
      collaborators (the adapter, the element, the icons, [publish],
      [future]) in a trace of effects kept with the view, oldest first. *)

From Stdlib Require Import QArith Qround Qabs Qminmax ZArith List Bool String Lia Lqa.
Import ListNotations.
Open Scope Q_scope.

(** ** JavaScript numbers *)

Module JS.

(** [a < b], [a > b], [a >= b], [a === b] on numbers. *)
Definition ltb (a b : Q) : bool := if Qlt_le_dec a b then true else false.
Definition gtb (a b : Q) : bool := ltb b a.
Definition geb (a b : Q) : bool := negb (ltb a b).
Definition eqb (a b : Q) : bool := Qeq_bool a b.

(** [Math.sign]: one of -1, 0, 1. *)
Definition sign (x : Q) : Z := Z.sgn (Qnum x).

(** [Math.abs], [Math.min], [Math.max]. *)
Definition abs (x : Q) : Q := Qabs x.
Definition min (a b : Q) : Q := Qmin a b.
Definition max (a b : Q) : Q := Qmax a b.

(** Truthiness of a number-valued property that may be unset:
    [undefined] and [0] are falsy. *)
Definition truthy (x : option Q) : bool :=
  match x with
  | Some q => negb (eqb q 0)
  | None => false
  end.

(** [x || 0] for a number-valued property that may be unset. *)
Definition or0 (x : option Q) : Q :=
  match x with
  | Some q => q
  | None => 0
  end.

(** [a === b] where either side may be [null]. *)
Definition eqb_opt (a b : option Q) : bool :=
  match a, b with
  | Some x, Some y => eqb x y
  | None, None => true
  | _, _ => false
  end.

End JS.

(** ** Video2DView.wrappedTime *)

(** [while (videoTime > this.duration) videoTime -= this.duration;]
    [fuel] bounds the number of executions of the loop body. *)
Fixpoint wrap_loop (fuel : nat) (duration videoTime : Q) : option Q :=
  if JS.gtb videoTime duration then
    match fuel with
    | O => None
    | S fuel' => wrap_loop fuel' duration (videoTime - duration)
    end
  else Some videoTime.

(** [wrappedTime(videoTime, guarded)], with [duration] the value of
    [this.duration]. *)
Definition wrappedTime (fuel : nat) (duration : option Q)
    (videoTime : Q) (guarded : bool) : option Q :=
  if JS.truthy duration then
    let d := JS.or0 duration in
    match wrap_loop fuel d videoTime with
    | Some t => Some (if guarded then JS.min (d - 0.1) t else t)
    | None => None
    end
  else Some videoTime.

(** Number of loop iterations that suffices for a positive duration. *)
Definition wrap_fuel (duration videoTime : Q) : nat :=
  Z.to_nat (Qceiling (videoTime / duration)).


(** ** The HTML video element and Video2DView *)

(** The properties of the [<video>] element that the code reads or writes. *)
Record VideoElement := mkVideoElement {
  currentTime : Q;
  paused : bool;
  playbackRate : Q;
  muted : bool
}.

(** [duration] is unset until [oncanplay] has fired. *)
Record Video2DView := mkVideo2DView {
  video : VideoElement;
  duration : option Q;
  isPlaying : bool;
  isBlocked : bool
}.

Definition set_currentTime (t : Q) (e : VideoElement) : VideoElement :=
  mkVideoElement t (paused e) (playbackRate e) (muted e).
Definition set_paused (b : bool) (e : VideoElement) : VideoElement :=
  mkVideoElement (currentTime e) b (playbackRate e) (muted e).
Definition set_playbackRate (r : Q) (e : VideoElement) : VideoElement :=
  mkVideoElement (currentTime e) (paused e) r (muted e).
Definition set_muted (b : bool) (e : VideoElement) : VideoElement :=
  mkVideoElement (currentTime e) (paused e) (playbackRate e) b.

Definition set_video (e : VideoElement) (v : Video2DView) : Video2DView :=
  mkVideo2DView e (duration v) (isPlaying v) (isBlocked v).
Definition set_isPlaying (b : bool) (v : Video2DView) : Video2DView :=
  mkVideo2DView (video v) (duration v) b (isBlocked v).
Definition set_isBlocked (b : bool) (v : Video2DView) : Video2DView :=
  mkVideo2DView (video v) (duration v) (isPlaying v) b.

(** [video.oncanplay]: [this.duration = this.video.duration]. *)
Definition oncanplay (elementDuration : Q) (v : Video2DView) : Video2DView :=
  mkVideo2DView (video v) (Some elementDuration) (isPlaying v) (isBlocked v).

(** [setStatic(videoTime)]; [videoTime] may be [undefined]. *)
Definition setStatic (fuel : nat) (v : Video2DView) (videoTime : option Q)
    : option Video2DView :=
  match videoTime with
  | Some t =>
      match wrappedTime fuel (duration v) t true with
      | Some t' =>
          Some (set_video (set_paused true (set_currentTime t' (video v))) v)
      | None => None
      end
  | None => Some (set_video (set_paused true (video v)) v)
  end.

(** [pause(videoTime)]. *)
Definition pause (fuel : nat) (v : Video2DView) (videoTime : option Q)
    : option Video2DView :=
  setStatic fuel (set_isBlocked false (set_isPlaying false v)) videoTime.

(** [play(videoTime)] up to its [await]: the seek and [isPlaying = true]. *)
Definition play_begin (fuel : nat) (v : Video2DView) (videoTime : Q)
    : option Video2DView :=
  match wrappedTime fuel (duration v) videoTime true with
  | Some t => Some (set_isPlaying true (set_video (set_currentTime t (video v)) v))
  | None => None
  end.

(** [play] after [this.video.play()] has settled; [resolved = false] is the
    [catch] branch.  The result is [!this.isBlocked].  An element whose
    [play()] resolved is no longer paused. *)
Definition play_settle (v : Video2DView) (resolved : bool) : Video2DView * bool :=
  let v' :=
    if resolved then set_isBlocked false (set_video (set_paused false (video v)) v)
    else set_isBlocked (isPlaying v) v in
  (v', negb (isBlocked v')).

(** ** Replicated playback state: SyncedVideoModel *)

Module PlayState.
(** [{ isPlaying, startOffset, pausedTime }]. *)
Record t := mk {
  isPlaying : bool;
  startOffset : option Q;
  pausedTime : Q
}.

(** [Object.keys(data).every(key => data[key] === latest[key])]. *)
Definition same (data latest : t) : bool :=
  Bool.eqb (isPlaying data) (isPlaying latest)
  && JS.eqb_opt (startOffset data) (startOffset latest)
  && JS.eqb (pausedTime data) (pausedTime latest).
End PlayState.

Module ActionSpec.
(** [{ viewId, type, x, y }]. *)
Record t := mk {
  viewId : string;
  type : string;
  x : Q;
  y : Q
}.
End ActionSpec.

(** The argument of ['setPlayState'] and ['playStateChanged']. *)
Record Payload := mkPayload {
  data : PlayState.t;
  actionSpec : option ActionSpec.t
}.

Definition AssetDescriptor := string.

Module Model.
Record t := mk {
  isPlaying : bool;
  startOffset : option Q;
  pausedTime : Q;
  assetDescriptor : AssetDescriptor
}.

Inductive Published :=
| loadVideo
| playStateChanged (p : Payload).


(** [setPlayState(data)]. *)
Definition setPlayState (m : t) (p : Payload) : t * list Published :=
  (mk (PlayState.isPlaying (data p)) (PlayState.startOffset (data p))
      (PlayState.pausedTime (data p)) (assetDescriptor m),
   [playStateChanged p]).

Definition playState (m : t) : PlayState.t :=
  PlayState.mk (isPlaying m) (startOffset m) (pausedTime m).
End Model.

(** ** The page around the view *)

Module Rect.
(** The part of [getBoundingClientRect()] that is read. *)
Record t := mk { left : Q; top : Q; width : Q; height : Q }.
End Rect.

(** Geometry of the elements the view looks at; [remoteHandIcon] is [None]
    when the page has no such element. *)
Record Dom := mkDom {
  videoRect : Rect.t;
  timebarRect : Rect.t;
  containerRect : Rect.t;
  remoteHandIcon : option Rect.t
}.

Record PointerEvent := mkPointerEvent { offsetX : Q; offsetY : Q }.

(** Messages sent to the view itself with [this.future(ms)]. *)
Inductive FutureMessage := triggerJumpCheckMsg | stepWhileBlockedMsg.

(** What a handler does to its collaborators, in program order. *)
Inductive Effect :=
| AdapterPlay (videoTime : Q)               (* videoView.play(t) *)
| AdapterPause (videoTime : option Q)       (* videoView.pause(t) *)
| AdapterSetStatic (videoTime : option Q)   (* videoView.setStatic(t) *)
| SetPlaybackRate (rate : Q)                (* video.playbackRate = rate *)
| SetMuted (b : bool)                       (* videoElem.muted = b *)
| SeekJump (videoTime : Q)                  (* video.currentTime = t, jump branch *)
| IconVisible (iconName : string) (b : bool)
| DrawPlaybar (portion : option Q)          (* timebarView.drawPlaybar(p) *)
| HandAt (left top : Q)                     (* hand.style.left / top *)
| HandTimeout (ms : Q)                      (* setTimeout(hide hand, ms) *)
| HandTimeoutCleared
| Future (ms : Q) (m : FutureMessage)
| Publish (p : Payload)                     (* publish(model.id, 'setPlayState', p) *)
| LoadStarted (loadId : nat) (a : AssetDescriptor)
| Disposed.                                 (* removeChild + videoView.dispose() *)

(** Commands that reach the video element or its adapter. *)
Definition isAdapterCommand (e : Effect) : bool :=
  match e with
  | AdapterPlay _ | AdapterPause _ | AdapterSetStatic _
  | SetPlaybackRate _ | SetMuted _ | SeekJump _ => true
  | _ => false
  end.

Definition adapterCommands (tr : list Effect) : list Effect :=
  filter isAdapterCommand tr.

Definition isSeekJump (e : Effect) : bool :=
  match e with
  | SeekJump _ => true
  | _ => false
  end.

(** Number of hard seeks of the jump branch in a trace. *)
Definition seekJumps (tr : list Effect) : nat :=
  List.length (filter isSeekJump tr).

(** ** SyncedVideoView: state *)

(** The fields of the view.  [abandonLoad] holds the identity of the load
    whose [okToGo] it would clear; [trace] lists the effects so far, oldest
    first. *)
Record SyncedVideoView := mkView {
  viewId : string;
  dom : Dom;
  videoView : option Video2DView;
  latestPlayState : option PlayState.t;
  latestActionSpec : option ActionSpec.t;
  waitingForSync : bool;
  isStepping : bool;
  playbackBoost : Z;
  lastStatusCheck : Q;
  lastTimingCheck : option Q;
  lastRateAdjust : option Q;
  jumpIfNeeded : bool;
  remoteHandTimeout : bool;
  abandonLoad : option nat;
  trace : list Effect
}.

Definition set_videoView (a : option Video2DView) (v : SyncedVideoView) :=
  mkView (viewId v) (dom v) a (latestPlayState v) (latestActionSpec v)
    (waitingForSync v) (isStepping v) (playbackBoost v) (lastStatusCheck v)
    (lastTimingCheck v) (lastRateAdjust v) (jumpIfNeeded v)
    (remoteHandTimeout v) (abandonLoad v) (trace v).
Definition set_latestPlayState (a : option PlayState.t) (v : SyncedVideoView) :=
  mkView (viewId v) (dom v) (videoView v) a (latestActionSpec v)
    (waitingForSync v) (isStepping v) (playbackBoost v) (lastStatusCheck v)
    (lastTimingCheck v) (lastRateAdjust v) (jumpIfNeeded v)
    (remoteHandTimeout v) (abandonLoad v) (trace v).
Definition set_latestActionSpec (a : option ActionSpec.t) (v : SyncedVideoView) :=
  mkView (viewId v) (dom v) (videoView v) (latestPlayState v) a
    (waitingForSync v) (isStepping v) (playbackBoost v) (lastStatusCheck v)
    (lastTimingCheck v) (lastRateAdjust v) (jumpIfNeeded v)
    (remoteHandTimeout v) (abandonLoad v) (trace v).
Definition set_waitingForSync (a : bool) (v : SyncedVideoView) :=
  mkView (viewId v) (dom v) (videoView v) (latestPlayState v) (latestActionSpec v)
    a (isStepping v) (playbackBoost v) (lastStatusCheck v)
    (lastTimingCheck v) (lastRateAdjust v) (jumpIfNeeded v)
    (remoteHandTimeout v) (abandonLoad v) (trace v).
Definition set_isStepping (a : bool) (v : SyncedVideoView) :=
  mkView (viewId v) (dom v) (videoView v) (latestPlayState v) (latestActionSpec v)
    (waitingForSync v) a (playbackBoost v) (lastStatusCheck v)
    (lastTimingCheck v) (lastRateAdjust v) (jumpIfNeeded v)
    (remoteHandTimeout v) (abandonLoad v) (trace v).
Definition set_playbackBoost (a : Z) (v : SyncedVideoView) :=
  mkView (viewId v) (dom v) (videoView v) (latestPlayState v) (latestActionSpec v)
    (waitingForSync v) (isStepping v) a (lastStatusCheck v)
    (lastTimingCheck v) (lastRateAdjust v) (jumpIfNeeded v)
    (remoteHandTimeout v) (abandonLoad v) (trace v).
Definition set_lastStatusCheck (a : Q) (v : SyncedVideoView) :=
  mkView (viewId v) (dom v) (videoView v) (latestPlayState v) (latestActionSpec v)
    (waitingForSync v) (isStepping v) (playbackBoost v) a
    (lastTimingCheck v) (lastRateAdjust v) (jumpIfNeeded v)
    (remoteHandTimeout v) (abandonLoad v) (trace v).
Definition set_lastTimingCheck (a : option Q) (v : SyncedVideoView) :=
  mkView (viewId v) (dom v) (videoView v) (latestPlayState v) (latestActionSpec v)
    (waitingForSync v) (isStepping v) (playbackBoost v) (lastStatusCheck v)
    a (lastRateAdjust v) (jumpIfNeeded v)
    (remoteHandTimeout v) (abandonLoad v) (trace v).
Definition set_lastRateAdjust (a : option Q) (v : SyncedVideoView) :=
  mkView (viewId v) (dom v) (videoView v) (latestPlayState v) (latestActionSpec v)
    (waitingForSync v) (isStepping v) (playbackBoost v) (lastStatusCheck v)
    (lastTimingCheck v) a (jumpIfNeeded v)
    (remoteHandTimeout v) (abandonLoad v) (trace v).
Definition set_jumpIfNeeded (a : bool) (v : SyncedVideoView) :=
  mkView (viewId v) (dom v) (videoView v) (latestPlayState v) (latestActionSpec v)
    (waitingForSync v) (isStepping v) (playbackBoost v) (lastStatusCheck v)
    (lastTimingCheck v) (lastRateAdjust v) a
    (remoteHandTimeout v) (abandonLoad v) (trace v).
Definition set_remoteHandTimeout (a : bool) (v : SyncedVideoView) :=
  mkView (viewId v) (dom v) (videoView v) (latestPlayState v) (latestActionSpec v)
    (waitingForSync v) (isStepping v) (playbackBoost v) (lastStatusCheck v)
    (lastTimingCheck v) (lastRateAdjust v) (jumpIfNeeded v)
    a (abandonLoad v) (trace v).
Definition set_abandonLoad (a : option nat) (v : SyncedVideoView) :=
  mkView (viewId v) (dom v) (videoView v) (latestPlayState v) (latestActionSpec v)
    (waitingForSync v) (isStepping v) (playbackBoost v) (lastStatusCheck v)
    (lastTimingCheck v) (lastRateAdjust v) (jumpIfNeeded v)
    (remoteHandTimeout v) a (trace v).
Definition set_trace (a : list Effect) (v : SyncedVideoView) :=
  mkView (viewId v) (dom v) (videoView v) (latestPlayState v) (latestActionSpec v)
    (waitingForSync v) (isStepping v) (playbackBoost v) (lastStatusCheck v)
    (lastTimingCheck v) (lastRateAdjust v) (jumpIfNeeded v)
    (remoteHandTimeout v) (abandonLoad v) a.

(** The view as its constructor leaves it; [now] is [this.now()]. *)
Definition newView (viewId0 : string) (dom0 : Dom) (now : Q) : SyncedVideoView :=
  mkView viewId0 dom0 None None None false false 0%Z (now + 500) None None
    false false None [].

(** ** Handlers: state, exceptions and fuel *)

(** How a handler ends: normally, or by a thrown exception.  The state a
    handler has written before it throws stays written. *)
Inductive completion (A : Type) : Type :=
| Normal (a : A)
| Throw (msg : string).
Arguments Normal {A} a.
Arguments Throw {A} msg.

(** [None]: the fuel of a loop ran out. *)
Definition Handler (A : Type) : Type :=
  SyncedVideoView -> option (completion A * SyncedVideoView).

Definition ret {A : Type} (a : A) : Handler A :=
  fun v => Some (Normal a, v).

Definition bind {A B : Type} (m : Handler A) (k : A -> Handler B) : Handler B :=
  fun v =>
    match m v with
    | Some (Normal a, v') => k a v'
    | Some (Throw msg, v') => Some (Throw msg, v')
    | None => None
    end.

Definition get : Handler SyncedVideoView := fun v => Some (Normal v, v).
Definition modify (f : SyncedVideoView -> SyncedVideoView) : Handler unit :=
  fun v => Some (Normal tt, f v).
Definition throw {A : Type} (msg : string) : Handler A :=
  fun v => Some (Throw msg, v).
Definition emit (e : Effect) : Handler unit :=
  modify (fun v => set_trace (trace v ++ [e]) v).

Declare Scope handler_scope.
Delimit Scope handler_scope with handler.
Notation "x <- m ;; k" := (bind m (fun x => k))
  (at level 61, m at next level, right associativity) : handler_scope.
Notation "m ;; k" := (bind m (fun _ => k))
  (at level 61, right associativity) : handler_scope.
Open Scope handler_scope.

(** Reading a property of [undefined] or [null]. *)
Definition typeError {A : Type} : Handler A := throw "TypeError".

(** A method call on [this.videoView]. *)
Definition onVideoView (f : Video2DView -> option Video2DView) : Handler unit :=
  fun v =>
    match videoView v with
    | Some vv =>
        match f vv with
        | Some vv' => Some (Normal tt, set_videoView (Some vv') v)
        | None => None
        end
    | None => Some (Throw "TypeError", v)
    end.

(** An assignment to a property of [this.videoElem]. *)
Definition onVideoElem (f : VideoElement -> VideoElement) : Handler unit :=
  onVideoView (fun vv => Some (set_video (f (video vv)) vv)).

(** [try { ... } catch (err) { console.error(err) }]. *)
Definition catchLog (m : Handler unit) : Handler unit :=
  fun v =>
    match m v with
    | Some (Throw _, v') => Some (Normal tt, v')
    | r => r
    end.

(** ** SyncedVideoView: methods *)

Section Methods.

(** Fuel for the loops of [wrappedTime], and the session time [this.now()]
    during the handler. *)
Variable fuel : nat.
Variable now : Q.

(** [iconVisible(iconName, bool)]. *)
Definition iconVisible (iconName : string) (b : bool) : Handler unit :=
  emit (IconVisible iconName b).

(** [useHandToPoint(targetX, targetY)]. *)
Definition useHandToPoint (targetX targetY : Q) : Handler unit :=
  v <- get ;;
  match remoteHandIcon (dom v) with
  | None => ret tt
  | Some handRect =>
      (if remoteHandTimeout v then emit HandTimeoutCleared else ret tt) ;;
      let contRect := containerRect (dom v) in
      emit (HandAt (targetX - Rect.width handRect * 0.25 - Rect.left contRect)
                   (targetY - Rect.height handRect * 0.15 - Rect.top contRect)) ;;
      iconVisible "remoteHand" true ;;
      emit (HandTimeout 1000) ;;
      modify (set_remoteHandTimeout true)
  end.

(** [revealAction(spec)]. *)
Definition revealAction (spec : ActionSpec.t) : Handler unit :=
  v <- get ;;
  if negb (String.eqb (ActionSpec.viewId spec) (viewId v)) then
    let type := ActionSpec.type spec in
    element <-
      (if String.eqb type "video" then ret (videoRect (dom v))
       else if String.eqb type "timebar" then ret (timebarRect (dom v))
       else throw "unknown action type") ;;
    let rect := element in
    useHandToPoint (ActionSpec.x spec * Rect.width rect + Rect.left rect)
                   (ActionSpec.y spec * Rect.height rect + Rect.top rect)
  else ret tt.

(** [calculateVideoTime()]; a [null] start offset counts as 0 in the
    subtraction. *)
Definition calculateVideoTime : Handler Q :=
  v <- get ;;
  match latestPlayState v with
  | None => typeError
  | Some st =>
      let sessionNow := now in
      ret ((sessionNow - JS.or0 (PlayState.startOffset st)) / 1000)
  end.

(** [applyPlayState()].  The continuation of [videoView.play(...)] is
    [playSettled] below. *)
Definition applyPlayState : Handler unit :=
  v <- get ;;
  match videoView v with
  | None => ret tt
  | Some _ =>
      if waitingForSync v then ret tt
      else
        match latestPlayState v with
        | None => typeError
        | Some st =>
            (if negb (PlayState.isPlaying st) then
               iconVisible "play" true ;;
               iconVisible "enableSound" false ;;
               emit (AdapterPause (Some (PlayState.pausedTime st))) ;;
               onVideoView (fun vv => pause fuel vv (Some (PlayState.pausedTime st)))
             else
               iconVisible "play" false ;;
               let rate := 1 + inject_Z (playbackBoost v) * 0.01 in
               emit (SetPlaybackRate rate) ;;
               onVideoElem (set_playbackRate rate) ;;
               modify (set_lastRateAdjust (Some now)) ;;
               modify (set_jumpIfNeeded false) ;;
               t <- calculateVideoTime ;;
               emit (AdapterPlay (t + 0.1)) ;;
               onVideoView (fun vv => play_begin fuel vv (t + 0.1))) ;;
            v' <- get ;;
            match latestActionSpec v' with
            | Some spec => revealAction spec
            | None => ret tt
            end
        end
  end.

(** [playStateChanged(rawData)]. *)
Definition playStateChanged (rawData : Payload) : Handler unit :=
  modify (set_latestActionSpec (actionSpec rawData)) ;;
  let data := data rawData in
  v <- get ;;
  let latest := latestPlayState v in
  match latest with
  | Some l =>
      if PlayState.same data l then ret tt
      else modify (set_latestPlayState (Some data)) ;; applyPlayState
  | None => modify (set_latestPlayState (Some data)) ;; applyPlayState
  end.

(** [stepWhileBlocked()]. *)
Definition stepWhileBlocked : Handler unit :=
  v <- get ;;
  if negb (isStepping v) then ret tt
  else
    match videoView v with
    | None => typeError
    | Some vv =>
        if negb (isBlocked vv) then modify (set_isStepping false)
        else
          t <- calculateVideoTime ;;
          emit (AdapterSetStatic (Some t)) ;;
          onVideoView (fun vv => setStatic fuel vv (Some t)) ;;
          emit (Future 250 stepWhileBlockedMsg)
    end.

(** The rest of [videoView.play(...)] and the [then] callback of
    [applyPlayState], run when the element's [play()] promise settles;
    [resolved = false] when the browser blocked the play.  The continuation
    runs against the adapter the view holds at that time; the continuation
    of a play whose adapter has since been replaced or disposed of is
    outside the model (here it leaves the view alone). *)
Definition playSettled (resolved : bool) : Handler unit :=
  v <- get ;;
  match videoView v with
  | None => ret tt
  | Some vv =>
      let (vv', playStarted) := play_settle vv resolved in
      modify (set_videoView (Some vv')) ;;
      iconVisible "enableSound" (negb playStarted || muted (video vv')) ;;
      if playStarted then emit (Future 250 triggerJumpCheckMsg)
      else if negb (muted (video vv')) then
        emit (SetMuted true) ;;
        onVideoElem (set_muted true) ;;
        applyPlayState
      else
        modify (set_isStepping true) ;;
        stepWhileBlocked
  end.

(** [handleSyncState(isSynced)]. *)
Definition handleSyncState (isSynced : bool) : Handler unit :=
  v <- get ;;
  let wasWaiting := waitingForSync v in
  modify (set_waitingForSync (negb isSynced)) ;;
  if wasWaiting && isSynced then applyPlayState else ret tt.

(** [handleUserClick(evt)]. *)
Definition handleUserClick (evt : PointerEvent) : Handler unit :=
  v <- get ;;
  match videoView v with
  | None => ret tt
  | Some vv =>
      if isStepping v then
        emit (SetMuted false) ;;
        onVideoElem (set_muted false) ;;
        modify (set_isStepping false) ;;
        applyPlayState
      else if muted (video vv) then
        emit (SetMuted false) ;;
        onVideoElem (set_muted false) ;;
        iconVisible "enableSound" false
      else
        match latestPlayState v with
        | None => typeError
        | Some latest =>
            let wantsToPlay := negb (PlayState.isPlaying latest) in
            (if negb wantsToPlay then
               emit (AdapterPause None) ;;
               onVideoView (fun vv => pause fuel vv None)
             else ret tt) ;;
            v1 <- get ;;
            match videoView v1 with
            | None => typeError
            | Some vv1 =>
                let videoTime := currentTime (video vv1) in
                let sessionTime := now in
                let startOffset :=
                  if wantsToPlay then Some (sessionTime - 1000 * videoTime)
                  else None in
                let pausedTime := if wantsToPlay then 0 else videoTime in
                let state := PlayState.mk wantsToPlay startOffset pausedTime in
                playStateChanged (mkPayload state None) ;;
                let contRect := containerRect (dom v) in
                let rect := videoRect (dom v) in
                let actionSpec :=
                  ActionSpec.mk (viewId v) "video"
                    ((offsetX evt + Rect.left contRect - Rect.left rect)
                       / Rect.width rect)
                    ((offsetY evt + Rect.top contRect - Rect.top rect)
                       / Rect.height rect) in
                emit (Publish (mkPayload state (Some actionSpec)))
            end
        end
  end.

(** [handleTimebar(proportion)]; the duration of a video that is not ready
    makes the product NaN, which is outside the model. *)
Definition handleTimebar (proportion : Q) : Handler unit :=
  v <- get ;;
  match videoView v with
  | None => ret tt
  | Some vv =>
      match duration vv with
      | None => typeError
      | Some d =>
          let wantsToPlay := false in
          let videoTime := d * proportion in
          let startOffset : option Q := None in
          let pausedTime := videoTime in
          let state := PlayState.mk wantsToPlay startOffset pausedTime in
          playStateChanged (mkPayload state None) ;;
          let actionSpec := ActionSpec.mk (viewId v) "timebar" proportion 0.5 in
          emit (Publish (mkPayload state (Some actionSpec)))
      end
  end.

(** [triggerJumpCheck()]. *)
Definition triggerJumpCheck : Handler unit :=
  modify (set_jumpIfNeeded true).

(** [adjustPlaybar()]; the proportion is NaN ([None]) while the duration
    is unset. *)
Definition adjustPlaybar : Handler unit :=
  v <- get ;;
  match videoView v with
  | None => typeError
  | Some vv =>
      time <-
        (if isPlaying vv then ret (currentTime (video vv))
         else
           match latestPlayState v with
           | None => typeError
           | Some st => ret (PlayState.pausedTime st)
           end) ;;
      emit (DrawPlaybar
              (match duration vv with
               | Some d => Some (time / d)
               | None => None
               end))
  end.

(** The boost wanted for a drift of [videoDiffMS] milliseconds. *)
Definition desiredBoost (videoDiffMS : Q) : Z :=
  let diffAbs := JS.abs videoDiffMS in
  let diffSign := JS.sign videoDiffMS in
  (- diffSign * (if JS.gtb diffAbs 150 then 3
                 else if JS.gtb diffAbs 50 then 1 else 0))%Z.

(** [hysteresisBlock] of [checkPlayStatus]. *)
Definition hysteresisBlock (oldBoostPercent : Z) (videoDiffMS : Q) : bool :=
  let diffAbs := JS.abs videoDiffMS in
  let diffSign := JS.sign videoDiffMS in
  (desiredBoost videoDiffMS =? 0)%Z
  && (Z.sgn oldBoostPercent =? - diffSign)%Z
  && JS.geb diffAbs 25.

(** The rate-adjustment block of [checkPlayStatus] (its [else] branch). *)
Definition adjustRate (videoDiffMS : Q) : Handler unit :=
  v <- get ;;
  let lastRateAdjust := JS.or0 (lastRateAdjust v) in
  if JS.geb (now - lastRateAdjust) 3000 then
    let oldBoostPercent := playbackBoost v in
    let desiredBoostPercent := desiredBoost videoDiffMS in
    (if negb (desiredBoostPercent =? oldBoostPercent)%Z then
       if negb (hysteresisBlock oldBoostPercent videoDiffMS) then
         modify (set_playbackBoost desiredBoostPercent) ;;
         let playbackRate := 1 + inject_Z desiredBoostPercent * 0.01 in
         emit (SetPlaybackRate playbackRate) ;;
         onVideoElem (set_playbackRate playbackRate)
       else ret tt
     else ret tt) ;;
    modify (set_lastRateAdjust (Some now))
  else ret tt.

(** The jump block of [checkPlayStatus]. *)
Definition jumpCheck (vv : Video2DView) (videoTime videoDiff : Q) : Handler unit :=
  let videoDiffMS := videoDiff * 1000 in
  modify (set_jumpIfNeeded false) ;;
  if JS.gtb (JS.abs videoDiffMS) 500 then
    match wrappedTime fuel (duration vv) (videoTime - videoDiff + 0.1) true with
    | Some t =>
        emit (SeekJump t) ;;
        onVideoElem (set_currentTime t)
    | None => fun _ => None
    end
  else ret tt.

(** [checkPlayStatus()]. *)
Definition checkPlayStatus : Handler unit :=
  v <- get ;;
  match videoView v with
  | None => ret tt
  | Some vv =>
      adjustPlaybar ;;
      let lastTimingCheck := JS.or0 (lastTimingCheck v) in
      if isPlaying vv && negb (isBlocked vv)
         && JS.geb (now - lastTimingCheck) 500
      then
        modify (set_lastTimingCheck (Some now)) ;;
        t <- calculateVideoTime ;;
        match wrappedTime fuel (duration vv) t false with
        | None => fun _ => None
        | Some expectedTime =>
            let videoTime := currentTime (video vv) in
            let videoDiff := videoTime - expectedTime in
            let videoDiffMS := videoDiff * 1000 in
            match duration vv with
            | None => ret tt
            | Some d =>
                if JS.ltb videoDiff (d / 2) then
                  if jumpIfNeeded v then jumpCheck vv videoTime videoDiff
                  else adjustRate videoDiffMS
                else ret tt
            end
        end
      else ret tt
  end.

(** [update()], run on every animation frame. *)
Definition update : Handler unit :=
  v <- get ;;
  if JS.gtb (now - lastStatusCheck v) 100 then
    modify (set_lastStatusCheck now) ;;
    checkPlayStatus
  else ret tt.

(** [disposeOfVideo()]. *)
Definition disposeOfVideo : Handler unit :=
  v <- get ;;
  (match abandonLoad v with
   | Some _ => modify (set_abandonLoad None)
   | None => ret tt
   end) ;;
  match videoView v with
  | Some _ =>
      emit (AdapterPause None) ;;
      onVideoView (fun vv => pause fuel vv None) ;;
      emit Disposed ;;
      modify (set_videoView None)
  | None => ret tt
  end.

(** [loadVideo()] up to the start of the asynchronous load; [isSynced] is
    [this.realm.isSynced], [loadId] names the load started. *)
Definition loadVideo (isSynced : bool) (model : Model.t) (loadId : nat)
    : Handler unit :=
  disposeOfVideo ;;
  modify (set_waitingForSync (negb isSynced)) ;;
  playStateChanged (mkPayload (Model.playState model) None) ;;
  modify (set_abandonLoad (Some loadId)) ;;
  emit (LoadStarted loadId (Model.assetDescriptor model)).

(** The callback of [loadVideo] that receives the ready [videoView]; a
    load that was abandoned ([okToGo] false) does nothing. *)
Definition videoLoaded (loadId : nat) (videoView0 : Video2DView) : Handler unit :=
  v <- get ;;
  match abandonLoad v with
  | Some id =>
      if Nat.eqb id loadId then
        catchLog
          (modify (set_abandonLoad None) ;;
           modify (set_videoView (Some videoView0)) ;;
           modify (set_playbackBoost 0%Z) ;;
           applyPlayState ;;
           modify (set_lastTimingCheck (Some (now + 500))))
      else ret tt
  | None => ret tt
  end.

(** [detach()]. *)
Definition detach : Handler unit := disposeOfVideo.

End Methods.

(** ** TimeBarView *)

Record TimeBarView := mkTimeBarView {
  barWidth : Q;                       (* element.width *)
  lastDragProportion : option Q
}.

(** [Math.max(0, Math.min(1, offsetX / barWidth))]. *)
Definition timeProportion (tb : TimeBarView) (offsetX : Q) : Q :=
  JS.max 0 (JS.min 1 (offsetX / barWidth tb)).

(** [dragAtOffset(offsetX)], with the view the bar is attached to. *)
Definition dragAtOffset (fuel : nat) (now : Q) (tb : TimeBarView) (offsetX : Q)
    (v : SyncedVideoView)
    : TimeBarView * option (completion unit * SyncedVideoView) :=
  let p := timeProportion tb offsetX in
  if JS.eqb_opt (lastDragProportion tb) (Some p) then (tb, Some (Normal tt, v))
  else (mkTimeBarView (barWidth tb) (Some p), handleTimebar fuel now p v).

(** ** Events of a session, as one view sees them *)

Inductive Event :=
| Frame (now : Q)                                     (* update() *)
| Tick (now : Q)                                      (* checkPlayStatus() *)
| VideoAdvanced (videoTime : Q)                       (* playback moved currentTime *)
| PlayStateChanged (now : Q) (p : Payload)            (* 'playStateChanged' *)
| Synced (now : Q) (isSynced : bool)                  (* 'synced' *)
| PlaySettled (now : Q) (resolved : bool)             (* video.play() settled *)
| Click (now : Q) (evt : PointerEvent)
| Timebar (now : Q) (proportion : Q)
| FutureDue (now : Q) (m : FutureMessage)
| LoadVideo (now : Q) (isSynced : bool) (model : Model.t) (loadId : nat)
| VideoLoaded (now : Q) (loadId : nat) (videoView0 : Video2DView)
| Detach (now : Q).

(** The handler an event runs. *)
Definition handlerOf (fuel : nat) (ev : Event) : Handler unit :=
  match ev with
  | Frame now => update fuel now
  | Tick now => checkPlayStatus fuel now
  | VideoAdvanced t =>
      fun v =>
        match videoView v with
        | Some _ => onVideoElem (set_currentTime t) v
        | None => Some (Normal tt, v)
        end
  | PlayStateChanged now p => playStateChanged fuel now p
  | Synced now b => handleSyncState fuel now b
  | PlaySettled now resolved => playSettled fuel now resolved
  | Click now evt => handleUserClick fuel now evt
  | Timebar now proportion => handleTimebar fuel now proportion
  | FutureDue now triggerJumpCheckMsg => triggerJumpCheck
  | FutureDue now stepWhileBlockedMsg => stepWhileBlocked fuel now
  | LoadVideo now isSynced model loadId => loadVideo fuel now isSynced model loadId
  | VideoLoaded now loadId vv => videoLoaded fuel now loadId vv
  | Detach now => detach fuel
  end.

(** An exception leaves the handler; the session goes on from the state
    the handler reached. *)
Definition step (fuel : nat) (ev : Event) (v : SyncedVideoView)
    : option SyncedVideoView :=
  match handlerOf fuel ev v with
  | Some (_, v') => Some v'
  | None => None
  end.

Fixpoint run (fuel : nat) (evs : list Event) (v : SyncedVideoView)
    : option SyncedVideoView :=
  match evs with
  | [] => Some v
  | ev :: evs' =>
      match step fuel ev v with
      | Some v' => run fuel evs' v'
      | None => None
      end
  end.

(** Does the event arm the jump check? *)
Definition armsJumpCheck (ev : Event) : bool :=
  match ev with
  | FutureDue _ triggerJumpCheckMsg => true
  | _ => false
  end.

(** The effects a handler added, given the view before and after it. *)
Definition newEffects (v v' : SyncedVideoView) : list Effect :=
  skipn (List.length (trace v)) (trace v').

(** ** Reachable replicated states *)



(** ** Sample states *)

Module Sample.
Definition rect : Rect.t := Rect.mk 0 0 640 360.
Definition page : Dom := mkDom rect (Rect.mk 0 0 640 20) rect (Some (Rect.mk 0 0 40 40)).

Definition element (t : Q) : VideoElement := mkVideoElement t true 1 false.

(** A ready adapter over a video of [d] seconds, paused at [t]. *)
Definition adapter (d t : Q) : Video2DView :=
  mkVideo2DView (element t) (Some d) false false.

(** An adapter that is playing at [t]. *)
Definition playingAdapter (d t : Q) : Video2DView :=
  mkVideo2DView (mkVideoElement t false 1 false) (Some d) true false.

Definition pausedAt (t : Q) : PlayState.t := PlayState.mk false None t.
Definition playingFrom (startOffset : Q) : PlayState.t :=
  PlayState.mk true (Some startOffset) 0.

(** A view with a loaded video of 60 s, paused at 0, not waiting. *)
Definition view : SyncedVideoView :=
  mkView "me" page (Some (adapter 60 0)) (Some (pausedAt 0)) None
    false false 0%Z 500 (Some 500) None false false None [].


(** The model after an asset was added. *)
Definition model : Model.t := Model.mk false None 0 "clip.mp4"%string.

(** The same view while it waits for the synced signal. *)
Definition waitingView : SyncedVideoView := set_waitingForSync true view.

(** A view whose video plays since session time 0, the element being at
    [t], with playback boost [boost] and the jump check armed or not. *)
Definition playingView (t : Q) (boost : Z) (armed : bool) : SyncedVideoView :=
  mkView "me" page (Some (playingAdapter 60 t)) (Some (playingFrom 0)) None
    false false boost 500 (Some 500) (Some 0) armed false None [].

Definition bar : TimeBarView := mkTimeBarView 640 None.


(** Ticks and playback progress after a play start has settled. *)
Definition ticks : list Event :=
  [Tick 10000; VideoAdvanced 13; Tick 10600; VideoAdvanced 14; Tick 11200].

End Sample.

(** ** Fuel that suffices *)

(** [fuel] runs the loop of [wrappedTime] on [videoTime] to its end: the
    duration, when known, is not negative (a negative one never leaves the
    loop) and [wrap_fuel] iterations are available. *)
Definition fuelFor (duration : option Q) (videoTime : Q) (fuel : nat) : Prop :=
  match duration with
  | Some d => 0 <= d /\ (wrap_fuel d videoTime <= fuel)%nat
  | None => True
  end.

(** ** Drift-measurement ticks *)

(** [checkPlayStatus] at session time [now] measures the drift [videoDiff]
    (seconds, positive when the element is ahead) and does not ignore it:
    a ready video is playing and not blocked, 500 ms have passed since the
    last timing check,
    and the difference is below half the duration. *)
Definition measuresDrift (fuel : nat) (now : Q) (v : SyncedVideoView)
    (videoDiff : Q) : Prop :=
  exists (vv : Video2DView) (st : PlayState.t) (d expectedTime : Q),
    videoView v = Some vv /\ latestPlayState v = Some st /\
    duration vv = Some d /\
    isPlaying vv = true /\ isBlocked vv = false /\
    JS.geb (now - JS.or0 (lastTimingCheck v)) 500 = true /\
    wrappedTime fuel (Some d)
      ((now - JS.or0 (PlayState.startOffset st)) / 1000) false
      = Some expectedTime /\
    videoDiff = currentTime (video vv) - expectedTime /\
    JS.ltb videoDiff (d / 2) = true.

(** A tick that adjusts the rate: the drift is measured, no jump check is
    armed and 3000 ms have passed since the last rate adjustment. *)
Definition rateAdjustmentTick (fuel : nat) (now : Q) (v : SyncedVideoView)
    (videoDiff : Q) : Prop :=
  measuresDrift fuel now v videoDiff /\
  jumpIfNeeded v = false /\
  JS.geb (now - JS.or0 (lastRateAdjust v)) 3000 = true.

(** What [adjustPlaybar] draws for a view with a ready adapter. *)
Definition playbarPortion (v : SyncedVideoView) : option Q :=
  match videoView v with
  | Some vv =>
      match duration vv with
      | Some d =>
          Some ((if isPlaying vv then currentTime (video vv)
                 else match latestPlayState v with
                      | Some st => PlayState.pausedTime st
                      | None => 0
                      end) / d)
      | None => None
      end
  | None => None
  end.

(** ** Applying a play state *)

(** The time [applyPlayState] asks the adapter to seek to. *)
Definition seekTarget (now : Q) (st : PlayState.t) : Q :=
  if PlayState.isPlaying st
  then (now - JS.or0 (PlayState.startOffset st)) / 1000 + 0.1
  else PlayState.pausedTime st.

(** The commands that apply the play state [st] at session time [now] with
    playback boost [boost]: a pause at the paused time, or the rate and a
    play at the calculated video time plus the 0.1 s lookahead. *)
Definition commandsFor (now : Q) (boost : Z) (st : PlayState.t) : list Effect :=
  if PlayState.isPlaying st
  then [SetPlaybackRate (1 + inject_Z boost * 0.01);
        AdapterPlay (seekTarget now st)]
  else [AdapterPause (Some (PlayState.pausedTime st))].

(** Effects that only touch icons and the pointing hand. *)
Definition isCosmetic (e : Effect) : bool :=
  match e with
  | IconVisible _ _ | HandAt _ _ | HandTimeout _ | HandTimeoutCleared => true
  | _ => false
  end.

(** The rest of [applyPlayState] after the adapter has its command. *)
Definition reveal (v : SyncedVideoView) : Handler unit :=
  match latestActionSpec v with
  | Some spec => revealAction spec
  | None => ret tt
  end.

(** [v'] differs from [v] by cosmetic effects only. *)
Definition onlyCosmetic (v v' : SyncedVideoView) : Prop :=
  exists (b : bool) (tr : list Effect),
    v' = set_remoteHandTimeout b (set_trace (trace v ++ tr) v) /\
    forallb isCosmetic tr = true.

(** ** Relations between the view before and after a handler *)

(** Every completed run of [m] relates the view before to the view after. *)
Definition preserves (R : SyncedVideoView -> SyncedVideoView -> Prop)
    {A : Type} (m : Handler A) : Prop :=
  forall v r v', m v = Some (r, v') -> R v v'.

Definition isPublish (e : Effect) : bool :=
  match e with
  | Publish _ => true
  | _ => false
  end.

(** The handler added effects that all pass [ok], and did not arm the jump
    check. *)
Definition framed (ok : Effect -> bool) (v v' : SyncedVideoView) : Prop :=
  exists tr : list Effect,
    trace v' = trace v ++ tr /\
    forallb ok tr = true /\
    (jumpIfNeeded v' = true -> jumpIfNeeded v = true).

(** The handler kept the stored play state. *)
Definition keepsLatest (v v' : SyncedVideoView) : Prop :=
  latestPlayState v' = latestPlayState v.

Definition notSeekJump (e : Effect) : bool := negb (isSeekJump e).
Definition noPublish (e : Effect) : bool := negb (isPublish e).

(** The hard seeks a handler added, plus the one an armed jump check still
    allows, do not exceed what the flag allowed before. *)
Definition budgeted (v v' : SyncedVideoView) : Prop :=
  exists tr : list Effect,
    trace v' = trace v ++ tr /\
    (seekJumps tr + Nat.b2n (jumpIfNeeded v') <= Nat.b2n (jumpIfNeeded v))%nat.

Module PlayStateEq.
(** Field-wise equality of two play states as [===] sees it. *)
Definition opt (a b : option Q) : Prop :=
  match a, b with
  | Some x, Some y => x == y
  | None, None => True
  | _, _ => False
  end.

Definition fields (a b : PlayState.t) : Prop :=
  PlayState.isPlaying a = PlayState.isPlaying b /\
  opt (PlayState.startOffset a) (PlayState.startOffset b) /\
  PlayState.pausedTime a == PlayState.pausedTime b.
End PlayStateEq.

(** ** The view after a play state has been applied *)

(** What [applyPlayState] emits for the stored state [st], before the
    reveal of the action. *)
Definition applyEffects (now : Q) (boost : Z) (st : PlayState.t) : list Effect :=
  if PlayState.isPlaying st
  then [IconVisible "play" false;
        SetPlaybackRate (1 + inject_Z boost * 0.01);
        AdapterPlay (seekTarget now st)]
  else [IconVisible "play" true;
        IconVisible "enableSound" false;
        AdapterPause (Some (PlayState.pausedTime st))].

(** What [applyPlayState] does to the adapter. *)
Definition adapterApply (fuel : nat) (now : Q) (boost : Z) (st : PlayState.t)
    (vv : Video2DView) : option Video2DView :=
  if PlayState.isPlaying st
  then play_begin fuel
         (set_video (set_playbackRate (1 + inject_Z boost * 0.01) (video vv)) vv)
         (seekTarget now st)
  else pause fuel vv (Some (PlayState.pausedTime st)).

(** The view once [applyPlayState] has given the adapter its command,
    [vv1] being the adapter after the command. *)
Definition applied (now : Q) (st : PlayState.t) (vv1 : Video2DView)
    (v : SyncedVideoView) : SyncedVideoView :=
  let v0 := set_trace (trace v ++ applyEffects now (playbackBoost v) st) v in
  set_videoView (Some vv1)
    (if PlayState.isPlaying st
     then set_jumpIfNeeded false (set_lastRateAdjust (Some now) v0)
     else v0).

(** The [Publish] effects of a trace. *)
Definition publishes (tr : list Effect) : list Effect := filter isPublish tr.

Module Sample2.
(** A view with a loaded video of 60 s, paused at [t]. *)
Definition pausedView (t : Q) : SyncedVideoView :=
  mkView "me" Sample.page (Some (Sample.adapter 60 t)) (Some (Sample.pausedAt t)) None
    false false 0%Z 500 (Some 500) None false false None [].

Definition click : PointerEvent := mkPointerEvent 320 180.
End Sample2.

(** The handler kept [lastStatusCheck]. *)
Definition keepsStatusCheck (v v' : SyncedVideoView) : Prop :=
  lastStatusCheck v' = lastStatusCheck v.

(** The playback boosts the drift correction uses, in percent. *)
Definition boostInRange (z : Z) : Prop :=
  z = (-3)%Z \/ z = (-1)%Z \/ z = 0%Z \/ z = 1%Z \/ z = 3%Z.

(** The handler kept the playback boost among those. *)
Definition keepsBoostRange (v v' : SyncedVideoView) : Prop :=
  boostInRange (playbackBoost v) -> boostInRange (playbackBoost v').



(** The delivery of a backlog of ['playStateChanged'] events, each with the
    session time of its delivery. *)
Definition backlog (ps : list (Q * Payload)) : list Event :=
  map (fun np => PlayStateChanged (fst np) (snd np)) ps.

(** ** [throttle(fn, delay)] *)

Module Throttle.
Section Throttle.

Variable A : Type.
Variable delay : Q.

(** The variables the returned closure keeps: [lastTime], and the pending
    [timeoutForFinal] with the time it is due and the argument it will
    deliver ([None] for [null]). *)
Record t := mk {
  lastTime : Q;
  timeoutForFinal : option (Q * A)
}.

Definition init : t := mk 0 None.

(** [clearFinal()]. *)
Definition clearFinal (s : t) : t := mk (lastTime s) None.

(** [runFn(arg)] at [Date.now() = now]; the list holds the calls of [fn],
    each with its time. *)
Definition runFn (now : Q) (arg : A) (s : t) : t * list (Q * A) :=
  let s1 := clearFinal s in
  (mk now (timeoutForFinal s1), [(now, arg)]).

(** The throttled function, called with [arg] at [Date.now() = now]. *)
Definition call (now : Q) (arg : A) (s : t) : t * list (Q * A) :=
  let s1 := clearFinal s in
  let toWait := delay - (now - lastTime s1) in
  if JS.ltb toWait 0 then runFn now arg s1
  else (mk (lastTime s1) (Some (now + toWait, arg)), []).

(** The pending timeout fires at [Date.now() = now]. *)
Definition fire (now : Q) (s : t) : t * list (Q * A) :=
  match timeoutForFinal s with
  | Some (_, arg) => runFn now arg s
  | None => (s, [])
  end.

Inductive Event :=
| Call (now : Q) (arg : A)
| Fire (now : Q).

Definition step (ev : Event) (s : t) : t * list (Q * A) :=
  match ev with
  | Call now arg => call now arg s
  | Fire now => fire now s
  end.

(** The state after a sequence of events and the calls of [fn] it made. *)
Fixpoint run (evs : list Event) (s : t) : t * list (Q * A) :=
  match evs with
  | [] => (s, [])
  | ev :: evs' =>
      let (s1, out1) := step ev s in
      let (s2, out2) := run evs' s1 in
      (s2, out1 ++ out2)
  end.

(** A timeout never fires before it is due. *)
Fixpoint timersOnTime (evs : list Event) (s : t) : Prop :=
  match evs with
  | [] => True
  | ev :: evs' =>
      match ev, timeoutForFinal s with
      | Fire now, Some (due, _) => due <= now
      | _, _ => True
      end /\ timersOnTime evs' (fst (step ev s))
  end.

(** The pending timeout is due [delay] after the last run. *)
Definition dueAfterDelay (s : t) : Prop :=
  match timeoutForFinal s with
  | Some (due, _) => due == lastTime s + delay
  | None => True
  end.

(** Successive calls of [fn] are at least [delay] apart, the first one at
    least [delay] after [t0]. *)
Fixpoint spacedFrom (t0 : Q) (calls : list (Q * A)) : Prop :=
  match calls with
  | [] => True
  | (t1, _) :: rest => t0 + delay <= t1 /\ spacedFrom t1 rest
  end.

Definition isFire (ev : Event) : bool :=
  match ev with
  | Fire _ => true
  | Call _ _ => false
  end.

End Throttle.
End Throttle.

(** ** The asset manager ([assetManager.js]) *)

Module AssetManager.

(** *** [makeImportChecker()] *)

Definition MAX_IMPORT_FILES : N := 10.
Definition MAX_IMPORT_MB : N := 100.

Module ImportChecker.
(** The two counters the checker closes over; [byteLength] values are
    natural numbers. *)
Record t := mk { totalFiles : N; totalSize : N }.

Definition init : t := mk 0 0.

Definition withinLimits (c : t) : bool :=
  (totalFiles c <=? MAX_IMPORT_FILES)%N && (totalSize c <=? 1048576 * MAX_IMPORT_MB)%N.

Definition limitReason (c : t) : string :=
  if (MAX_IMPORT_FILES <? totalFiles c)%N then "exceeded limit of 10 files"%string
  else if (1048576 * MAX_IMPORT_MB <? totalSize c)%N then "exceeded limit of 100MB"%string
  else ""%string.

Definition totalBytes (c : t) : N := totalSize c.

(** [addItem(spec)], with [byteLength = spec.buffer.byteLength]. *)
Definition addItem (byteLength : N) (c : t) : bool * t :=
  if negb (withinLimits c) then (false, c)
  else
    let c' := mk (totalFiles c + 1) (totalSize c + byteLength) in
    (withinLimits c', c').

(** Items offered one after the other; every size comes back with the
    answer of [addItem]. *)
Fixpoint addItems (sizes : list N) (c : t) : list (N * bool) * t :=
  match sizes with
  | [] => ([], c)
  | size :: rest =>
      let (answer, c1) := addItem size c in
      let (answers, c2) := addItems rest c1 in
      ((size, answer) :: answers, c2)
  end.

(** The sizes of the items [addItem] accepted. *)
Definition accepted (answers : list (N * bool)) : list N :=
  map fst (filter snd answers).

Definition sumSizes (sizes : list N) : N := fold_right N.add 0%N sizes.
End ImportChecker.

(** *** File specs and [deriveAssetDescriptor] *)

(** The fields of a file spec that are read here. *)
Record FileSpec := mkFileSpec {
  path : string;
  name : string;
  type : string;
  depth : nat;
  blobURL : string
}.

(** [loadPaths]: its three possible keys. *)
Record LoadPaths := mkLoadPaths {
  mtlSource : option string;
  objSource : option string;
  source : option string
}.

Definition noPaths : LoadPaths := mkLoadPaths None None None.

(** [{ displayName, fileDict, loadType, loadPaths }]; [fileDict] as the
    list of its entries in insertion order. *)
Record Descriptor := mkDescriptor {
  displayName : string;
  fileDict : list (string * FileSpec);
  loadType : string;
  loadPaths : LoadPaths
}.

(** [byType[type]] for the dictionary built from [topSpecs]: the specs of
    that type in order, [None] when there is none. *)
Definition byType (topSpecs : list FileSpec) (ty : string) : option (list FileSpec) :=
  match filter (fun spec => String.eqb (type spec) ty) topSpecs with
  | [] => None
  | typeFiles => Some typeFiles
  end.

Definition priorityTypes : list string := [".obj"; ".gltf"; ".glb"]%string.
Definition handledTypes : list string := [".mp4"]%string.

(** What the choice of the load type ends in: [return null], or the loop
    and the block after it fall through with [loadType], [displayName] and
    [loadPaths] as given ([None] for a [loadType] still [null]). *)
Inductive Choice :=
| ReturnNull
| Chosen (loadType0 : option string) (displayName0 : option string)
         (loadPaths0 : LoadPaths).

(** The [while] loop over [priorityTypes], from index [ti] on, entered with
    [loadType] still [null]. *)
Fixpoint priorityLoop (types : list string) (topSpecs : list FileSpec) : Choice :=
  match types with
  | [] => Chosen None None noPaths
  | ty :: rest =>
      match byType topSpecs ty with
      | None => priorityLoop rest topSpecs
      | Some typeFiles =>
          match typeFiles with
          | [main] =>
              if String.eqb ty ".obj" then
                match byType topSpecs ".mtl" with
                | None =>
                    Chosen (Some ty) (Some (name main))
                      (mkLoadPaths None (Some (path main)) None)
                | Some [mtl] =>
                    Chosen (Some ty) (Some (name main))
                      (mkLoadPaths (Some (path mtl)) (Some (path main)) None)
                | Some _ => ReturnNull
                end
              else
                Chosen (Some ty) (Some (name main))
                  (mkLoadPaths None None (Some (path main)))
          | _ => ReturnNull
          end
      end
  end.

(** [fileDict[key] = spec]: a key already present keeps its place. *)
Fixpoint setEntry (key : string) (spec : FileSpec) (dict : list (string * FileSpec))
    : list (string * FileSpec) :=
  match dict with
  | [] => [(key, spec)]
  | (k, s) :: rest =>
      if String.eqb k key then (k, spec) :: rest
      else (k, s) :: setEntry key spec rest
  end.

(** [deriveAssetDescriptor(fileSpecs, totalBytes)] with the upload of the
    files left out: the descriptor it resolves to ([None] for [null]) and
    the messages given to [displayError]. *)
Definition deriveAssetDescriptor (fileSpecs : list FileSpec)
    : option Descriptor * list string :=
  let topSpecs := filter (fun spec => Nat.eqb (depth spec) 1) fileSpecs in
  match topSpecs with
  | [] => (None, [])
  | _ =>
      match priorityLoop priorityTypes topSpecs with
      | ReturnNull => (None, [])
      | Chosen loadType1 displayName1 loadPaths1 =>
          let '(loadType2, displayName2, loadPaths2, errors) :=
            match loadType1 with
            | Some _ => (loadType1, displayName1, loadPaths1, [])
            | None =>
                let handlableSpecs :=
                  filter (fun spec => existsb (String.eqb (type spec)) handledTypes)
                         topSpecs in
                match handlableSpecs with
                | [] => (loadType1, displayName1, loadPaths1, [])
                | [spec] =>
                    (if String.eqb (type spec) ".mp4" then Some (type spec) else None,
                     Some (name spec),
                     mkLoadPaths (mtlSource loadPaths1) (objSource loadPaths1)
                                 (Some (path spec)),
                     [])
                | _ =>
                    (loadType1, displayName1, loadPaths1,
                     [("Ambiguous drop (" ++
                       String.concat ", " (map type handlableSpecs) ++ ")")%string])
                end
            end in
          match loadType2, displayName2 with
          | Some lt, Some dn =>
              (Some (mkDescriptor dn
                       (fold_left (fun dict spec => setEntry (path spec) spec dict)
                                  fileSpecs [])
                       lt loadPaths2),
               errors)
          | _, _ => (None, errors ++ ["No loadable file found"%string])
          end
      end
  end.

(** *** Waiting for the files to be on the server *)

Section Fetching.

(** [headOk round url]: the [HEAD] request for [url] made by check number
    [round] is answered with [response.ok]; a rejected request counts as
    not answered. *)
Variable headOk : nat -> string -> bool.

(** [dict[key] = true] on the list of keys of [dict]. *)
Definition addKey (key : string) (keys : list string) : list string :=
  if existsb (String.eqb key) keys then keys else keys ++ [key].

Definition keysOf (urls : list string) : list string :=
  fold_left (fun keys url => addKey url keys) urls [].

(** [runAssetCheck(whenReady)]: check number [round] with [retries] left;
    the result is what [whenReady] is called with, [true] for ["ok"] and
    [false] for [null]. *)
Fixpoint runAssetCheck (round retries : nat) (waitingFor : list string) : bool :=
  let waitingFor' := filter (fun url => negb (headOk round url)) waitingFor in
  match waitingFor' with
  | [] => true
  | _ =>
      match retries with
      | O => false
      | S retries' => runAssetCheck (S round) retries' waitingFor'
      end
  end.

(** [ensureBlobsAvailable(blobURLs, retryMessage, retryDelay, maxRetries)]. *)
Definition ensureBlobsAvailable (blobURLs : list string) (maxRetries : nat) : bool :=
  runAssetCheck 0 maxRetries (keysOf blobURLs).

(** An entry of [knownAssetURLs]: [true], or the promise of an upload. *)
Inductive Known := IsKnown | Uploading (upload : nat).

(** [ensureAssetsAvailable(assetDescriptor)] on [knownAssetURLs]. *)
Definition ensureAssetsAvailable (assetDescriptor : Descriptor)
    (knownAssetURLs : string -> option Known)
    : completion string * (string -> option Known) :=
  let blobURLDict := keysOf (map (fun entry => blobURL (snd entry))
                                 (fileDict assetDescriptor)) in
  if ensureBlobsAvailable blobURLDict 60 then
    (Normal "ok"%string,
     fold_left (fun known url => fun key =>
                  if String.eqb key url then Some IsKnown else known key)
               blobURLDict knownAssetURLs)
  else (Throw "failed to find assets"%string, knownAssetURLs).

End Fetching.

(** *** [fetchSharedBlob(blobURL, optionalType)] *)

Record Blob := mkBlob { bytes : list Z; blobType : string }.

(** What became of the promise [fetchSharedBlob] returns. *)
Inductive Fetched := Resolved (blob : Blob) | NeverResolved.

Section FetchSharedBlob.

(** [fetched attempt]: the array buffer request number [attempt] ends in,
    [None] when the request fails or its response is not [ok]. *)
Variable fetched : nat -> option (list Z).

(** [getBlob()]: request number [attempt] with [retries] left; with the
    outcome comes the number of requests made. *)
Fixpoint getBlob (optionalType : option string) (attempt retries : nat)
    : Fetched * nat :=
  match fetched attempt with
  | Some arrayBuffer =>
      (Resolved (mkBlob arrayBuffer
                   match optionalType with
                   | Some ty => ty
                   | None => ""%string
                   end),
       S attempt)
  | None =>
      match retries with
      | O => (NeverResolved, S attempt)
      | S retries' => getBlob optionalType (S attempt) retries'
      end
  end.

Definition fetchSharedBlob (optionalType : option string) : Fetched * nat :=
  getBlob optionalType 0 60.

End FetchSharedBlob.

End AssetManager.

(** The main file the descriptor names: the only top-level file of the
    load type. *)
Definition mainFileOf (fileSpecs : list AssetManager.FileSpec)
    (d : AssetManager.Descriptor) (main : AssetManager.FileSpec) : Prop :=
  filter (fun spec => String.eqb (AssetManager.type spec) (AssetManager.loadType d))
         (filter (fun spec => Nat.eqb (AssetManager.depth spec) 1) fileSpecs) = [main] /\
  AssetManager.displayName d = AssetManager.name main /\
  In (AssetManager.path main) (map fst (AssetManager.fileDict d)).

(** Sample data of the asset manager. *)
Module SampleAssets.
Definition clip : AssetManager.FileSpec :=
  AssetManager.mkFileSpec "clip.mp4" "clip.mp4" ".mp4" 1
    "https://croquet.studio/files-v1/all/assets/h1.blob".
Definition notes : AssetManager.FileSpec :=
  AssetManager.mkFileSpec "notes.txt" "notes.txt" ".txt" 1
    "https://croquet.studio/files-v1/all/assets/h2.blob".
Definition descriptor : AssetManager.Descriptor :=
  AssetManager.mkDescriptor "clip.mp4"
    [("notes.txt"%string, notes); ("clip.mp4"%string, clip)] ".mp4"
    (AssetManager.mkLoadPaths None None (Some "clip.mp4"%string)).
(** The server has the first file from the start and the second one from
    the third check on. *)
Definition headOk (round : nat) (url : string) : bool :=
  String.eqb url (AssetManager.blobURL clip) || Nat.leb 2 round.
(** The blob arrives with the third request. *)
Definition fetched (attempt : nat) : option (list Z) :=
  if Nat.eqb attempt 2 then Some [0%Z; 1%Z; 2%Z] else None.
End SampleAssets.

(** The payload a click on [Sample2.pausedView 5] at 20000 ms publishes, and
    a second view, paused at the same place. *)
Module Sample3.
Definition clickPayload : Payload :=
  mkPayload (PlayState.mk true (Some 15000) 0)
            (Some (ActionSpec.mk "me" "video" (320 # 640) (180 # 360))).

Definition otherView : SyncedVideoView :=
  mkView "you" Sample.page (Some (Sample.adapter 60 5)) (Some (Sample.pausedAt 5)) None
    false false 0%Z 500 (Some 500) None false false None [].
End Sample3.

(** * Theorems *)

(** Evaluation of handlers: unfold the monad and the record updates, keep
    the arithmetic folded. *)
Ltac run_handler :=
  unfold iconVisible, emit, typeError, onVideoElem, onVideoView, modify, throw,
    bind, ret, get in *;
  cbn -[wrappedTime JS.ltb JS.gtb JS.geb JS.eqb JS.abs JS.sign JS.min JS.max
        Qdiv Qminus Qmult Qplus Qopp Qinv inject_Z Z.mul Z.opp Z.sgn Z.eqb
        desiredBoost hysteresisBlock String.eqb app
        jumpCheck adjustRate applyPlayState revealAction useHandToPoint
        playStateChanged stepWhileBlocked pause setStatic play_begin] in *.

Section WrappedTime.

Lemma ltb_true (a b : Q) : JS.ltb a b = true <-> a < b.
Proof.
  unfold JS.ltb. destruct (Qlt_le_dec a b) as [H|H]; split; intro K;
    try assumption; try reflexivity; try discriminate.
  exfalso. exact (Qlt_not_le _ _ K H).
Qed.

Lemma ltb_false (a b : Q) : JS.ltb a b = false <-> b <= a.
Proof.
  unfold JS.ltb. destruct (Qlt_le_dec a b) as [H|H]; split; intro K;
    try assumption; try reflexivity; try discriminate.
  exfalso. exact (Qlt_not_le _ _ H K).
Qed.


Lemma truthy_zero (d : Q) : d == 0 -> JS.truthy (Some d) = false.
Proof.
  intro Hd. unfold JS.truthy, JS.eqb.
  rewrite (Qeq_eq_bool _ _ Hd). reflexivity.
Qed.

(** The loop leaves a time that is at most the duration alone. *)
Lemma wrap_loop_small (fuel : nat) (d t : Q) :
  t <= d -> wrap_loop fuel d t = Some t.
Proof.
  intro H. destruct fuel; simpl;
    (replace (JS.gtb t d) with false; [reflexivity|]);
    symmetry; apply ltb_false; assumption.
Qed.

Lemma inject_nat_succ (k : nat) :
  inject_Z (Z.of_nat (S k)) == inject_Z (Z.of_nat k) + 1.
Proof. rewrite Nat2Z.inj_succ. unfold Z.succ. rewrite inject_Z_plus. reflexivity. Qed.

(** With enough fuel the loop subtracts the duration [k] times and stops
    in [(0, d]] (or at [t] itself when [t <= d]). *)
Lemma wrap_loop_spec (d : Q) (Hd : 0 < d) :
  forall (n fuel : nat) (t : Q),
    (n <= fuel)%nat -> t <= d + inject_Z (Z.of_nat n) * d ->
    exists (r : Q) (k : nat),
      wrap_loop fuel d t = Some r /\
      r == t - inject_Z (Z.of_nat k) * d /\
      r <= d /\
      (t <= d -> r = t) /\
      (d < t -> 0 < r).
Proof.
  induction n as [|n IH]; intros fuel t Hf Ht.
  - assert (Hle : t <= d) by (change (inject_Z (Z.of_nat 0)) with 0 in Ht; lra).
    exists t, O. rewrite (wrap_loop_small fuel d t Hle).
    repeat split; try assumption; try reflexivity.
    + change (inject_Z (Z.of_nat 0)) with 0. ring.
    + intro K. lra.
  - destruct (Qlt_le_dec d t) as [Hgt|Hle].
    + destruct fuel as [|fuel]; [lia|].
      rewrite inject_nat_succ in Ht.
      destruct (IH fuel (t - d)) as (r & k & Hr & Hk & Hrd & Hsm & Hpos);
        [lia|lra|].
      exists r, (S k). simpl wrap_loop.
      replace (JS.gtb t d) with true by (symmetry; apply ltb_true; exact Hgt).
      repeat split; try assumption.
      * rewrite inject_nat_succ. rewrite Hk. ring.
      * intro K. lra.
      * intros _. destruct (Qlt_le_dec d (t - d)) as [H2|H2].
        -- apply Hpos; exact H2.
        -- rewrite (Hsm H2). lra.
    + exists t, O. rewrite (wrap_loop_small fuel d t Hle).
      repeat split; try assumption; try reflexivity.
      * change (inject_Z (Z.of_nat 0)) with 0. ring.
      * intro K. lra.
Qed.

(** [wrap_fuel] iterations are enough for a positive duration. *)
Lemma wrap_fuel_enough (d t : Q) :
  0 < d -> t <= d + inject_Z (Z.of_nat (wrap_fuel d t)) * d.
Proof.
  intro Hd. unfold wrap_fuel.
  assert (Hc := Qle_ceiling (t / d)).
  assert (Hz : inject_Z (Qceiling (t / d)) <= inject_Z (Z.of_nat (Z.to_nat (Qceiling (t / d))))).
  { rewrite <- Zle_Qle. lia. }
  assert (Ht : t == (t / d) * d) by (field; lra).
  assert (H1 : (t / d) * d <= inject_Z (Z.of_nat (Z.to_nat (Qceiling (t / d)))) * d).
  { apply Qmult_le_compat_r; lra. }
  lra.
Qed.




(** The loop returns for a positive duration and enough fuel. *)
Lemma wrap_loop_total (d t : Q) (fuel : nat) :
  0 < d -> (wrap_fuel d t <= fuel)%nat ->
  exists (r : Q) (k : nat),
    wrap_loop fuel d t = Some r /\
    r == t - inject_Z (Z.of_nat k) * d /\
    r <= d /\ (t <= d -> r = t) /\ (d < t -> 0 < r).
Proof.
  intros Hd Hf.
  exact (wrap_loop_spec d Hd (wrap_fuel d t) fuel t Hf (wrap_fuel_enough d t Hd)).
Qed.

(** [wrappedTime] returns whenever [fuelFor] holds. *)
Lemma wrappedTime_total (dur : option Q) (t : Q) (guarded : bool) (fuel : nat) :
  fuelFor dur t fuel -> exists r, wrappedTime fuel dur t guarded = Some r.
Proof.
  destruct dur as [d|]; simpl; [|intros _; exists t; reflexivity].
  intros [Hd Hf]. unfold wrappedTime.
  destruct (JS.truthy (Some d)) eqn:E; [|exists t; reflexivity].
  assert (Hpos : 0 < d).
  { destruct (Qlt_le_dec 0 d) as [H|H]; [exact H|].
    assert (Hz : d == 0) by lra.
    rewrite (truthy_zero d Hz) in E. discriminate. }
  destruct (wrap_loop_total d t fuel Hpos Hf) as (r & k & Hr & _).
  simpl JS.or0. rewrite Hr. eexists. reflexivity.
Qed.

End WrappedTime.

(** ** C1 and C10: the range of [wrappedTime] *)




(** C10: while the duration is unset or 0, [wrappedTime] returns its
    argument unchanged, guarded or not, whatever the fuel. *)
Theorem wrappedTime_unknown_duration
    (fuel : nat) (dur : option Q) (t : Q) (guarded : bool) :
  dur = None \/ (exists d, dur = Some d /\ d == 0) ->
  wrappedTime fuel dur t guarded = Some t.
Proof.
  intros [->|(d & -> & Hd)]; unfold wrappedTime.
  - reflexivity.
  - rewrite (truthy_zero d Hd). reflexivity.
Qed.

Lemma wrappedTime_unknown_duration_witness :
  (Some 0 = None \/ (exists d, Some 0 = Some d /\ d == 0)) /\
  wrappedTime 0 (Some 0) 75 true = Some 75.
Proof.
  assert (H : Some 0 = None \/ (exists d, Some 0 = Some d /\ d == 0)).
  { right. exists 0. split; reflexivity. }
  split; [exact H|].
  exact (wrappedTime_unknown_duration 0 (Some 0) 75 true H).
Defined.

(** ** C9: [setStatic] *)

(** What a completed [setStatic] has done. *)
Lemma setStatic_effect (fuel : nat) (v v' : Video2DView) (t : option Q) :
  setStatic fuel v t = Some v' ->
  isPlaying v' = isPlaying v /\ isBlocked v' = isBlocked v /\
  duration v' = duration v /\ paused (video v') = true /\
  playbackRate (video v') = playbackRate (video v) /\
  muted (video v') = muted (video v) /\
  match t with
  | Some x => wrappedTime fuel (duration v) x true = Some (currentTime (video v'))
  | None => currentTime (video v') = currentTime (video v)
  end.
Proof.
  intro H. unfold setStatic in H. destruct t as [x|].
  - destruct (wrappedTime fuel (duration v) x true) as [t'|] eqn:E; [|discriminate].
    injection H as <-. simpl. repeat split; reflexivity.
  - injection H as <-. simpl. repeat split; reflexivity.
Qed.

(** [setStatic] returns whenever the fuel suffices for its seek. *)
Lemma setStatic_total (fuel : nat) (v : Video2DView) (t : option Q) :
  (forall x, t = Some x -> fuelFor (duration v) x fuel) ->
  exists v', setStatic fuel v t = Some v'.
Proof.
  intro Hf. unfold setStatic. destruct t as [x|]; [|eexists; reflexivity].
  destruct (wrappedTime_total (duration v) x true fuel (Hf x eq_refl)) as [r Hr].
  rewrite Hr. eexists. reflexivity.
Qed.

(** C9: [setStatic(t)] leaves [isPlaying], [isBlocked] (and the duration)
    as they were and pauses the element; when [t] is defined the element's
    [currentTime] becomes the guarded wrapped time, otherwise it is not
    touched.  The call returns whenever the fuel suffices. *)
Theorem setStatic_frame (fuel : nat) (v : Video2DView) (t : option Q) :
  (forall v', setStatic fuel v t = Some v' ->
     isPlaying v' = isPlaying v /\ isBlocked v' = isBlocked v /\
     duration v' = duration v /\ paused (video v') = true /\
     playbackRate (video v') = playbackRate (video v) /\
     muted (video v') = muted (video v) /\
     match t with
     | Some x => wrappedTime fuel (duration v) x true = Some (currentTime (video v'))
     | None => currentTime (video v') = currentTime (video v)
     end) /\
  ((forall x, t = Some x -> fuelFor (duration v) x fuel) ->
   exists v', setStatic fuel v t = Some v').
Proof.
  split.
  - intros v'. apply setStatic_effect.
  - apply setStatic_total.
Qed.

Lemma setStatic_frame_witness :
  exists v', setStatic 3 (Sample.playingAdapter 60 5) (Some 130) = Some v' /\
    isPlaying v' = true /\ isBlocked v' = false /\ paused (video v') = true /\
    currentTime (video v') == 10.
Proof.
  destruct (setStatic_frame 3 (Sample.playingAdapter 60 5) (Some 130)) as [Hp Ht].
  destruct Ht as [v' Hv'].
  - intros x Hx. injection Hx as <-. simpl. split; [discriminate|vm_compute; lia].
  - exists v'. split; [exact Hv'|].
    destruct (Hp v' Hv') as (H1 & H2 & _ & H4 & _ & _ & H7).
    repeat split; try assumption.
    remember (currentTime (video v')) as ct eqn:Ect. clear Ect.
    vm_compute in H7. injection H7 as <-. reflexivity.
Defined.

(** ** C4 and C5: rate adjustment *)

Section DriftCorrection.

Variable fuel : nat.
Variable now : Q.

Lemma sign_pos (x : Q) : 0 < x -> JS.sign x = 1%Z.
Proof.
  unfold JS.sign, Qlt. simpl. intro H.
  apply Z.sgn_pos. lia.
Qed.

Lemma sign_neg (x : Q) : x < 0 -> JS.sign x = (-1)%Z.
Proof.
  unfold JS.sign, Qlt. simpl. intro H.
  apply Z.sgn_neg. lia.
Qed.

Lemma gtb_true (a b : Q) : JS.gtb a b = true <-> b < a.
Proof. unfold JS.gtb. apply ltb_true. Qed.

Lemma gtb_false (a b : Q) : JS.gtb a b = false <-> a <= b.
Proof. unfold JS.gtb. apply ltb_false. Qed.

Lemma geb_true (a b : Q) : JS.geb a b = true <-> b <= a.
Proof.
  unfold JS.geb. rewrite negb_true_iff. apply ltb_false.
Qed.

(** A tick that measures the drift runs the jump block or the rate block
    on the view with the new [lastTimingCheck]. *)
Lemma checkPlayStatus_measures (v : SyncedVideoView) (videoDiff : Q) :
  measuresDrift fuel now v videoDiff ->
  exists vv,
    videoView v = Some vv /\
    checkPlayStatus fuel now v =
      let v1 := set_lastTimingCheck (Some now)
                  (set_trace (trace v ++ [DrawPlaybar (playbarPortion v)]) v) in
      if jumpIfNeeded v
      then jumpCheck fuel vv (currentTime (video vv)) videoDiff v1
      else adjustRate now (videoDiff * 1000) v1.
Proof.
  intros (vv & st & d & e & Hvv & Hst & Hd & Hp & Hb & Hdue & Hw & Hdiff & Hlt).
  exists vv. split; [exact Hvv|].
  destruct v; destruct vv; run_handler; subst.
  unfold checkPlayStatus, adjustPlaybar, calculateVideoTime, playbarPortion.
  run_handler. rewrite Hdue. run_handler. rewrite Hw. run_handler.
  rewrite Hlt. destruct jumpIfNeeded0; reflexivity.
Qed.

(** The rate block, 3000 ms after the last adjustment: the boost changes
    to the desired one unless they agree already or the hysteresis blocks
    the change; only a change reaches the element. *)
Lemma adjustRate_result (v1 : SyncedVideoView) (vv : Video2DView) (ms : Q) :
  videoView v1 = Some vv ->
  JS.geb (now - JS.or0 (lastRateAdjust v1)) 3000 = true ->
  let changed := negb (desiredBoost ms =? playbackBoost v1)%Z
                 && negb (hysteresisBlock (playbackBoost v1) ms) in
  let rate := 1 + inject_Z (desiredBoost ms) * 0.01 in
  exists v2,
    adjustRate now ms v1 = Some (Normal tt, v2) /\
    playbackBoost v2 = (if changed then desiredBoost ms else playbackBoost v1) /\
    trace v2 = trace v1 ++ (if changed then [SetPlaybackRate rate] else []) /\
    videoView v2 =
      (if changed then Some (set_video (set_playbackRate rate (video vv)) vv)
       else Some vv) /\
    jumpIfNeeded v2 = jumpIfNeeded v1 /\
    lastRateAdjust v2 = Some now.
Proof.
  intros Hvv Hdue changed rate. subst changed rate.
  unfold adjustRate. destruct v1; run_handler; subst.
  rewrite Hdue.
  destruct (desiredBoost ms =? playbackBoost0)%Z;
    destruct (hysteresisBlock playbackBoost0 ms);
    run_handler; eexists; repeat split; try reflexivity;
    rewrite app_nil_r; reflexivity.
Qed.

Lemma abs_pos_sign (x : Q) : 0 < Qabs x -> JS.sign x <> 0%Z.
Proof.
  intro H. destruct (Qlt_le_dec 0 x) as [Hx|Hx].
  - rewrite (sign_pos x Hx). discriminate.
  - destruct (Qlt_le_dec x 0) as [Hn|Hn].
    + rewrite (sign_neg x Hn). discriminate.
    + assert (E : x == 0) by lra. rewrite E in H. vm_compute in H. discriminate.
Qed.

Lemma desiredBoost_far (ms : Q) :
  150 < Qabs ms -> desiredBoost ms = (- JS.sign ms * 3)%Z.
Proof.
  intro H. unfold desiredBoost, JS.abs.
  replace (JS.gtb (Qabs ms) 150) with true by (symmetry; apply gtb_true; exact H).
  reflexivity.
Qed.

Lemma desiredBoost_near (ms : Q) :
  50 < Qabs ms -> Qabs ms <= 150 -> desiredBoost ms = (- JS.sign ms * 1)%Z.
Proof.
  intros H1 H2. unfold desiredBoost, JS.abs.
  replace (JS.gtb (Qabs ms) 150) with false by (symmetry; apply gtb_false; exact H2).
  replace (JS.gtb (Qabs ms) 50) with true by (symmetry; apply gtb_true; exact H1).
  reflexivity.
Qed.

(** A nonzero desired boost is never blocked, so it becomes the boost. *)
Lemma boost_after_nonzero_desired (old : Z) (ms : Q) :
  desiredBoost ms <> 0%Z ->
  (if negb (desiredBoost ms =? old)%Z && negb (hysteresisBlock old ms)
   then desiredBoost ms else old) = desiredBoost ms.
Proof.
  intro Hnz. unfold hysteresisBlock.
  destruct (Z.eqb_spec (desiredBoost ms) old) as [E|E]; [symmetry; exact E|].
  destruct (Z.eqb_spec (desiredBoost ms) 0) as [E0|E0]; [contradiction|].
  reflexivity.
Qed.

Lemma newEffects_app (v v' : SyncedVideoView) (tr : list Effect) :
  trace v' = trace v ++ tr -> newEffects v v' = tr.
Proof.
  intro H. unfold newEffects. rewrite H.
  rewrite skipn_app, skipn_all, Nat.sub_diag. reflexivity.
Qed.

(** A rate-adjustment tick returns; its boost and its commands follow the
    rate block. *)
Lemma rate_tick_result (v : SyncedVideoView) (videoDiff : Q) :
  rateAdjustmentTick fuel now v videoDiff ->
  let ms := videoDiff * 1000 in
  let changed := negb (desiredBoost ms =? playbackBoost v)%Z
                 && negb (hysteresisBlock (playbackBoost v) ms) in
  exists v',
    checkPlayStatus fuel now v = Some (Normal tt, v') /\
    playbackBoost v' = (if changed then desiredBoost ms else playbackBoost v) /\
    adapterCommands (newEffects v v') =
      (if changed then [SetPlaybackRate (1 + inject_Z (desiredBoost ms) * 0.01)]
       else []) /\
    (changed = false -> videoView v' = videoView v) /\
    lastRateAdjust v' = Some now.
Proof.
  intros (Hm & Hj & Hdue) ms changed.
  destruct (checkPlayStatus_measures v videoDiff Hm) as (vv & Hvv & Hc).
  rewrite Hj in Hc. cbv zeta in Hc.
  set (v1 := set_lastTimingCheck (Some now)
               (set_trace (trace v ++ [DrawPlaybar (playbarPortion v)]) v)) in Hc.
  destruct (adjustRate_result v1 vv ms) as (v2 & Hr & Hb & Ht & Hv & _ & Hl).
  - exact Hvv.
  - exact Hdue.
  - exists v2. fold ms in Hc. rewrite Hc. split; [exact Hr|].
    change (playbackBoost v1) with (playbackBoost v) in *. fold changed in Hb, Ht, Hv.
    split; [exact Hb|]. split; [|split; [|exact Hl]].
    + change (trace v1) with (trace v ++ [DrawPlaybar (playbarPortion v)]) in Ht.
      rewrite <- app_assoc in Ht. rewrite (newEffects_app _ _ _ Ht).
      destruct changed; reflexivity.
    + intro E. rewrite E in Hv. rewrite Hv, Hvv. reflexivity.
Qed.

(** C4: on a tick that adjusts the rate, with [videoDiffMS] the drift in
    milliseconds: beyond 150 ms the new boost is 3 with the sign opposite to
    the drift, between 50 ms (excluded) and 150 ms it is 1 with the opposite
    sign; so a drift above 150 ms gives [-3] and one below -150 ms gives [3]. *)
Theorem rate_adjustment_boost (v : SyncedVideoView) (videoDiff : Q) :
  rateAdjustmentTick fuel now v videoDiff ->
  let videoDiffMS := videoDiff * 1000 in
  exists v',
    checkPlayStatus fuel now v = Some (Normal tt, v') /\
    (150 < Qabs videoDiffMS ->
     playbackBoost v' = (- JS.sign videoDiffMS * 3)%Z) /\
    (50 < Qabs videoDiffMS /\ Qabs videoDiffMS <= 150 ->
     playbackBoost v' = (- JS.sign videoDiffMS * 1)%Z) /\
    (150 < videoDiffMS -> playbackBoost v' = (-3)%Z) /\
    (videoDiffMS < - (150) -> playbackBoost v' = 3%Z).
Proof.
  intros Htick ms.
  destruct (rate_tick_result v videoDiff Htick) as (v' & Hc & Hb & _).
  fold ms in Hb. exists v'. split; [exact Hc|].
  assert (Hfar : 150 < Qabs ms -> playbackBoost v' = (- JS.sign ms * 3)%Z).
  { intro H. rewrite Hb, boost_after_nonzero_desired; rewrite (desiredBoost_far ms H).
    - reflexivity.
    - assert (Hs : JS.sign ms <> 0%Z) by (apply abs_pos_sign; lra). lia. }
  assert (Hnear : 50 < Qabs ms /\ Qabs ms <= 150 ->
                  playbackBoost v' = (- JS.sign ms * 1)%Z).
  { intros [H1 H2].
    rewrite Hb, boost_after_nonzero_desired; rewrite (desiredBoost_near ms H1 H2).
    - reflexivity.
    - assert (Hs : JS.sign ms <> 0%Z) by (apply abs_pos_sign; lra). lia. }
  repeat split; try assumption.
  - intro H. rewrite Hfar.
    + rewrite (sign_pos ms); [reflexivity|lra].
    + rewrite (Qabs_pos ms); lra.
  - intro H. rewrite Hfar.
    + rewrite (sign_neg ms); [reflexivity|lra].
    + rewrite (Qabs_neg ms); lra.
Qed.

(** C5: on a tick that adjusts the rate, when the desired boost is 0, the
    boost in force is not 0, its sign is still the one the drift calls for
    (opposite to the drift's) and the drift is at least 25 ms, the boost stays
    as it was: nothing of the adapter changes and no command goes to it. *)
Theorem hysteresis_keeps_boost (v : SyncedVideoView) (videoDiff : Q) :
  rateAdjustmentTick fuel now v videoDiff ->
  let videoDiffMS := videoDiff * 1000 in
  desiredBoost videoDiffMS = 0%Z ->
  playbackBoost v <> 0%Z ->
  Z.sgn (playbackBoost v) = (- JS.sign videoDiffMS)%Z ->
  25 <= Qabs videoDiffMS ->
  exists v',
    checkPlayStatus fuel now v = Some (Normal tt, v') /\
    playbackBoost v' = playbackBoost v /\
    videoView v' = videoView v /\
    adapterCommands (newEffects v v') = [].
Proof.
  intros Htick ms Hdes Hold Hsign Habs.
  destruct (rate_tick_result v videoDiff Htick) as (v' & Hc & Hb & Ht & Hv & _).
  fold ms in Hb, Ht, Hv.
  assert (Hblock : negb (desiredBoost ms =? playbackBoost v)%Z
                   && negb (hysteresisBlock (playbackBoost v) ms) = false).
  { unfold hysteresisBlock. rewrite Hdes.
    replace (Z.sgn (playbackBoost v) =? - JS.sign ms)%Z with true
      by (symmetry; apply Z.eqb_eq; exact Hsign).
    replace (JS.geb (JS.abs ms) 25) with true
      by (symmetry; apply geb_true; exact Habs).
    destruct (0 =? playbackBoost v)%Z; reflexivity. }
  rewrite Hblock in Hb, Ht. exists v'.
  repeat split; try assumption. apply Hv. exact Hblock.
Qed.

End DriftCorrection.

(** An element 200 ms ahead, measured at session time 10000: the boost
    becomes [-3]. *)
Lemma rate_adjustment_boost_witness :
  rateAdjustmentTick 1 10000 (Sample.playingView 10.2 0 false)
    (10.2 - (10000 - 0) / 1000) /\
  exists v',
    checkPlayStatus 1 10000 (Sample.playingView 10.2 0 false)
      = Some (Normal tt, v') /\
    playbackBoost v' = (-3)%Z.
Proof.
  assert (Htick : rateAdjustmentTick 1 10000 (Sample.playingView 10.2 0 false)
                    (10.2 - (10000 - 0) / 1000)).
  { split; [|split; reflexivity].
    exists (Sample.playingAdapter 60 10.2), (Sample.playingFrom 0), 60,
      ((10000 - 0) / 1000).
    repeat split; reflexivity. }
  split; [exact Htick|].
  destruct (rate_adjustment_boost 1 10000 _ _ Htick) as (v' & Hc & _ & _ & Hpos & _).
  exists v'. split; [exact Hc|]. apply Hpos. reflexivity.
Defined.

(** Prior boost [+1], the element still 30 ms behind: the boost stays [+1]. *)
Lemma hysteresis_keeps_boost_witness :
  rateAdjustmentTick 1 10000 (Sample.playingView 9.97 1 false)
    (9.97 - (10000 - 0) / 1000) /\
  exists v',
    checkPlayStatus 1 10000 (Sample.playingView 9.97 1 false)
      = Some (Normal tt, v') /\
    playbackBoost v' = 1%Z /\
    adapterCommands (newEffects (Sample.playingView 9.97 1 false) v') = [].
Proof.
  assert (Htick : rateAdjustmentTick 1 10000 (Sample.playingView 9.97 1 false)
                    (9.97 - (10000 - 0) / 1000)).
  { split; [|split; reflexivity].
    exists (Sample.playingAdapter 60 9.97), (Sample.playingFrom 0), 60,
      ((10000 - 0) / 1000).
    repeat split; reflexivity. }
  split; [exact Htick|].
  destruct (hysteresis_keeps_boost 1 10000 _ _ Htick) as (v' & Hc & Hb & _ & Ht).
  - reflexivity.
  - discriminate.
  - reflexivity.
  - discriminate.
  - exists v'. repeat split; assumption.
Defined.

(** ** Applying a play state: [applyPlayState], [revealAction] *)

Section Apply.

Variable fuel : nat.
Variable now : Q.

Lemma pause_total (vv : Video2DView) (t : option Q) :
  (forall x, t = Some x -> fuelFor (duration vv) x fuel) ->
  exists vv', pause fuel vv t = Some vv'.
Proof.
  intro Hf. unfold pause.
  apply (setStatic_total fuel (set_isBlocked false (set_isPlaying false vv)) t).
  exact Hf.
Qed.

Lemma play_begin_total (vv : Video2DView) (t : Q) :
  fuelFor (duration vv) t fuel -> exists vv', play_begin fuel vv t = Some vv'.
Proof.
  intro Hf. unfold play_begin.
  destruct (wrappedTime_total (duration vv) t true fuel Hf) as [r Hr].
  rewrite Hr. eexists. reflexivity.
Qed.

Lemma applyPlayState_paused (v : SyncedVideoView) (vv vv' : Video2DView)
    (st : PlayState.t) :
  videoView v = Some vv -> waitingForSync v = false ->
  latestPlayState v = Some st -> PlayState.isPlaying st = false ->
  pause fuel vv (Some (PlayState.pausedTime st)) = Some vv' ->
  applyPlayState fuel now v =
    reveal v
      (set_videoView (Some vv')
         (set_trace (trace v ++ [IconVisible "play" true;
                                 IconVisible "enableSound" false;
                                 AdapterPause (Some (PlayState.pausedTime st))]) v)).
Proof.
  intros Hvv Hw Hst Hp Hpause.
  unfold applyPlayState, reveal. destruct v; run_handler; subst.
  rewrite Hp. run_handler. rewrite Hpause. run_handler.
  repeat rewrite <- app_assoc. destruct latestActionSpec0; reflexivity.
Qed.

Lemma applyPlayState_playing (v : SyncedVideoView) (vv vv' : Video2DView)
    (st : PlayState.t) :
  videoView v = Some vv -> waitingForSync v = false ->
  latestPlayState v = Some st -> PlayState.isPlaying st = true ->
  let rate := 1 + inject_Z (playbackBoost v) * 0.01 in
  play_begin fuel (set_video (set_playbackRate rate (video vv)) vv)
    (seekTarget now st) = Some vv' ->
  applyPlayState fuel now v =
    reveal v
      (set_videoView (Some vv')
         (set_jumpIfNeeded false
            (set_lastRateAdjust (Some now)
               (set_trace (trace v ++ [IconVisible "play" false;
                                       SetPlaybackRate rate;
                                       AdapterPlay (seekTarget now st)]) v)))).
Proof.
  intros Hvv Hw Hst Hp rate Hplay. subst rate.
  unfold applyPlayState, reveal, calculateVideoTime, seekTarget in *.
  destruct v; run_handler; subst.
  rewrite Hp in *. run_handler. rewrite Hplay. run_handler.
  repeat rewrite <- app_assoc. destruct latestActionSpec0; reflexivity.
Qed.

Lemma cosmetic_no_commands (tr : list Effect) :
  forallb isCosmetic tr = true -> adapterCommands tr = [].
Proof.
  induction tr as [|e tr IH]; simpl; [reflexivity|].
  intro H. apply andb_true_iff in H. destruct H as [He Ht].
  destruct e; simpl in *; try discriminate; apply IH; exact Ht.
Qed.

Lemma onlyCosmetic_refl (v : SyncedVideoView) : onlyCosmetic v v.
Proof.
  exists (remoteHandTimeout v), []. split; [|reflexivity].
  destruct v; cbn. rewrite app_nil_r. reflexivity.
Qed.

(** [useHandToPoint] returns, with cosmetic effects only. *)
Lemma useHandToPoint_cosmetic (targetX targetY : Q) (v : SyncedVideoView) :
  exists v', useHandToPoint targetX targetY v = Some (Normal tt, v') /\
             onlyCosmetic v v'.
Proof.
  unfold useHandToPoint. destruct v. run_handler.
  destruct (remoteHandIcon dom0) as [handRect|].
  - destruct remoteHandTimeout0; run_handler; eexists; (split; [reflexivity|]);
      eexists true, _; cbn; repeat rewrite <- app_assoc; split; reflexivity.
  - eexists; split; [reflexivity|]. apply onlyCosmetic_refl.
Qed.

(** [revealAction] always returns or throws; the view changes by cosmetic
    effects at most. *)
Lemma revealAction_cosmetic (spec : ActionSpec.t) (v : SyncedVideoView) :
  exists c v', revealAction spec v = Some (c, v') /\ onlyCosmetic v v'.
Proof.
  unfold revealAction. run_handler.
  destruct (negb (ActionSpec.viewId spec =? viewId v)%string).
  - destruct (ActionSpec.type spec =? "video")%string.
    + run_handler.
      destruct (useHandToPoint_cosmetic
                  (ActionSpec.x spec * Rect.width (videoRect (dom v))
                   + Rect.left (videoRect (dom v)))
                  (ActionSpec.y spec * Rect.height (videoRect (dom v))
                   + Rect.top (videoRect (dom v))) v) as (v' & H & Hc).
      exists (Normal tt), v'. split; assumption.
    + destruct (ActionSpec.type spec =? "timebar")%string; run_handler.
      * destruct (useHandToPoint_cosmetic
                  (ActionSpec.x spec * Rect.width (timebarRect (dom v))
                   + Rect.left (timebarRect (dom v)))
                  (ActionSpec.y spec * Rect.height (timebarRect (dom v))
                   + Rect.top (timebarRect (dom v))) v) as (v' & H & Hc).
        exists (Normal tt), v'. split; assumption.
      * exists (Throw "unknown action type"), v. split; [reflexivity|].
        apply onlyCosmetic_refl.
  - exists (Normal tt), v. split; [reflexivity|]. apply onlyCosmetic_refl.
Qed.

Lemma reveal_cosmetic (v0 v : SyncedVideoView) :
  exists c v', reveal v0 v = Some (c, v') /\ onlyCosmetic v v'.
Proof.
  unfold reveal. destruct (latestActionSpec v0) as [spec|].
  - apply revealAction_cosmetic.
  - exists (Normal tt), v. split; [reflexivity|]. apply onlyCosmetic_refl.
Qed.

(** With a loaded video, no wait for sync and enough fuel, [applyPlayState]
    gives the adapter the commands of the stored state and goes on to the
    reveal. *)
Lemma applyPlayState_active (v : SyncedVideoView) (vv : Video2DView)
    (st : PlayState.t) :
  videoView v = Some vv -> waitingForSync v = false ->
  latestPlayState v = Some st ->
  fuelFor (duration vv) (seekTarget now st) fuel ->
  exists v1 tr,
    applyPlayState fuel now v = reveal v v1 /\
    trace v1 = trace v ++ tr /\
    adapterCommands tr = commandsFor now (playbackBoost v) st /\
    viewId v1 = viewId v /\ latestActionSpec v1 = latestActionSpec v /\
    latestPlayState v1 = latestPlayState v /\
    waitingForSync v1 = waitingForSync v.
Proof.
  intros Hvv Hw Hst Hf.
  destruct (PlayState.isPlaying st) eqn:Hp.
  - destruct (play_begin_total
                (set_video (set_playbackRate (1 + inject_Z (playbackBoost v) * 0.01)
                                             (video vv)) vv)
                (seekTarget now st)) as [vv' Hplay]; [exact Hf|].
    rewrite (applyPlayState_playing v vv vv' st Hvv Hw Hst Hp Hplay).
    eexists _, _. split; [reflexivity|].
    unfold commandsFor. rewrite Hp. repeat split.
  - unfold seekTarget in Hf. rewrite Hp in Hf.
    destruct (pause_total vv (Some (PlayState.pausedTime st))) as [vv' Hpause].
    { intros x Hx. injection Hx as <-. exact Hf. }
    rewrite (applyPlayState_paused v vv vv' st Hvv Hw Hst Hp Hpause).
    eexists _, _. split; [reflexivity|].
    unfold commandsFor. rewrite Hp. repeat split.
Qed.

(** The whole of [applyPlayState] in that situation. *)
Lemma applyPlayState_commands (v : SyncedVideoView) (vv : Video2DView)
    (st : PlayState.t) :
  videoView v = Some vv -> waitingForSync v = false ->
  latestPlayState v = Some st ->
  fuelFor (duration vv) (seekTarget now st) fuel ->
  exists c v',
    applyPlayState fuel now v = Some (c, v') /\
    adapterCommands (newEffects v v') = commandsFor now (playbackBoost v) st /\
    latestPlayState v' = latestPlayState v /\
    waitingForSync v' = waitingForSync v.
Proof.
  intros Hvv Hw Hst Hf.
  destruct (applyPlayState_active v vv st Hvv Hw Hst Hf)
    as (v1 & tr & Ha & Ht & Hc & _ & _ & Hl & Hws).
  destruct (reveal_cosmetic v v1) as (c & v' & Hr & b & tr2 & Hv' & Hcos).
  exists c, v'. rewrite Ha. split; [exact Hr|].
  subst v'. destruct v1; cbn in *. subst. repeat split.
  rewrite (newEffects_app v _ (tr ++ tr2)); [|cbn; rewrite app_assoc; reflexivity].
  unfold adapterCommands in *. rewrite filter_app, Hc.
  fold (adapterCommands tr2). rewrite (cosmetic_no_commands tr2 Hcos).
  apply app_nil_r.
Qed.

End Apply.

(** ** What handlers preserve *)

Section Preserves.

Variable R : SyncedVideoView -> SyncedVideoView -> Prop.
Hypothesis R_refl : forall v, R v v.
Hypothesis R_trans : forall v1 v2 v3, R v1 v2 -> R v2 v3 -> R v1 v3.

Lemma preserves_ret (A : Type) (a : A) : preserves R (ret a).
Proof. intros v r v' H. injection H as _ <-. apply R_refl. Qed.

Lemma preserves_get : preserves R get.
Proof. intros v r v' H. injection H as _ <-. apply R_refl. Qed.

Lemma preserves_throw (A : Type) (msg : string) : preserves R (@throw A msg).
Proof. intros v r v' H. injection H as _ <-. apply R_refl. Qed.

Lemma preserves_none (A : Type) : preserves R (fun _ => @None (completion A * SyncedVideoView)).
Proof. intros v r v' H. discriminate. Qed.

Lemma preserves_bind (A B : Type) (m : Handler A) (k : A -> Handler B) :
  preserves R m -> (forall a, preserves R (k a)) -> preserves R (bind m k).
Proof.
  intros Hm Hk v r v' H. unfold bind in H.
  destruct (m v) as [[[a|msg] v1]|] eqn:E; [| |discriminate].
  - apply R_trans with v1; [exact (Hm _ _ _ E)|exact (Hk a _ _ _ H)].
  - injection H as _ <-. exact (Hm _ _ _ E).
Qed.

Lemma preserves_modify (f : SyncedVideoView -> SyncedVideoView) :
  (forall v, R v (f v)) -> preserves R (modify f).
Proof. intros Hf v r v' H. injection H as _ <-. apply Hf. Qed.

Lemma preserves_onVideoView (f : Video2DView -> option Video2DView) :
  (forall v vv', R v (set_videoView (Some vv') v)) -> preserves R (onVideoView f).
Proof.
  intros Hf v r v' H. unfold onVideoView in H.
  destruct (videoView v) as [vv|]; [|injection H as _ <-; apply R_refl].
  destruct (f vv) as [vv'|]; [|discriminate].
  injection H as _ <-. apply Hf.
Qed.

Lemma preserves_catchLog (m : Handler unit) :
  preserves R m -> preserves R (catchLog m).
Proof.
  intros Hm v r v' H. unfold catchLog in H.
  destruct (m v) as [[[a|msg] v1]|] eqn:E; [| |discriminate];
    injection H as _ <-; exact (Hm _ _ _ E).
Qed.

End Preserves.

(** One step of a proof that a handler preserves a relation; [side] proves
    the relation across a single write. *)
Ltac preserves_step refl trans side :=
  first
    [ apply (preserves_bind _ trans); [|intro]
    | apply (preserves_ret _ refl)
    | apply (preserves_get _ refl)
    | apply (preserves_throw _ refl)
    | apply preserves_none
    | apply preserves_modify; side
    | apply (preserves_onVideoView _ refl); side
    | apply preserves_catchLog
    | progress cbv zeta
    | match goal with
      | |- preserves _ (match ?x with _ => _ end) => destruct x
      | |- preserves _ (let (_, _) := ?x in _) => destruct x
      end ].

Ltac preserves_auto refl trans side known :=
  unfold typeError, emit, iconVisible, onVideoElem;
  repeat first [ known | preserves_step refl trans side ].

Section Framed.

Variable ok : Effect -> bool.
Hypothesis ok_quiet :
  forall e, isSeekJump e = false -> isPublish e = false -> ok e = true.

Lemma framed_refl (v : SyncedVideoView) : framed ok v v.
Proof.
  exists []. rewrite app_nil_r. repeat split. intro H; exact H.
Qed.

Lemma framed_trans (v1 v2 v3 : SyncedVideoView) :
  framed ok v1 v2 -> framed ok v2 v3 -> framed ok v1 v3.
Proof.
  intros (t1 & E1 & O1 & J1) (t2 & E2 & O2 & J2).
  exists (t1 ++ t2). rewrite E2, E1, app_assoc. repeat split.
  - rewrite forallb_app, O1, O2. reflexivity.
  - intro H. apply J1, J2, H.
Qed.

End Framed.

(** A single write is framed: nothing is added to the trace, or one effect
    that passes [ok]; the jump flag is kept or cleared. *)
Ltac framed_side ok_quiet :=
  intros;
  match goal with
  | |- framed _ ?v _ => destruct v
  end;
  first
    [ exists []; cbn; rewrite app_nil_r;
      repeat split;
      let Hflag := fresh "Hflag" in
      intro Hflag; first [exact Hflag|discriminate Hflag]
    | eexists [_]; cbn; repeat split;
      first [ reflexivity
            | rewrite ok_quiet; reflexivity
            | let Hflag := fresh "Hflag" in
              intro Hflag; first [exact Hflag|discriminate Hflag] ] ].

Section FramedHandlers.

Variable ok : Effect -> bool.
Hypothesis ok_quiet :
  forall e, isSeekJump e = false -> isPublish e = false -> ok e = true.
Variable fuel : nat.
Variable now : Q.

Lemma useHandToPoint_framed (targetX targetY : Q) :
  preserves (framed ok) (useHandToPoint targetX targetY).
Proof.
  unfold useHandToPoint.
  preserves_auto (framed_refl ok) (framed_trans ok) ltac:(framed_side ok_quiet) fail.
Qed.

Lemma revealAction_framed (spec : ActionSpec.t) :
  preserves (framed ok) (revealAction spec).
Proof.
  unfold revealAction.
  preserves_auto (framed_refl ok) (framed_trans ok) ltac:(framed_side ok_quiet) ltac:(apply useHandToPoint_framed).
Qed.

Lemma calculateVideoTime_framed : preserves (framed ok) (calculateVideoTime now).
Proof.
  unfold calculateVideoTime.
  preserves_auto (framed_refl ok) (framed_trans ok) ltac:(framed_side ok_quiet) fail.
Qed.

Lemma applyPlayState_framed : preserves (framed ok) (applyPlayState fuel now).
Proof.
  unfold applyPlayState.
  preserves_auto (framed_refl ok) (framed_trans ok) ltac:(framed_side ok_quiet)
    ltac:(first [apply revealAction_framed|apply calculateVideoTime_framed]).
Qed.

Lemma playStateChanged_framed (p : Payload) :
  preserves (framed ok) (playStateChanged fuel now p).
Proof.
  unfold playStateChanged.
  preserves_auto (framed_refl ok) (framed_trans ok) ltac:(framed_side ok_quiet) ltac:(apply applyPlayState_framed).
Qed.

End FramedHandlers.

Section KeepsLatest.

Variable fuel : nat.
Variable now : Q.

Lemma keepsLatest_refl (v : SyncedVideoView) : keepsLatest v v.
Proof. reflexivity. Qed.

Lemma keepsLatest_trans (v1 v2 v3 : SyncedVideoView) :
  keepsLatest v1 v2 -> keepsLatest v2 v3 -> keepsLatest v1 v3.
Proof. unfold keepsLatest. intros H1 H2. rewrite H2. exact H1. Qed.

Lemma applyPlayState_keepsLatest : preserves keepsLatest (applyPlayState fuel now).
Proof.
  unfold applyPlayState, revealAction, calculateVideoTime, useHandToPoint.
  preserves_auto keepsLatest_refl keepsLatest_trans ltac:(intros; reflexivity) fail.
Qed.

End KeepsLatest.

(** ** C3: a repeated play state is ignored *)

Lemma same_fields (a b : PlayState.t) :
  PlayState.same a b = true <-> PlayStateEq.fields a b.
Proof.
  unfold PlayState.same, PlayStateEq.fields, JS.eqb.
  rewrite !andb_true_iff, eqb_true_iff, Qeq_bool_iff.
  assert (Ho : JS.eqb_opt (PlayState.startOffset a) (PlayState.startOffset b) = true
               <-> PlayStateEq.opt (PlayState.startOffset a) (PlayState.startOffset b)).
  { destruct (PlayState.startOffset a), (PlayState.startOffset b); simpl;
      unfold JS.eqb; try rewrite Qeq_bool_iff; intuition discriminate. }
  rewrite Ho. tauto.
Qed.

Lemma same_refl (a : PlayState.t) : PlayState.same a a = true.
Proof.
  apply same_fields. repeat split; try reflexivity.
  destruct (PlayState.startOffset a); simpl; reflexivity.
Qed.

(** After [playStateChanged(p)] the stored state has the fields of [p]. *)
Lemma playStateChanged_stores (fuel : nat) (now : Q) (p : Payload)
    (v v' : SyncedVideoView) (c : completion unit) :
  playStateChanged fuel now p v = Some (c, v') ->
  exists l, latestPlayState v' = Some l /\ PlayState.same (data p) l = true.
Proof.
  unfold playStateChanged. run_handler.
  destruct (latestPlayState v) as [l|] eqn:El.
  - destruct (PlayState.same (data p) l) eqn:Es.
    + intro H. injection H as _ <-. exists l. split; [exact El|exact Es].
    + intro H. exists (data p). split; [|apply same_refl].
      destruct (applyPlayState fuel now _) as [[r v1]|] eqn:Ea in H; [|discriminate].
      assert (K := applyPlayState_keepsLatest fuel now _ _ _ Ea).
      assert (v1 = v') by (destruct r; congruence). subst v1. exact K.
  - intro H. exists (data p). split; [|apply same_refl].
    destruct (applyPlayState fuel now _) as [[r v1]|] eqn:Ea in H; [|discriminate].
    assert (K := applyPlayState_keepsLatest fuel now _ _ _ Ea).
    assert (v1 = v') by (destruct r; congruence). subst v1. exact K.
Qed.

Lemma playStateChanged_ignores (fuel : nat) (now : Q) (p : Payload)
    (v : SyncedVideoView) (l : PlayState.t) :
  latestPlayState v = Some l -> PlayState.same (data p) l = true ->
  playStateChanged fuel now p v
    = Some (Normal tt, set_latestActionSpec (actionSpec p) v).
Proof.
  intros Hl Hs. unfold playStateChanged. run_handler.
  rewrite Hl, Hs. reflexivity.
Qed.

(** C3: when the payload of [playStateChanged] has the [isPlaying],
    [startOffset] and [pausedTime] of the stored [latestPlayState], the
    handler only records the payload's action spec: the stored state, the
    adapter and the trace of commands stay as they are.  So a payload applied
    a second time, whatever the first application did, is such a no-op. *)
Theorem playStateChanged_same_noop (fuel : nat) (now : Q) (p : Payload)
    (v : SyncedVideoView) :
  (forall l, latestPlayState v = Some l -> PlayStateEq.fields (data p) l ->
     playStateChanged fuel now p v
       = Some (Normal tt, set_latestActionSpec (actionSpec p) v)) /\
  (forall now0 v0 c, playStateChanged fuel now0 p v0 = Some (c, v) ->
     playStateChanged fuel now p v
       = Some (Normal tt, set_latestActionSpec (actionSpec p) v)).
Proof.
  split.
  - intros l Hl Hf. apply (playStateChanged_ignores fuel now p v l Hl).
    apply same_fields. exact Hf.
  - intros now0 v0 c H.
    destruct (playStateChanged_stores fuel now0 p v0 v c H) as (l & Hl & Hs).
    exact (playStateChanged_ignores fuel now p v l Hl Hs).
Qed.

(** The view paused at 0 hears "paused at 0" again, and then hears
    "paused at 10" twice. *)
Lemma playStateChanged_same_noop_witness :
  playStateChanged 1 0 (mkPayload (Sample.pausedAt 0) None) Sample.view
    = Some (Normal tt, Sample.view) /\
  exists c v,
    playStateChanged 1 0 (mkPayload (Sample.pausedAt 10) None) Sample.view
      = Some (c, v) /\
    playStateChanged 1 7 (mkPayload (Sample.pausedAt 10) None) v
      = Some (Normal tt, set_latestActionSpec None v).
Proof.
  split.
  - apply (proj1 (playStateChanged_same_noop 1 0
                    (mkPayload (Sample.pausedAt 0) None) Sample.view)
             (Sample.pausedAt 0)).
    + reflexivity.
    + repeat split; reflexivity.
  - destruct (playStateChanged 1 0 (mkPayload (Sample.pausedAt 10) None) Sample.view)
      as [[c v]|] eqn:E; [|vm_compute in E; discriminate E].
    exists c, v. split; [reflexivity|].
    exact (proj2 (playStateChanged_same_noop 1 7
                    (mkPayload (Sample.pausedAt 10) None) v) 0 Sample.view c E).
Defined.

(** ** C7: play states received while waiting for sync *)

Lemma applyPlayState_waiting (fuel : nat) (now : Q) (v : SyncedVideoView) :
  waitingForSync v = true -> applyPlayState fuel now v = Some (Normal tt, v).
Proof.
  intro Hw. unfold applyPlayState. run_handler.
  rewrite Hw. destruct (videoView v); reflexivity.
Qed.

(** While waiting, [playStateChanged] stores the state and does nothing
    else. *)
Lemma playStateChanged_waiting (fuel : nat) (now : Q) (p : Payload)
    (v : SyncedVideoView) :
  waitingForSync v = true ->
  exists v1 st,
    playStateChanged fuel now p v = Some (Normal tt, v1) /\
    trace v1 = trace v /\ videoView v1 = videoView v /\
    playbackBoost v1 = playbackBoost v /\
    waitingForSync v1 = true /\
    latestPlayState v1 = Some st /\ PlayState.same (data p) st = true.
Proof.
  intro Hw. unfold playStateChanged. run_handler.
  destruct (latestPlayState v) as [l|] eqn:El.
  - destruct (PlayState.same (data p) l) eqn:Es.
    + eexists _, l. split; [reflexivity|]. cbn. repeat split; assumption.
    + rewrite applyPlayState_waiting by exact Hw.
      eexists _, (data p). split; [reflexivity|]. cbn.
      repeat split; try assumption. apply same_refl.
  - rewrite applyPlayState_waiting by exact Hw.
    eexists _, (data p). split; [reflexivity|]. cbn.
    repeat split; try assumption. apply same_refl.
Qed.

(** The synced signal ends the wait and applies the stored state. *)
Lemma handleSyncState_applies (fuel : nat) (now : Q) (v : SyncedVideoView)
    (vv : Video2DView) (st : PlayState.t) :
  waitingForSync v = true -> videoView v = Some vv ->
  latestPlayState v = Some st ->
  fuelFor (duration vv) (seekTarget now st) fuel ->
  exists c v',
    handleSyncState fuel now true v = Some (c, v') /\
    waitingForSync v' = false /\
    adapterCommands (newEffects v v') = commandsFor now (playbackBoost v) st.
Proof.
  intros Hw Hvv Hst Hf.
  destruct (applyPlayState_commands fuel now (set_waitingForSync false v) vv st)
    as (c & v' & Ha & Hc & _ & Hws); try assumption; try reflexivity.
  exists c, v'. unfold handleSyncState. run_handler. rewrite Hw. run_handler.
  rewrite Ha. destruct c; (split; [reflexivity|]); split;
    solve [exact Hws | exact Hc].
Qed.

(** C7: while [waitingForSync] is true, [applyPlayState] returns at once
    and a received play state is stored without any effect; when the synced
    signal arrives for a view with a loaded video, [handleSyncState] clears
    [waitingForSync] and the adapter receives exactly the commands of the
    stored state. *)
Theorem waiting_defers_until_synced (fuel : nat) (now : Q) (p : Payload)
    (v : SyncedVideoView) :
  waitingForSync v = true ->
  applyPlayState fuel now v = Some (Normal tt, v) /\
  exists v1 st,
    playStateChanged fuel now p v = Some (Normal tt, v1) /\
    trace v1 = trace v /\ videoView v1 = videoView v /\
    waitingForSync v1 = true /\
    latestPlayState v1 = Some st /\ PlayStateEq.fields (data p) st /\
    forall (now' : Q) (vv : Video2DView),
      videoView v = Some vv ->
      fuelFor (duration vv) (seekTarget now' st) fuel ->
      exists c v2,
        handleSyncState fuel now' true v1 = Some (c, v2) /\
        waitingForSync v2 = false /\
        adapterCommands (newEffects v1 v2)
          = commandsFor now' (playbackBoost v) st.
Proof.
  intro Hw. split; [exact (applyPlayState_waiting fuel now v Hw)|].
  destruct (playStateChanged_waiting fuel now p v Hw)
    as (v1 & st & Hp & Ht & Hv & Hb & Hw1 & Hl & Hs).
  exists v1, st. repeat split; try assumption.
  - apply same_fields in Hs. apply Hs.
  - apply same_fields in Hs. apply Hs.
  - apply same_fields in Hs. apply Hs.
  - intros now' vv Hvv Hf. rewrite <- Hb.
    apply (handleSyncState_applies fuel now' v1 vv st); try assumption.
    rewrite Hv. exact Hvv.
Qed.

(** Scenario A: "paused at 10" arrives while the sample view waits; nothing
    reaches the adapter until the synced signal, then [pause(10)] does. *)
Lemma waiting_defers_until_synced_witness :
  waitingForSync Sample.waitingView = true /\
  exists v1 c v2,
    playStateChanged 1 0 (mkPayload (Sample.pausedAt 10) None) Sample.waitingView
      = Some (Normal tt, v1) /\
    adapterCommands (trace v1) = [] /\
    handleSyncState 1 250 true v1 = Some (c, v2) /\
    waitingForSync v2 = false /\
    adapterCommands (trace v2) = [AdapterPause (Some 10)].
Proof.
  assert (Hw : waitingForSync Sample.waitingView = true) by reflexivity.
  split; [exact Hw|].
  destruct (waiting_defers_until_synced 1 0
              (mkPayload (Sample.pausedAt 10) None) Sample.waitingView Hw)
    as (_ & v1 & st & Hp & Ht & _ & _ & Hl & _ & Hsync).
  assert (E : playStateChanged 1 0 (mkPayload (Sample.pausedAt 10) None)
                Sample.waitingView
              = Some (Normal tt,
                      set_latestPlayState (Some (Sample.pausedAt 10))
                        Sample.waitingView)) by reflexivity.
  rewrite E in Hp. injection Hp as <-. cbn in Hl. injection Hl as <-.
  destruct (Hsync 250 (Sample.adapter 60 0)) as (c & v2 & Hh & Hw2 & Hc).
  - reflexivity.
  - split; [discriminate|vm_compute; lia].
  - exists (set_latestPlayState (Some (Sample.pausedAt 10)) Sample.waitingView), c, v2.
    split; [exact E|]. split; [reflexivity|].
    split; [exact Hh|]. split; [exact Hw2|exact Hc].
Defined.

(** ** C8: action specs of an unknown type *)




(** ** C6: the jump check is one-shot *)

Lemma notSeekJump_quiet (e : Effect) :
  isSeekJump e = false -> isPublish e = false -> notSeekJump e = true.
Proof. intros H _. unfold notSeekJump. rewrite H. reflexivity. Qed.

Lemma seekJumps_app (t1 t2 : list Effect) :
  seekJumps (t1 ++ t2) = (seekJumps t1 + seekJumps t2)%nat.
Proof. unfold seekJumps. rewrite filter_app, length_app. reflexivity. Qed.

Lemma notSeekJump_none (tr : list Effect) :
  forallb notSeekJump tr = true -> seekJumps tr = O.
Proof.
  induction tr as [|e tr IH]; [reflexivity|].
  simpl. intro H. apply andb_true_iff in H. destruct H as [He Ht].
  unfold seekJumps in *. simpl. unfold notSeekJump in He.
  destruct (isSeekJump e); [discriminate|]. apply IH, Ht.
Qed.

Lemma framed_budgeted (v v' : SyncedVideoView) :
  framed notSeekJump v v' -> budgeted v v'.
Proof.
  intros (tr & Ht & Hok & Hj). exists tr. split; [exact Ht|].
  rewrite (notSeekJump_none tr Hok).
  destruct (jumpIfNeeded v'); [rewrite (Hj eq_refl)|]; simpl; lia.
Qed.

Lemma budgeted_refl (v : SyncedVideoView) : budgeted v v.
Proof. exists []. rewrite app_nil_r. split; [reflexivity|simpl; lia]. Qed.

Lemma budgeted_trans (v1 v2 v3 : SyncedVideoView) :
  budgeted v1 v2 -> budgeted v2 v3 -> budgeted v1 v3.
Proof.
  intros (t1 & E1 & B1) (t2 & E2 & B2). exists (t1 ++ t2).
  rewrite E2, E1, app_assoc, seekJumps_app. split; [reflexivity|lia].
Qed.

Lemma preserves_weaken (R S : SyncedVideoView -> SyncedVideoView -> Prop)
    (A : Type) (m : Handler A) :
  (forall v v', R v v' -> S v v') -> preserves R m -> preserves S m.
Proof. intros HRS Hm v r v' H. apply HRS. exact (Hm v r v' H). Qed.

(** A single write that adds no hard seek and does not arm the check. *)
Ltac noseek_side :=
  intros;
  match goal with
  | |- framed _ ?v _ => destruct v
  end;
  first
    [ exists []; cbn; rewrite app_nil_r;
      repeat split;
      let Hflag := fresh "Hflag" in
      intro Hflag; first [exact Hflag|discriminate Hflag]
    | eexists [_]; cbn; repeat split;
      let Hflag := fresh "Hflag" in
      intro Hflag; first [exact Hflag|discriminate Hflag] ].

Ltac noseek known :=
  preserves_auto (framed_refl notSeekJump) (framed_trans notSeekJump)
    ltac:(noseek_side) known.

Section NoSeek.

Variable fuel : nat.
Variable now : Q.

Lemma applyPlayState_noseek : preserves (framed notSeekJump) (applyPlayState fuel now).
Proof. exact (applyPlayState_framed notSeekJump notSeekJump_quiet fuel now). Qed.

Lemma playStateChanged_noseek (p : Payload) :
  preserves (framed notSeekJump) (playStateChanged fuel now p).
Proof. exact (playStateChanged_framed notSeekJump notSeekJump_quiet fuel now p). Qed.

Lemma calculateVideoTime_noseek :
  preserves (framed notSeekJump) (calculateVideoTime now).
Proof. exact (calculateVideoTime_framed notSeekJump now). Qed.

Lemma stepWhileBlocked_noseek :
  preserves (framed notSeekJump) (stepWhileBlocked fuel now).
Proof.
  unfold stepWhileBlocked. noseek ltac:(apply calculateVideoTime_noseek).
Qed.

Lemma playSettled_noseek (resolved : bool) :
  preserves (framed notSeekJump) (playSettled fuel now resolved).
Proof.
  unfold playSettled.
  noseek ltac:(first [apply applyPlayState_noseek|apply stepWhileBlocked_noseek]).
Qed.

Lemma handleSyncState_noseek (isSynced : bool) :
  preserves (framed notSeekJump) (handleSyncState fuel now isSynced).
Proof. unfold handleSyncState. noseek ltac:(apply applyPlayState_noseek). Qed.

Lemma handleUserClick_noseek (evt : PointerEvent) :
  preserves (framed notSeekJump) (handleUserClick fuel now evt).
Proof.
  unfold handleUserClick.
  noseek ltac:(first [apply applyPlayState_noseek|apply playStateChanged_noseek]).
Qed.

Lemma handleTimebar_noseek (proportion : Q) :
  preserves (framed notSeekJump) (handleTimebar fuel now proportion).
Proof. unfold handleTimebar. noseek ltac:(apply playStateChanged_noseek). Qed.

Lemma disposeOfVideo_noseek : preserves (framed notSeekJump) (disposeOfVideo fuel).
Proof. unfold disposeOfVideo. noseek fail. Qed.

Lemma loadVideo_noseek (isSynced : bool) (model : Model.t) (loadId : nat) :
  preserves (framed notSeekJump) (loadVideo fuel now isSynced model loadId).
Proof.
  unfold loadVideo.
  noseek ltac:(first [apply disposeOfVideo_noseek|apply playStateChanged_noseek]).
Qed.

Lemma videoLoaded_noseek (loadId : nat) (vv : Video2DView) :
  preserves (framed notSeekJump) (videoLoaded fuel now loadId vv).
Proof. unfold videoLoaded. noseek ltac:(apply applyPlayState_noseek). Qed.

End NoSeek.

(** Case analysis on the innermost undecided test of a handler run. *)
Ltac split_run H :=
  match type of H with
  | context [match ?x with _ => _ end] =>
      lazymatch x with
      | context [match _ with _ => _ end] => fail
      | _ => destruct x eqn:?
      end
  end.

Ltac budgeted_leaf :=
  unfold budgeted; cbn;
  eexists; split;
  [ repeat rewrite <- app_assoc; first [reflexivity|symmetry; apply app_nil_r]
  | cbn;
    repeat match goal with
           | |- context [Nat.b2n ?b] => is_var b; destruct b
           end;
    cbn; lia ].

Section Budget.

Variable fuel : nat.
Variable now : Q.

(** A tick makes a hard seek only by consuming the armed flag. *)
Lemma checkPlayStatus_budgeted : preserves budgeted (checkPlayStatus fuel now).
Proof.
  intros v r v' H.
  unfold checkPlayStatus, adjustPlaybar, calculateVideoTime, jumpCheck,
    adjustRate in H.
  destruct v. run_handler.
  repeat (split_run H; run_handler); try discriminate H;
    injection H as <- <-; budgeted_leaf.
Qed.

Lemma update_budgeted : preserves budgeted (update fuel now).
Proof.
  unfold update.
  preserves_auto budgeted_refl budgeted_trans
    ltac:(intros; apply framed_budgeted; noseek_side)
    ltac:(apply checkPlayStatus_budgeted).
Qed.

End Budget.

(** Every event but the delivery of [triggerJumpCheck] keeps the budget. *)
Lemma handlerOf_budgeted (fuel : nat) (ev : Event) :
  armsJumpCheck ev = false -> preserves budgeted (handlerOf fuel ev).
Proof.
  intro Harm.
  destruct ev as [now|now|t|now p|now b|now b|now evt|now pr|now m|now b mo id
                 |now id vv|now]; simpl handlerOf.
  - apply update_budgeted.
  - apply checkPlayStatus_budgeted.
  - intros v r v' H. destruct (videoView v) eqn:E.
    + apply framed_budgeted. revert H. unfold onVideoElem.
      apply (preserves_onVideoView _ (framed_refl notSeekJump)). noseek_side.
    + injection H as _ <-. apply budgeted_refl.
  - apply (preserves_weaken _ _ _ _ framed_budgeted), playStateChanged_noseek.
  - apply (preserves_weaken _ _ _ _ framed_budgeted), handleSyncState_noseek.
  - apply (preserves_weaken _ _ _ _ framed_budgeted), playSettled_noseek.
  - apply (preserves_weaken _ _ _ _ framed_budgeted), handleUserClick_noseek.
  - apply (preserves_weaken _ _ _ _ framed_budgeted), handleTimebar_noseek.
  - destruct m; [discriminate Harm|].
    apply (preserves_weaken _ _ _ _ framed_budgeted), stepWhileBlocked_noseek.
  - apply (preserves_weaken _ _ _ _ framed_budgeted), loadVideo_noseek.
  - apply (preserves_weaken _ _ _ _ framed_budgeted), videoLoaded_noseek.
  - apply (preserves_weaken _ _ _ _ framed_budgeted), disposeOfVideo_noseek.
Qed.

Lemma run_budgeted (fuel : nat) (evs : list Event) :
  existsb armsJumpCheck evs = false ->
  forall v v', run fuel evs v = Some v' -> budgeted v v'.
Proof.
  induction evs as [|ev evs IH]; intros Harm v v' H.
  - injection H as <-. apply budgeted_refl.
  - simpl in Harm. apply orb_false_iff in Harm. destruct Harm as [Hev Hevs].
    simpl in H. unfold step in H.
    destruct (handlerOf fuel ev v) as [[r v1]|] eqn:E; [|discriminate].
    apply budgeted_trans with v1.
    + exact (handlerOf_budgeted fuel ev Hev v r v1 E).
    + exact (IH Hevs v1 v' H).
Qed.

(** The tick that finds the flag armed and measures the drift: it clears
    the flag and seeks exactly when the drift exceeds 500 ms. *)
Lemma jump_tick (fuel : nat) (now : Q) (v : SyncedVideoView) (videoDiff : Q) :
  jumpIfNeeded v = true ->
  measuresDrift fuel now v videoDiff ->
  (forall vv, videoView v = Some vv ->
     fuelFor (duration vv) (currentTime (video vv) - videoDiff + 0.1) fuel) ->
  exists v',
    checkPlayStatus fuel now v = Some (Normal tt, v') /\
    jumpIfNeeded v' = false /\
    seekJumps (newEffects v v')
      = (if JS.gtb (JS.abs (videoDiff * 1000)) 500 then 1 else 0)%nat.
Proof.
  intros Hj Hm Hf.
  destruct (checkPlayStatus_measures fuel now v videoDiff Hm) as (vv & Hvv & Hc).
  rewrite Hj in Hc. cbv zeta in Hc. rewrite Hc. clear Hc.
  unfold jumpCheck.
  destruct (wrappedTime_total (duration vv)
              (currentTime (video vv) - videoDiff + 0.1) true fuel (Hf vv Hvv))
    as [t Ht].
  destruct v; run_handler; subst.
  destruct (JS.gtb (JS.abs (videoDiff * 1000)) 500).
  - rewrite Ht. run_handler. eexists. split; [reflexivity|]. split; [reflexivity|].
    unfold newEffects. cbn. rewrite <- app_assoc, skipn_app, skipn_all, Nat.sub_diag.
    reflexivity.
  - run_handler. eexists. split; [reflexivity|]. split; [reflexivity|].
    unfold newEffects. cbn. rewrite skipn_app, skipn_all, Nat.sub_diag.
    reflexivity.
Qed.

(** C6: after [triggerJumpCheck] has armed the flag, whatever events follow
    short of another [triggerJumpCheck] (ticks, playback progress, play
    states, clicks, loads, ...), at most one hard seek is made, and none
    while the flag is still armed.  The tick that measures the drift with
    the flag armed clears the flag, and seeks exactly when the drift exceeds
    500 ms. *)
Theorem jump_check_one_shot (fuel : nat) :
  (forall (v0 v1 v2 : SyncedVideoView) (evs : list Event),
     triggerJumpCheck v0 = Some (Normal tt, v1) ->
     existsb armsJumpCheck evs = false ->
     run fuel evs v1 = Some v2 ->
     jumpIfNeeded v1 = true /\
     (seekJumps (newEffects v1 v2) <= 1)%nat /\
     (jumpIfNeeded v2 = true -> seekJumps (newEffects v1 v2) = O)) /\
  (forall (now : Q) (v : SyncedVideoView) (videoDiff : Q),
     jumpIfNeeded v = true ->
     measuresDrift fuel now v videoDiff ->
     (forall vv, videoView v = Some vv ->
        fuelFor (duration vv) (currentTime (video vv) - videoDiff + 0.1) fuel) ->
     exists v',
       checkPlayStatus fuel now v = Some (Normal tt, v') /\
       jumpIfNeeded v' = false /\
       seekJumps (newEffects v v')
         = (if JS.gtb (JS.abs (videoDiff * 1000)) 500 then 1 else 0)%nat).
Proof.
  split; [|apply jump_tick].
  intros v0 v1 v2 evs Harmed Hevs Hrun.
  assert (Hj : jumpIfNeeded v1 = true).
  { unfold triggerJumpCheck, modify in Harmed. injection Harmed as <-. reflexivity. }
  destruct (run_budgeted fuel evs Hevs v1 v2 Hrun) as (tr & Ht & Hb).
  rewrite (newEffects_app v1 v2 tr Ht). rewrite Hj in Hb. simpl in Hb.
  split; [exact Hj|]. split; [lia|].
  intro H2. rewrite H2 in Hb. simpl in Hb. lia.
Qed.

(** The element is 2 s ahead when the check is armed and stays ahead: of
    the three ticks that follow, only the first one seeks. *)
Lemma jump_check_one_shot_witness :
  exists v1 v2,
    triggerJumpCheck (Sample.playingView 12 0 false) = Some (Normal tt, v1) /\
    existsb armsJumpCheck Sample.ticks = false /\
    run 1 Sample.ticks v1 = Some v2 /\
    (seekJumps (newEffects v1 v2) <= 1)%nat /\
    seekJumps (trace v2) = 1%nat.
Proof.
  exists (set_jumpIfNeeded true (Sample.playingView 12 0 false)).
  destruct (run 1 Sample.ticks (set_jumpIfNeeded true (Sample.playingView 12 0 false)))
    as [v2|] eqn:E; [|vm_compute in E; discriminate E].
  exists v2.
  assert (Ha : triggerJumpCheck (Sample.playingView 12 0 false)
               = Some (Normal tt, set_jumpIfNeeded true (Sample.playingView 12 0 false)))
    by reflexivity.
  assert (He : existsb armsJumpCheck Sample.ticks = false) by reflexivity.
  destruct (proj1 (jump_check_one_shot 1) _ _ _ _ Ha He E) as (_ & Hle & _).
  repeat split; try assumption.
  assert (E' := E). vm_compute in E'. injection E' as <-. reflexivity.
Defined.

(** ** C2: the paused time of reachable states *)

Lemma noPublish_quiet (e : Effect) :
  isSeekJump e = false -> isPublish e = false -> noPublish e = true.
Proof. intros _ H. unfold noPublish. rewrite H. reflexivity. Qed.

Lemma noPublish_not_in (tr : list Effect) (p : Payload) :
  forallb noPublish tr = true -> ~ In (Publish p) tr.
Proof.
  intros H Hin. rewrite forallb_forall in H. specialize (H _ Hin). discriminate H.
Qed.

Lemma in_added (l l' tr : list Effect) (e : Effect) :
  l' = l ++ tr -> In e (skipn (List.length l) l') -> In e tr.
Proof.
  intros -> Hin. rewrite skipn_app, skipn_all, Nat.sub_diag in Hin. exact Hin.
Qed.









(** * Further properties of the adapter and the view *)

(** ** [Video2DView.pause] and [Video2DView.play] *)

(** X1: [pause(t)] clears [isPlaying] and [isBlocked], pauses the element and
    keeps the duration; the element is moved, to the guarded wrapped time,
    only when [t] is defined.  The call returns whenever the fuel suffices. *)
Theorem pause_effect (fuel : nat) (v : Video2DView) (t : option Q) :
  (forall v', pause fuel v t = Some v' ->
     isPlaying v' = false /\ isBlocked v' = false /\
     duration v' = duration v /\ paused (video v') = true /\
     muted (video v') = muted (video v) /\
     match t with
     | Some x => wrappedTime fuel (duration v) x true = Some (currentTime (video v'))
     | None => currentTime (video v') = currentTime (video v)
     end) /\
  ((forall x, t = Some x -> fuelFor (duration v) x fuel) ->
   exists v', pause fuel v t = Some v').
Proof.
  split.
  - intros v' H. unfold pause in H.
    destruct (setStatic_effect fuel _ v' t H) as (H1 & H2 & H3 & H4 & _ & H6 & H7).
    repeat split; assumption.
  - intro Hf. unfold pause.
    apply (setStatic_total fuel (set_isBlocked false (set_isPlaying false v)) t).
    exact Hf.
Qed.

Lemma pause_effect_witness :
  exists v', pause 3 (Sample.playingAdapter 60 5) (Some 130) = Some v' /\
    isPlaying v' = false /\ isBlocked v' = false /\ paused (video v') = true /\
    currentTime (video v') == 10.
Proof.
  destruct (pause_effect 3 (Sample.playingAdapter 60 5) (Some 130)) as [Hp Ht].
  destruct Ht as [v' Hv'].
  - intros x Hx. injection Hx as <-. simpl. split; [discriminate|vm_compute; lia].
  - exists v'. split; [exact Hv'|].
    destruct (Hp v' Hv') as (H1 & H2 & _ & H4 & _ & H7).
    repeat split; try assumption.
    remember (currentTime (video v')) as ct eqn:Ect. clear Ect.
    vm_compute in H7. injection H7 as <-. reflexivity.
Defined.

(** X2: [play(t)] seeks to the guarded wrapped time and sets [isPlaying] before
    the browser answers.  When the answer comes straight away, [play] reports
    whether the browser let it play, and [isBlocked] is the opposite.  When a
    [pause] came in between, a refused play is not counted as blocked and
    [play] reports success. *)
Theorem play_outcome (fuel : nat) (v : Video2DView) (t : Q) :
  fuelFor (duration v) t fuel ->
  exists v1,
    play_begin fuel v t = Some v1 /\
    isPlaying v1 = true /\ isBlocked v1 = isBlocked v /\
    wrappedTime fuel (duration v) t true = Some (currentTime (video v1)) /\
    (forall resolved : bool,
       snd (play_settle v1 resolved) = resolved /\
       isBlocked (fst (play_settle v1 resolved)) = negb resolved /\
       isPlaying (fst (play_settle v1 resolved)) = true) /\
    (forall (t' : option Q) (v2 : Video2DView),
       pause fuel v1 t' = Some v2 ->
       snd (play_settle v2 false) = true /\
       isBlocked (fst (play_settle v2 false)) = false /\
       isPlaying (fst (play_settle v2 false)) = false).
Proof.
  intro Hf. unfold play_begin.
  destruct (wrappedTime_total (duration v) t true fuel Hf) as [r Hr].
  rewrite Hr. eexists. split; [reflexivity|]. cbn.
  repeat split; try reflexivity.
  - destruct resolved; reflexivity.
  - destruct resolved; reflexivity.
  - destruct resolved; reflexivity.
  - unfold pause in H. destruct (setStatic_effect fuel _ v2 t' H) as (H1 & _).
    unfold play_settle. cbn in *. rewrite H1. reflexivity.
  - unfold pause in H. destruct (setStatic_effect fuel _ v2 t' H) as (H1 & _).
    unfold play_settle. cbn in *. rewrite H1. reflexivity.
  - unfold pause in H. destruct (setStatic_effect fuel _ v2 t' H) as (H1 & _).
    unfold play_settle. cbn in *. exact H1.
Qed.

Lemma play_outcome_witness :
  fuelFor (duration (Sample.adapter 60 0)) 70 2 /\
  exists v1,
    play_begin 2 (Sample.adapter 60 0) 70 = Some v1 /\
    isPlaying v1 = true /\
    snd (play_settle v1 false) = false /\
    isBlocked (fst (play_settle v1 false)) = true.
Proof.
  assert (Hf : fuelFor (duration (Sample.adapter 60 0)) 70 2).
  { simpl. split; [discriminate|vm_compute; lia]. }
  split; [exact Hf|].
  destruct (play_outcome 2 (Sample.adapter 60 0) 70 Hf)
    as (v1 & Hb & Hp & _ & _ & Hs & _).
  exists v1. destruct (Hs false) as (H1 & H2 & _).
  repeat split; assumption.
Defined.

(** ** Local actions: clicks and scrubs *)

Section LocalActions.

Variable fuel : nat.
Variable now : Q.

Lemma applyPlayState_applied (v : SyncedVideoView) (vv vv1 : Video2DView)
    (st : PlayState.t) :
  videoView v = Some vv -> waitingForSync v = false ->
  latestPlayState v = Some st ->
  adapterApply fuel now (playbackBoost v) st vv = Some vv1 ->
  applyPlayState fuel now v = reveal v (applied now st vv1 v).
Proof.
  intros Hvv Hw Hst Ha. unfold adapterApply in Ha.
  destruct (PlayState.isPlaying st) eqn:Hp.
  - rewrite (applyPlayState_playing fuel now v vv vv1 st Hvv Hw Hst Hp Ha).
    unfold applied, applyEffects. rewrite Hp. destruct v; reflexivity.
  - rewrite (applyPlayState_paused fuel now v vv vv1 st Hvv Hw Hst Hp Ha).
    unfold applied, applyEffects. rewrite Hp. destruct v; reflexivity.
Qed.

Lemma adapterApply_total (boost : Z) (st : PlayState.t) (vv : Video2DView) :
  fuelFor (duration vv) (seekTarget now st) fuel ->
  exists vv1,
    adapterApply fuel now boost st vv = Some vv1 /\
    duration vv1 = duration vv /\ muted (video vv1) = muted (video vv) /\
    isPlaying vv1 = PlayState.isPlaying st /\
    isBlocked vv1 = (if PlayState.isPlaying st then isBlocked vv else false).
Proof.
  intro Hf. unfold adapterApply.
  destruct (PlayState.isPlaying st) eqn:Hp.
  - destruct (play_begin_total fuel
                (set_video (set_playbackRate (1 + inject_Z boost * 0.01) (video vv)) vv)
                (seekTarget now st) Hf) as [vv1 H1].
    exists vv1. split; [exact H1|]. unfold play_begin in H1.
    destruct (wrappedTime fuel _ _ true); [|discriminate].
    injection H1 as <-. repeat split.
  - unfold seekTarget in Hf. rewrite Hp in Hf.
    destruct (pause_total fuel vv (Some (PlayState.pausedTime st))) as [vv1 H1].
    { intros x Hx. injection Hx as <-. exact Hf. }
    exists vv1. split; [exact H1|]. unfold pause in H1.
    destruct (setStatic_effect fuel _ vv1 _ H1) as (E1 & E2 & E3 & _ & _ & E6 & _).
    repeat split; assumption.
Qed.

End LocalActions.




(** X4: A click on a playing, loaded video that is neither stepping nor muted
    pauses it: the adapter is paused at once where it is, the view stores and
    publishes (once) the state "paused at the element's time" with a [null]
    start offset, and unless it waits for sync the adapter is then paused at
    that time; afterwards the adapter is neither playing nor blocked. *)
Theorem click_pauses_playback (fuel : nat) (now : Q) (evt : PointerEvent)
    (v : SyncedVideoView) (vv : Video2DView) (latest : PlayState.t) :
  videoView v = Some vv -> isStepping v = false -> muted (video vv) = false ->
  latestPlayState v = Some latest -> PlayState.isPlaying latest = true ->
  let ct := currentTime (video vv) in
  let state := PlayState.mk false None ct in
  fuelFor (duration vv) ct fuel ->
  exists v' spec vv',
    handleUserClick fuel now evt v = Some (Normal tt, v') /\
    latestPlayState v' = Some state /\
    publishes (newEffects v v') = [Publish (mkPayload state (Some spec))] /\
    ActionSpec.viewId spec = viewId v /\ ActionSpec.type spec = "video"%string /\
    adapterCommands (newEffects v v')
      = AdapterPause None ::
        (if waitingForSync v then [] else [AdapterPause (Some ct)]) /\
    videoView v' = Some vv' /\
    isPlaying vv' = false /\ isBlocked vv' = false /\ paused (video vv') = true.
Proof.
  intros Hvv Hstep Hmuted Hlatest Hp ct state Hf.
  pose (vvp := set_video (set_paused true (video vv))
                 (set_isBlocked false (set_isPlaying false vv))).
  destruct (adapterApply_total fuel now (playbackBoost v) state vvp)
    as (vv1 & Ha & _ & _ & Hp1 & Hb1); [exact Hf|].
  assert (Hpaused : paused (video vv1) = true).
  { assert (Ha' := Ha). unfold adapterApply in Ha'.
    change (PlayState.isPlaying state) with false in Ha'. cbv iota in Ha'.
    unfold pause in Ha'. apply setStatic_effect in Ha'. apply Ha'. }
  assert (Happ := fun w H1 H2 H3 H4 =>
                    applyPlayState_applied fuel now w vvp vv1 state H1 H2 H3 H4).
  destruct v as [viewId0 dom0 vvo lo spec0 wait0 step0 boost0 lsc0 ltc0 lra0
                   jump0 hand0 load0 trace0].
  cbn in Hvv, Hstep, Hlatest, Ha. subst vvo lo step0.
  unfold handleUserClick. run_handler. rewrite Hmuted, Hp. run_handler.
  unfold pause at 1, setStatic at 1. run_handler.
  unfold playStateChanged. run_handler. unfold PlayState.same. rewrite Hp.
  run_handler.
  destruct wait0.
  - rewrite applyPlayState_waiting by reflexivity. run_handler.
    eexists _, _, _. split; [reflexivity|]. cbn.
    unfold newEffects, publishes. run_handler.
    rewrite <- app_assoc, skipn_app, skipn_all, Nat.sub_diag. cbn.
    repeat split.
  - erewrite Happ; [|reflexivity|reflexivity|reflexivity|exact Ha].
    unfold reveal. run_handler.
    eexists _, _, _. split; [reflexivity|]. cbn.
    unfold newEffects, publishes. run_handler.
    repeat rewrite <- app_assoc. rewrite skipn_app, skipn_all, Nat.sub_diag. cbn.
    repeat split; assumption.
Qed.

Lemma click_pauses_playback_witness :
  exists v' spec,
    handleUserClick 1 20000 Sample2.click (Sample.playingView 12 0 false)
      = Some (Normal tt, v') /\
    publishes (newEffects (Sample.playingView 12 0 false) v')
      = [Publish (mkPayload (PlayState.mk false None 12) (Some spec))] /\
    adapterCommands (newEffects (Sample.playingView 12 0 false) v')
      = [AdapterPause None; AdapterPause (Some 12)].
Proof.
  destruct (click_pauses_playback 1 20000 Sample2.click (Sample.playingView 12 0 false)
              (Sample.playingAdapter 60 12) (Sample.playingFrom 0))
    as (v' & spec & vv' & Hc & _ & Hp & _ & _ & Ha & _); try reflexivity.
  - split; [discriminate|vm_compute; lia].
  - exists v', spec. split; [exact Hc|]. split; [exact Hp|exact Ha].
Defined.

(** As [only_publish], keeping what the local [playStateChanged] stored. *)
Ltac stored_publish H Hin Hpc :=
  match type of H with
  | context [playStateChanged ?f ?n ?q ?s] =>
      let E := fresh "E" in
      let tr := fresh "tr" in
      let Ht := fresh "Ht" in
      let Hok := fresh "Hok" in
      let l := fresh "l" in
      let Hl := fresh "Hl" in
      let Hs := fresh "Hs" in
      destruct (playStateChanged f n q s) as [[[[]|?] ?]|] eqn:E in H;
      [ | |discriminate H];
      destruct (Hpc _ _ _ _ E) as (tr & Ht & Hok & _); cbn in Ht;
      destruct (playStateChanged_stores _ _ _ _ _ _ E) as (l & Hl & Hs);
      injection H as _ <-; cbn in Hin; rewrite Ht in Hin;
      repeat rewrite <- app_assoc in Hin;
      apply (in_added _ _ _ _ eq_refl) in Hin;
      repeat rewrite in_app_iff in Hin; cbn in Hin;
      repeat match goal with
             | K : _ \/ _ |- _ => destruct K as [K|K]
             | K : False |- _ => destruct K
             | K : In (Publish _) tr |- _ =>
                 exfalso; exact (noPublish_not_in tr _ Hok K)
             | K : Publish _ = Publish _ |- _ => injection K as <-
             | K : _ = Publish _ |- _ => discriminate K
             end;
      try (exists l; split; [exact Hl|exact Hs])
  end.

(** Whatever a click publishes is the state the view has stored. *)
Lemma handleUserClick_stores_published (fuel : nat) (now : Q) (evt : PointerEvent)
    (v v' : SyncedVideoView) (c : completion unit) (p : Payload) :
  handleUserClick fuel now evt v = Some (c, v') ->
  In (Publish p) (newEffects v v') ->
  exists l, latestPlayState v' = Some l /\ PlayState.same (data p) l = true.
Proof.
  intros H Hin. unfold handleUserClick in H.
  assert (Hap := applyPlayState_framed noPublish noPublish_quiet fuel now).
  assert (Hpc := playStateChanged_framed noPublish noPublish_quiet fuel now).
  destruct v as [viewId0 dom0 [vv|] [latest|] spec0 wait0 [|] boost0 lsc0 ltc0 lra0
                   jump0 hand0 load0 trace0];
    run_handler;
    try (injection H as _ <-; exfalso;
         refine (in_added _ _ [] _ _ Hin); cbn; symmetry; apply app_nil_r).
  - destruct (Hap _ _ _ H) as (tr & Ht & Hok & _). cbn in Ht.
    rewrite <- app_assoc in Ht.
    apply (in_added _ _ _ _ Ht) in Hin. cbn in Hin.
    destruct Hin as [Hin|Hin]; [discriminate Hin|].
    exfalso. exact (noPublish_not_in tr p Hok Hin).
  - destruct (muted (video vv)); run_handler.
    + injection H as _ <-. exfalso. cbn in Hin. rewrite <- app_assoc in Hin.
      apply (in_added _ _ _ _ eq_refl) in Hin. cbn in Hin.
      destruct Hin as [Hin|[Hin|[]]]; discriminate Hin.
    + destruct (PlayState.isPlaying latest); unfold pause, setStatic in H;
        run_handler; stored_publish H Hin Hpc.
  - destruct (Hap _ _ _ H) as (tr & Ht & Hok & _). cbn in Ht.
    rewrite <- app_assoc in Ht.
    apply (in_added _ _ _ _ Ht) in Hin. cbn in Hin.
    destruct Hin as [Hin|Hin]; [discriminate Hin|].
    exfalso. exact (noPublish_not_in tr p Hok Hin).
  - destruct (muted (video vv)); run_handler.
    + injection H as _ <-. exfalso. cbn in Hin. rewrite <- app_assoc in Hin.
      apply (in_added _ _ _ _ eq_refl) in Hin. cbn in Hin.
      destruct Hin as [Hin|[Hin|[]]]; discriminate Hin.
    + injection H as _ <-. exfalso.
      refine (in_added _ _ [] _ _ Hin). cbn. symmetry. apply app_nil_r.
Qed.

(** Whatever a scrub publishes is the state the view has stored. *)
Lemma handleTimebar_stores_published (fuel : nat) (now : Q) (proportion : Q)
    (v v' : SyncedVideoView) (c : completion unit) (p : Payload) :
  handleTimebar fuel now proportion v = Some (c, v') ->
  In (Publish p) (newEffects v v') ->
  exists l, latestPlayState v' = Some l /\ PlayState.same (data p) l = true.
Proof.
  intros H Hin. unfold handleTimebar in H.
  assert (Hpc := playStateChanged_framed noPublish noPublish_quiet fuel now).
  destruct v as [viewId0 dom0 [vv|] latest0 spec0 wait0 step0 boost0 lsc0 ltc0 lra0
                   jump0 hand0 load0 trace0];
    run_handler;
    try (injection H as _ <-; exfalso;
         refine (in_added _ _ [] _ _ Hin); cbn; symmetry; apply app_nil_r).
  destruct (duration vv) as [d|] eqn:Ed; run_handler.
  - stored_publish H Hin Hpc.
  - injection H as _ <-. exfalso.
    refine (in_added _ _ [] _ _ Hin). cbn. symmetry. apply app_nil_r.
Qed.

(** X5: The echo of a local action is ignored by its originator: a payload that
    a click or a scrub has published, delivered back to the same view as
    ['playStateChanged'], only records the payload's action spec; nothing is
    applied again. *)
Theorem local_echo_ignored (fuel : nat) (now now' : Q) (v v' : SyncedVideoView)
    (c : completion unit) (p : Payload) :
  In (Publish p) (newEffects v v') ->
  (exists evt, handleUserClick fuel now evt v = Some (c, v')) \/
  (exists proportion, handleTimebar fuel now proportion v = Some (c, v')) ->
  playStateChanged fuel now' p v'
    = Some (Normal tt, set_latestActionSpec (actionSpec p) v').
Proof.
  intros Hin [[evt H]|[proportion H]].
  - destruct (handleUserClick_stores_published fuel now evt v v' c p H Hin)
      as (l & Hl & Hs).
    exact (playStateChanged_ignores fuel now' p v' l Hl Hs).
  - destruct (handleTimebar_stores_published fuel now proportion v v' c p H Hin)
      as (l & Hl & Hs).
    exact (playStateChanged_ignores fuel now' p v' l Hl Hs).
Qed.

(** The click of [click_starts_playback_witness], echoed 50 ms later. *)
Lemma local_echo_ignored_witness :
  exists c v' p,
    handleUserClick 1 20000 Sample2.click (Sample2.pausedView 5) = Some (c, v') /\
    In (Publish p) (newEffects (Sample2.pausedView 5) v') /\
    playStateChanged 1 20050 p v'
      = Some (Normal tt, set_latestActionSpec (actionSpec p) v').
Proof.
  destruct (handleUserClick 1 20000 Sample2.click (Sample2.pausedView 5))
    as [[c v']|] eqn:E; [|vm_compute in E; discriminate E].
  assert (E2 := E). vm_compute in E2. injection E2 as <- <-.
  match type of E with
  | _ = Some (_, ?w) =>
      assert (Hin : exists p, In (Publish p) (newEffects (Sample2.pausedView 5) w))
        by (eexists; vm_compute; repeat (first [left; reflexivity|right]))
  end.
  destruct Hin as [p Hin].
  eexists _, _, p. split; [exact E|]. split; [exact Hin|].
  apply (local_echo_ignored 1 20000 20050 (Sample2.pausedView 5) _ (Normal tt) p Hin).
  left. exists Sample2.click. exact E.
Defined.

(** ** Blocked playback: the fallback chain *)

(** X6: A play that the browser blocks on an unmuted element is retried muted:
    the adapter is marked blocked, the element is muted, and the stored state
    is applied again, so the adapter receives the mute followed by the
    commands of that state.  The view does not enter stepping here. *)
Theorem blocked_play_retries_muted (fuel : nat) (now : Q) (v : SyncedVideoView)
    (vv : Video2DView) (st : PlayState.t) :
  videoView v = Some vv -> isPlaying vv = true -> muted (video vv) = false ->
  waitingForSync v = false -> latestPlayState v = Some st ->
  fuelFor (duration vv) (seekTarget now st) fuel ->
  exists c v' vv1,
    playSettled fuel now false v = Some (c, v') /\
    adapterCommands (newEffects v v')
      = SetMuted true :: commandsFor now (playbackBoost v) st /\
    videoView v' = Some vv1 /\ muted (video vv1) = true /\
    isStepping v' = isStepping v /\ latestPlayState v' = latestPlayState v.
Proof.
  intros Hvv Hp Hm Hw Hst Hf.
  pose (vvm := set_video (set_muted true (video vv)) (set_isBlocked true vv)).
  destruct (adapterApply_total fuel now (playbackBoost v) st vvm Hf)
    as (vv1 & Ha & _ & Hm1 & _).
  assert (Happ := fun w H1 H2 H3 H4 =>
                    applyPlayState_applied fuel now w vvm vv1 st H1 H2 H3 H4).
  destruct v as [viewId0 dom0 vvo lo spec0 wait0 step0 boost0 lsc0 ltc0 lra0
                   jump0 hand0 load0 trace0].
  cbn in Hvv, Hw, Hst, Ha. subst vvo lo wait0.
  unfold playSettled, play_settle. run_handler. rewrite Hp, Hm. run_handler.
  erewrite Happ; [|reflexivity|reflexivity|reflexivity|exact Ha].
  match goal with
  | |- context [reveal ?a ?b] =>
      destruct (reveal_cosmetic a b) as (c & v' & Hr & b0 & tr & Hv' & Hcos)
  end.
  exists c, v', vv1. rewrite Hr. split; [reflexivity|].
  subst v'. unfold applied, applyEffects, commandsFor.
  destruct (PlayState.isPlaying st); cbn; unfold newEffects; cbn;
    repeat rewrite <- app_assoc; rewrite skipn_app, skipn_all, Nat.sub_diag; cbn;
    fold (adapterCommands tr); rewrite (cosmetic_no_commands tr Hcos);
    repeat split; exact Hm1.
Qed.

Lemma blocked_play_retries_muted_witness :
  exists c v',
    playSettled 1 250 false (Sample.playingView 0.1 0 false) = Some (c, v') /\
    adapterCommands (newEffects (Sample.playingView 0.1 0 false) v')
      = SetMuted true :: commandsFor 250 0 (Sample.playingFrom 0).
Proof.
  destruct (blocked_play_retries_muted 1 250 (Sample.playingView 0.1 0 false)
              (Sample.playingAdapter 60 0.1) (Sample.playingFrom 0))
    as (c & v' & vv1 & Hs & Hc & _); try reflexivity.
  - split; [discriminate|vm_compute; lia].
  - exists c, v'. split; [exact Hs|exact Hc].
Defined.

(** X7: A play that the browser blocks although the element is muted puts the
    view into stepping mode: the adapter stays playing and blocked, a still
    frame is set at the calculated video time and the next step is scheduled
    250 ms later. *)
Theorem blocked_muted_play_enters_stepping (fuel : nat) (now : Q)
    (v : SyncedVideoView) (vv : Video2DView) (st : PlayState.t) :
  videoView v = Some vv -> isPlaying vv = true -> muted (video vv) = true ->
  latestPlayState v = Some st ->
  let t := (now - JS.or0 (PlayState.startOffset st)) / 1000 in
  fuelFor (duration vv) t fuel ->
  exists v' vv1,
    playSettled fuel now false v = Some (Normal tt, v') /\
    isStepping v' = true /\
    videoView v' = Some vv1 /\ isBlocked vv1 = true /\ isPlaying vv1 = true /\
    paused (video vv1) = true /\
    newEffects v v' = [IconVisible "enableSound" true;
                       AdapterSetStatic (Some t);
                       Future 250 stepWhileBlockedMsg].
Proof.
  intros Hvv Hp Hm Hst t Hf.
  destruct (setStatic_total fuel (set_isBlocked true vv) (Some t)) as [vv1 Hs].
  { intros x Hx. injection Hx as <-. exact Hf. }
  destruct (setStatic_effect fuel _ vv1 _ Hs) as (E1 & E2 & _ & E4 & _).
  destruct v as [viewId0 dom0 vvo lo spec0 wait0 step0 boost0 lsc0 ltc0 lra0
                   jump0 hand0 load0 trace0].
  cbn in Hvv, Hst. subst vvo lo.
  unfold playSettled, play_settle. run_handler. rewrite Hp, Hm. run_handler.
  unfold stepWhileBlocked, calculateVideoTime. run_handler.
  fold t. rewrite Hs. run_handler.
  eexists _, vv1. split; [reflexivity|]. cbn.
  unfold newEffects. cbn.
  repeat rewrite <- app_assoc. rewrite skipn_app, skipn_all, Nat.sub_diag. cbn.
  cbn in E1, E2. rewrite Hp in E1. repeat split; assumption.
Qed.

Lemma blocked_muted_play_enters_stepping_witness :
  exists v',
    playSettled 1 250 false
      (set_videoView
         (Some (set_video (set_muted true (Sample.element 0.1))
                          (Sample.playingAdapter 60 0.1)))
         (Sample.playingView 0.1 0 false))
      = Some (Normal tt, v') /\
    isStepping v' = true.
Proof.
  destruct (blocked_muted_play_enters_stepping 1 250
              (set_videoView
                 (Some (set_video (set_muted true (Sample.element 0.1))
                                  (Sample.playingAdapter 60 0.1)))
                 (Sample.playingView 0.1 0 false))
              (set_video (set_muted true (Sample.element 0.1))
                         (Sample.playingAdapter 60 0.1))
              (Sample.playingFrom 0))
    as (v' & vv1 & Hs & Hstep & _); try reflexivity.
  - split; [discriminate|vm_compute; lia].
  - exists v'. split; [exact Hs|exact Hstep].
Defined.

(** X8: A step of the stepping mode, while the adapter is still blocked, shows
    the frame of the calculated video time and schedules the next step
    250 ms later; the view stays in stepping mode and the adapter stays
    blocked, so that the steps go on.  A view that is not stepping ignores
    the step. *)
Theorem stepping_keeps_up (fuel : nat) (now : Q) (v : SyncedVideoView) :
  (isStepping v = false -> stepWhileBlocked fuel now v = Some (Normal tt, v)) /\
  (forall (vv : Video2DView) (st : PlayState.t),
     isStepping v = true -> videoView v = Some vv -> isBlocked vv = true ->
     latestPlayState v = Some st ->
     let t := (now - JS.or0 (PlayState.startOffset st)) / 1000 in
     fuelFor (duration vv) t fuel ->
     exists v' vv1,
       stepWhileBlocked fuel now v = Some (Normal tt, v') /\
       isStepping v' = true /\
       videoView v' = Some vv1 /\
       isBlocked vv1 = true /\ isPlaying vv1 = isPlaying vv /\
       wrappedTime fuel (duration vv) t true = Some (currentTime (video vv1)) /\
       newEffects v v' = [AdapterSetStatic (Some t);
                          Future 250 stepWhileBlockedMsg]).
Proof.
  split.
  - intro Hs. unfold stepWhileBlocked. run_handler. rewrite Hs. reflexivity.
  - intros vv st Hs Hvv Hb Hst t Hf.
    destruct (setStatic_total fuel vv (Some t)) as [vv1 Hset].
    { intros x Hx. injection Hx as <-. exact Hf. }
    destruct (setStatic_effect fuel _ vv1 _ Hset) as (E1 & E2 & _ & _ & _ & _ & E7).
    destruct v as [viewId0 dom0 vvo lo spec0 wait0 step0 boost0 lsc0 ltc0 lra0
                     jump0 hand0 load0 trace0].
    cbn in Hs, Hvv, Hst. subst vvo lo step0.
    unfold stepWhileBlocked, calculateVideoTime. run_handler. rewrite Hb.
    run_handler. fold t. rewrite Hset. run_handler.
    eexists _, vv1. split; [reflexivity|]. cbn. unfold newEffects. cbn.
    repeat rewrite <- app_assoc. rewrite skipn_app, skipn_all, Nat.sub_diag. cbn.
    rewrite Hb in E2. repeat split; assumption.
Qed.

Lemma stepping_keeps_up_witness :
  exists v',
    stepWhileBlocked 1 500
      (set_isStepping true
         (set_videoView (Some (set_isBlocked true (Sample.playingAdapter 60 0.1)))
            (Sample.playingView 0.1 0 false)))
      = Some (Normal tt, v') /\
    isStepping v' = true /\
    adapterCommands (trace v') = [AdapterSetStatic (Some ((500 - 0) / 1000))].
Proof.
  destruct (proj2 (stepping_keeps_up 1 500
              (set_isStepping true
                 (set_videoView (Some (set_isBlocked true (Sample.playingAdapter 60 0.1)))
                    (Sample.playingView 0.1 0 false))))
              (set_isBlocked true (Sample.playingAdapter 60 0.1))
              (Sample.playingFrom 0))
    as (v' & vv1 & Hs & Hstep & _ & _ & _ & _ & He); try reflexivity.
  - split; [discriminate|vm_compute; lia].
  - exists v'. split; [exact Hs|]. split; [exact Hstep|].
    unfold newEffects in He. cbn in He. rewrite He. reflexivity.
Defined.

(** X9: Applying a paused state ends the stepping mode at the next step: the
    pause clears the adapter's [isBlocked], so the step that follows leaves
    stepping mode without touching the adapter. *)
Theorem pause_ends_stepping (fuel : nat) (now now' : Q) (v : SyncedVideoView)
    (vv : Video2DView) (st : PlayState.t) :
  isStepping v = true -> videoView v = Some vv -> waitingForSync v = false ->
  latestPlayState v = Some st -> PlayState.isPlaying st = false ->
  fuelFor (duration vv) (PlayState.pausedTime st) fuel ->
  exists c v1,
    applyPlayState fuel now v = Some (c, v1) /\
    isStepping v1 = true /\
    stepWhileBlocked fuel now' v1 = Some (Normal tt, set_isStepping false v1).
Proof.
  intros Hs Hvv Hw Hst Hp Hf.
  destruct (adapterApply_total fuel now (playbackBoost v) st vv)
    as (vv1 & Ha & _ & _ & _ & Hb).
  { unfold seekTarget. rewrite Hp. exact Hf. }
  rewrite Hp in Hb.
  rewrite (applyPlayState_applied fuel now v vv vv1 st Hvv Hw Hst Ha).
  destruct (reveal_cosmetic v (applied now st vv1 v))
    as (c & v1 & Hr & b0 & tr & Hv1 & _).
  exists c, v1. split; [exact Hr|]. subst v1.
  unfold applied. rewrite Hp.
  destruct v as [viewId0 dom0 vvo lo spec0 wait0 step0 boost0 lsc0 ltc0 lra0
                   jump0 hand0 load0 trace0].
  cbn in Hs. subst step0. split; [reflexivity|].
  unfold stepWhileBlocked. run_handler. rewrite Hb. reflexivity.
Qed.

Lemma pause_ends_stepping_witness :
  exists c v1,
    applyPlayState 1 0 (set_isStepping true Sample.view) = Some (c, v1) /\
    stepWhileBlocked 1 250 v1 = Some (Normal tt, set_isStepping false v1).
Proof.
  destruct (pause_ends_stepping 1 0 250 (set_isStepping true Sample.view)
              (Sample.adapter 60 0) (Sample.pausedAt 0))
    as (c & v1 & Ha & _ & Hs); try reflexivity.
  - split; [discriminate|vm_compute; lia].
  - exists c, v1. split; [exact Ha|exact Hs].
Defined.

(** X10: A click while the view is stepping leaves the shared state alone: it
    unmutes the element, leaves stepping mode and applies the stored state
    again (which retries a real play); nothing is published. *)
Theorem click_exits_stepping (fuel : nat) (now : Q) (evt : PointerEvent)
    (v : SyncedVideoView) (vv : Video2DView) (st : PlayState.t) :
  isStepping v = true -> videoView v = Some vv -> waitingForSync v = false ->
  latestPlayState v = Some st ->
  fuelFor (duration vv) (seekTarget now st) fuel ->
  exists c v' vv1,
    handleUserClick fuel now evt v = Some (c, v') /\
    isStepping v' = false /\
    videoView v' = Some vv1 /\ muted (video vv1) = false /\
    latestPlayState v' = latestPlayState v /\
    publishes (newEffects v v') = [] /\
    adapterCommands (newEffects v v')
      = SetMuted false :: commandsFor now (playbackBoost v) st.
Proof.
  intros Hs Hvv Hw Hst Hf.
  pose (vvu := set_video (set_muted false (video vv)) vv).
  destruct (adapterApply_total fuel now (playbackBoost v) st vvu Hf)
    as (vv1 & Ha & _ & Hm1 & _).
  assert (Happ := fun w H1 H2 H3 H4 =>
                    applyPlayState_applied fuel now w vvu vv1 st H1 H2 H3 H4).
  destruct v as [viewId0 dom0 vvo lo spec0 wait0 step0 boost0 lsc0 ltc0 lra0
                   jump0 hand0 load0 trace0].
  cbn in Hs, Hvv, Hw, Hst, Ha. subst vvo lo wait0 step0.
  unfold handleUserClick. run_handler.
  erewrite Happ; [|reflexivity|reflexivity|reflexivity|exact Ha].
  match goal with
  | |- context [reveal ?a ?b] =>
      destruct (reveal_cosmetic a b) as (c & v' & Hr & b0 & tr & Hv' & Hcos)
  end.
  exists c, v', vv1. rewrite Hr. split; [reflexivity|].
  assert (Hnp : publishes tr = []).
  { unfold publishes. clear - Hcos. induction tr as [|e tr IH]; [reflexivity|].
    simpl in Hcos. apply andb_true_iff in Hcos. destruct Hcos as [He Ht].
    destruct e; simpl in *; try discriminate; apply IH; exact Ht. }
  subst v'. unfold applied, applyEffects, commandsFor.
  destruct (PlayState.isPlaying st); cbn; unfold newEffects; cbn;
    repeat rewrite <- app_assoc; rewrite skipn_app, skipn_all, Nat.sub_diag; cbn;
    fold (adapterCommands tr); fold (publishes tr);
    rewrite (cosmetic_no_commands tr Hcos), Hnp;
    repeat split; exact Hm1.
Qed.

Lemma click_exits_stepping_witness :
  exists c v',
    handleUserClick 1 500 Sample2.click
      (set_isStepping true (Sample.playingView 0.1 0 false)) = Some (c, v') /\
    isStepping v' = false /\
    publishes (newEffects (set_isStepping true (Sample.playingView 0.1 0 false)) v')
      = [].
Proof.
  destruct (click_exits_stepping 1 500 Sample2.click
              (set_isStepping true (Sample.playingView 0.1 0 false))
              (Sample.playingAdapter 60 0.1) (Sample.playingFrom 0))
    as (c & v' & vv1 & Hc & Hs & _ & _ & _ & Hp & _); try reflexivity.
  - split; [discriminate|vm_compute; lia].
  - exists c, v'. split; [exact Hc|]. split; [exact Hs|exact Hp].
Defined.

(** X11: A click on a muted element (of a view that is not stepping) only
    removes the mute: the stored state stays, nothing is published, and the
    only command is the unmute. *)
Theorem click_unmutes_only (fuel : nat) (now : Q) (evt : PointerEvent)
    (v : SyncedVideoView) (vv : Video2DView) :
  isStepping v = false -> videoView v = Some vv -> muted (video vv) = true ->
  exists v',
    handleUserClick fuel now evt v = Some (Normal tt, v') /\
    videoView v' = Some (set_video (set_muted false (video vv)) vv) /\
    latestPlayState v' = latestPlayState v /\
    newEffects v v' = [SetMuted false; IconVisible "enableSound" false].
Proof.
  intros Hs Hvv Hm.
  destruct v as [viewId0 dom0 vvo lo spec0 wait0 step0 boost0 lsc0 ltc0 lra0
                   jump0 hand0 load0 trace0].
  cbn in Hs, Hvv. subst vvo step0.
  unfold handleUserClick. run_handler. rewrite Hm. run_handler.
  eexists. split; [reflexivity|]. cbn. unfold newEffects. cbn.
  repeat rewrite <- app_assoc. rewrite skipn_app, skipn_all, Nat.sub_diag.
  repeat split.
Qed.

Lemma click_unmutes_only_witness :
  exists v',
    handleUserClick 1 500 Sample2.click
      (set_videoView
         (Some (set_video (set_muted true (Sample.element 0.1))
                          (Sample.playingAdapter 60 0.1)))
         (Sample.playingView 0.1 0 false))
      = Some (Normal tt, v') /\
    adapterCommands (trace v') = [SetMuted false].
Proof.
  destruct (click_unmutes_only 1 500 Sample2.click
              (set_videoView
                 (Some (set_video (set_muted true (Sample.element 0.1))
                                  (Sample.playingAdapter 60 0.1)))
                 (Sample.playingView 0.1 0 false))
              (set_video (set_muted true (Sample.element 0.1))
                         (Sample.playingAdapter 60 0.1)))
    as (v' & Hc & _ & _ & He); try reflexivity.
  exists v'. split; [exact Hc|].
  unfold newEffects in He. cbn in He. rewrite He. reflexivity.
Defined.

(** ** Loading a video *)

(** [loadVideo] always returns: the old adapter, if any, is paused and
    dropped, the model's state is stored, and the load started is the only
    one the view still waits for. *)
Lemma loadVideo_result (fuel : nat) (now : Q) (isSynced : bool) (model : Model.t)
    (loadId : nat) (v : SyncedVideoView) :
  exists v' l,
    loadVideo fuel now isSynced model loadId v = Some (Normal tt, v') /\
    videoView v' = None /\ abandonLoad v' = Some loadId /\
    waitingForSync v' = negb isSynced /\
    latestActionSpec v' = None /\
    latestPlayState v' = Some l /\
    PlayState.same (Model.playState model) l = true /\
    adapterCommands (newEffects v v')
      = match videoView v with
        | Some _ => [AdapterPause None]
        | None => []
        end.
Proof.
  destruct v as [viewId0 dom0 vvo lo spec0 wait0 step0 boost0 lsc0 ltc0 lra0
                   jump0 hand0 load0 trace0].
  unfold loadVideo, disposeOfVideo.
  destruct load0, vvo as [vv|], lo as [l0|]; run_handler;
    unfold pause, setStatic, playStateChanged; run_handler;
    try destruct (PlayState.same (Model.playState model) l0) eqn:Es;
    unfold applyPlayState; run_handler;
    eexists _, _; (split; [reflexivity|]); cbn; unfold newEffects; cbn;
    repeat rewrite <- app_assoc; rewrite skipn_app, skipn_all, Nat.sub_diag; cbn;
    repeat split; first [exact Es|apply same_refl].
Qed.

(** X12: Two loads in a row: the completion of the first one is ignored, the
    completion of the second one attaches its adapter with a playback boost
    of 0 and lets the timing settle for 500 ms; a repeated completion is
    ignored as well. *)
Theorem superseded_load_ignored (fuel : nat) (now : Q) (isSynced : bool)
    (model : Model.t) (id2 : nat) (v : SyncedVideoView) :
  exists v2,
    loadVideo fuel now isSynced model id2 v = Some (Normal tt, v2) /\
    videoView v2 = None /\
    (forall (id1 : nat) (vv : Video2DView) (now' : Q),
       id1 <> id2 -> videoLoaded fuel now' id1 vv v2 = Some (Normal tt, v2)) /\
    (forall (vv : Video2DView) (now' : Q),
       (forall l, latestPlayState v2 = Some l ->
                  fuelFor (duration vv) (seekTarget now' l) fuel) ->
       exists v3 vv1,
         videoLoaded fuel now' id2 vv v2 = Some (Normal tt, v3) /\
         videoView v3 = Some vv1 /\ duration vv1 = duration vv /\
         playbackBoost v3 = 0%Z /\ lastTimingCheck v3 = Some (now' + 500) /\
         (forall (id : nat) (vv' : Video2DView) (now'' : Q),
            videoLoaded fuel now'' id vv' v3 = Some (Normal tt, v3))).
Proof.
  destruct (loadVideo_result fuel now isSynced model id2 v)
    as (v2 & l & Hl & Hvv & Hab & Hw & Hspec & Hlat & _).
  exists v2. split; [exact Hl|]. split; [exact Hvv|]. split.
  - intros id1 vv now' Hne. unfold videoLoaded. run_handler. rewrite Hab.
    replace (id2 =? id1)%nat with false; [reflexivity|].
    symmetry. apply Nat.eqb_neq. intro E. apply Hne. symmetry. exact E.
  - intros vv now' Hf. specialize (Hf l Hlat).
    destruct v2 as [viewId0 dom0 vvo lo spec0 wait0 step0 boost0 lsc0 ltc0 lra0
                      jump0 hand0 load0 trace0].
    cbn in Hvv, Hab, Hspec, Hlat. subst vvo lo spec0 load0.
    unfold videoLoaded, catchLog. run_handler. rewrite Nat.eqb_refl.
    destruct wait0.
    + rewrite applyPlayState_waiting by reflexivity. run_handler.
      eexists _, vv. split; [reflexivity|]. cbn. repeat split.
    + destruct (adapterApply_total fuel now' 0%Z l vv Hf) as (vv1 & Ha & Hd & _).
      erewrite applyPlayState_applied; [|reflexivity|reflexivity|reflexivity|exact Ha].
      unfold reveal. run_handler.
      eexists _, vv1. split; [reflexivity|]. cbn.
      unfold applied. destruct (PlayState.isPlaying l); cbn; repeat split; exact Hd.
Qed.

Lemma superseded_load_ignored_witness :
  exists v2 v3 vv1,
    loadVideo 1 0 true Sample.model 2 (set_abandonLoad (Some 1%nat) Sample.view)
      = Some (Normal tt, v2) /\
    videoLoaded 1 40 1 (Sample.adapter 10 0) v2 = Some (Normal tt, v2) /\
    videoLoaded 1 50 2 (Sample.adapter 60 0) v2 = Some (Normal tt, v3) /\
    videoView v3 = Some vv1 /\ duration vv1 = Some 60.
Proof.
  destruct (superseded_load_ignored 1 0 true Sample.model 2
              (set_abandonLoad (Some 1%nat) Sample.view))
    as (v2 & Hl & Hvv & Hstale & Hattach).
  destruct (Hattach (Sample.adapter 60 0) 50) as (v3 & vv1 & H3 & Hv3 & Hd & _).
  - intros l Hlat. assert (Hl' := Hl). vm_compute in Hl'.
    injection Hl' as <-. cbn in Hlat. injection Hlat as <-.
    split; [discriminate|vm_compute; lia].
  - exists v2, v3, vv1. split; [exact Hl|]. split; [apply Hstale; discriminate|].
    split; [exact H3|]. split; [exact Hv3|exact Hd].
Defined.

(** X13: Tearing the view down cancels a load in flight: after [detach] the
    view holds no adapter and the completion of any load is ignored. *)
Theorem detach_cancels_load (fuel : nat) (v : SyncedVideoView) :
  exists v',
    detach fuel v = Some (Normal tt, v') /\
    videoView v' = None /\ abandonLoad v' = None /\
    adapterCommands (newEffects v v')
      = match videoView v with
        | Some _ => [AdapterPause None]
        | None => []
        end /\
    (forall (now : Q) (id : nat) (vv : Video2DView),
       videoLoaded fuel now id vv v' = Some (Normal tt, v')).
Proof.
  destruct v as [viewId0 dom0 vvo lo spec0 wait0 step0 boost0 lsc0 ltc0 lra0
                   jump0 hand0 load0 trace0].
  unfold detach, disposeOfVideo.
  destruct load0, vvo as [vv|]; run_handler; unfold pause, setStatic; run_handler;
    eexists; (split; [reflexivity|]); cbn; unfold newEffects; cbn;
    repeat rewrite <- app_assoc; try rewrite skipn_app;
    rewrite skipn_all; try rewrite Nat.sub_diag; cbn; repeat split.
Qed.

(** ** The periodic tick *)

Lemma keepsStatusCheck_refl (v : SyncedVideoView) : keepsStatusCheck v v.
Proof. reflexivity. Qed.

Lemma keepsStatusCheck_trans (v1 v2 v3 : SyncedVideoView) :
  keepsStatusCheck v1 v2 -> keepsStatusCheck v2 v3 -> keepsStatusCheck v1 v3.
Proof. unfold keepsStatusCheck. intros H1 H2. rewrite H2. exact H1. Qed.

Lemma checkPlayStatus_keepsStatusCheck (fuel : nat) (now : Q) :
  preserves keepsStatusCheck (checkPlayStatus fuel now).
Proof.
  unfold checkPlayStatus, adjustPlaybar, calculateVideoTime, jumpCheck, adjustRate.
  preserves_auto keepsStatusCheck_refl keepsStatusCheck_trans
    ltac:(intros; reflexivity) fail.
Qed.

(** X14: [update] runs the status check at most once per 100 ms: an [update]
    that has run the check records its time, and an [update] no more than
    100 ms later leaves the view as it is. *)
Theorem status_check_spacing (fuel : nat) (now1 : Q) (v v1 : SyncedVideoView)
    (c : completion unit) :
  update fuel now1 v = Some (c, v1) ->
  JS.gtb (now1 - lastStatusCheck v) 100 = true ->
  lastStatusCheck v1 = now1 /\
  forall now2, now2 - now1 <= 100 -> update fuel now2 v1 = Some (Normal tt, v1).
Proof.
  intros H Hdue.
  assert (Hu : update fuel now1 v
               = checkPlayStatus fuel now1 (set_lastStatusCheck now1 v)).
  { unfold update, bind, get, modify. rewrite Hdue. reflexivity. }
  rewrite Hu in H.
  assert (Hl : lastStatusCheck v1 = now1).
  { exact (checkPlayStatus_keepsStatusCheck fuel now1 _ _ _ H). }
  split; [exact Hl|].
  intros now2 Hclose. unfold update. run_handler. rewrite Hl.
  replace (JS.gtb (now2 - now1) 100) with false; [reflexivity|].
  symmetry. apply gtb_false. exact Hclose.
Qed.

Lemma status_check_spacing_witness :
  exists c v1,
    update 1 10000 (Sample.playingView 10.2 0 false) = Some (c, v1) /\
    lastStatusCheck v1 = 10000 /\
    update 1 10100 v1 = Some (Normal tt, v1).
Proof.
  destruct (update 1 10000 (Sample.playingView 10.2 0 false)) as [[c v1]|] eqn:E;
    [|vm_compute in E; discriminate E].
  destruct (status_check_spacing 1 10000 _ v1 c E) as (Hl & Hnext); [reflexivity|].
  exists c, v1. split; [reflexivity|]. split; [exact Hl|].
  apply Hnext. lra.
Defined.

(** X15: The first status check waits: on a view fresh from its constructor at
    session time [t0], an [update] up to 600 ms later does nothing. *)
Theorem first_status_check_waits (fuel : nat) (viewId0 : string) (dom0 : Dom)
    (t0 now : Q) :
  now <= t0 + 600 ->
  update fuel now (newView viewId0 dom0 t0)
    = Some (Normal tt, newView viewId0 dom0 t0).
Proof.
  intro H. unfold update. run_handler.
  replace (JS.gtb (now - (t0 + 500)) 100) with false; [reflexivity|].
  symmetry. apply gtb_false. lra.
Qed.

Lemma first_status_check_waits_witness :
  update 1 600 (newView "me" Sample.page 0)
    = Some (Normal tt, newView "me" Sample.page 0).
Proof.
  apply first_status_check_waits. lra.
Defined.

(** X16: A measurement that straddles a loop restart is dropped: when the
    element is ahead of the expected time by half the duration or more, the
    tick records the time of the check and redraws the bar, and nothing else:
    no command, the boost and its timer stay, and an armed jump check stays
    armed. *)
Theorem wrapped_measurement_ignored (fuel : nat) (now : Q) (v : SyncedVideoView)
    (vv : Video2DView) (st : PlayState.t) (d expectedTime : Q) :
  videoView v = Some vv -> latestPlayState v = Some st ->
  duration vv = Some d -> 0 < d -> isPlaying vv = true -> isBlocked vv = false ->
  JS.geb (now - JS.or0 (lastTimingCheck v)) 500 = true ->
  wrappedTime fuel (Some d)
    ((now - JS.or0 (PlayState.startOffset st)) / 1000) false = Some expectedTime ->
  d / 2 <= currentTime (video vv) - expectedTime ->
  checkPlayStatus fuel now v
    = Some (Normal tt,
            set_lastTimingCheck (Some now)
              (set_trace (trace v ++ [DrawPlaybar (playbarPortion v)]) v)).
Proof.
  intros Hvv Hst Hd _ Hp Hb Hdue Hw Hfar.
  apply ltb_false in Hfar.
  destruct v; destruct vv; run_handler; subst.
  unfold checkPlayStatus, adjustPlaybar, calculateVideoTime, playbarPortion.
  run_handler. rewrite Hdue. run_handler. rewrite Hw. run_handler.
  rewrite Hfar. reflexivity.
Qed.

Lemma wrapped_measurement_ignored_witness :
  exists v',
    checkPlayStatus 1 10000 (Sample.playingView 50 0 true) = Some (Normal tt, v') /\
    jumpIfNeeded v' = true /\ adapterCommands (trace v') = [].
Proof.
  eexists. split.
  - apply (wrapped_measurement_ignored 1 10000 (Sample.playingView 50 0 true)
             (Sample.playingAdapter 60 50) (Sample.playingFrom 0) 60
             ((10000 - 0) / 1000)); try reflexivity.
    discriminate.
  - split; reflexivity.
Defined.

(** ** The playback boost stays in range *)

Lemma desiredBoost_range (ms : Q) : boostInRange (desiredBoost ms).
Proof.
  unfold desiredBoost, boostInRange, JS.sign.
  destruct (JS.gtb (JS.abs ms) 150), (JS.gtb (JS.abs ms) 50);
    destruct (Qnum ms); simpl; tauto.
Qed.

Lemma keepsBoostRange_refl (v : SyncedVideoView) : keepsBoostRange v v.
Proof. intro H. exact H. Qed.

Lemma keepsBoostRange_trans (v1 v2 v3 : SyncedVideoView) :
  keepsBoostRange v1 v2 -> keepsBoostRange v2 v3 -> keepsBoostRange v1 v3.
Proof. intros H1 H2 H. apply H2, H1, H. Qed.

Ltac boost_side :=
  intros; unfold keepsBoostRange; cbn;
  first [ tauto
        | intros _; apply desiredBoost_range
        | intros _; unfold boostInRange; tauto ].

Ltac boost_auto known :=
  preserves_auto keepsBoostRange_refl keepsBoostRange_trans ltac:(boost_side) known.

Section BoostRange.

Variable fuel : nat.
Variable now : Q.

Lemma applyPlayState_boost : preserves keepsBoostRange (applyPlayState fuel now).
Proof.
  unfold applyPlayState, revealAction, calculateVideoTime, useHandToPoint.
  boost_auto fail.
Qed.

Lemma playStateChanged_boost (p : Payload) :
  preserves keepsBoostRange (playStateChanged fuel now p).
Proof. unfold playStateChanged. boost_auto ltac:(apply applyPlayState_boost). Qed.

Lemma stepWhileBlocked_boost : preserves keepsBoostRange (stepWhileBlocked fuel now).
Proof. unfold stepWhileBlocked, calculateVideoTime. boost_auto fail. Qed.

Lemma checkPlayStatus_boost : preserves keepsBoostRange (checkPlayStatus fuel now).
Proof.
  unfold checkPlayStatus, adjustPlaybar, calculateVideoTime, jumpCheck, adjustRate.
  boost_auto fail.
Qed.

Lemma disposeOfVideo_boost : preserves keepsBoostRange (disposeOfVideo fuel).
Proof. unfold disposeOfVideo. boost_auto fail. Qed.

End BoostRange.

Lemma handlerOf_boost (fuel : nat) (ev : Event) :
  preserves keepsBoostRange (handlerOf fuel ev).
Proof.
  destruct ev as [now|now|t|now p|now b|now b|now evt|now pr|now m|now b mo id
                 |now id vv|now]; simpl handlerOf.
  - unfold update. boost_auto ltac:(apply checkPlayStatus_boost).
  - apply checkPlayStatus_boost.
  - intros v r v' H. destruct (videoView v) eqn:E.
    + revert H. unfold onVideoElem.
      apply (preserves_onVideoView _ keepsBoostRange_refl). boost_side.
    + injection H as _ <-. apply keepsBoostRange_refl.
  - apply playStateChanged_boost.
  - unfold handleSyncState. boost_auto ltac:(apply applyPlayState_boost).
  - unfold playSettled.
    boost_auto ltac:(first [apply applyPlayState_boost|apply stepWhileBlocked_boost]).
  - unfold handleUserClick.
    boost_auto ltac:(first [apply applyPlayState_boost|apply playStateChanged_boost]).
  - unfold handleTimebar. boost_auto ltac:(apply playStateChanged_boost).
  - destruct m; [unfold triggerJumpCheck; boost_auto fail
                |apply stepWhileBlocked_boost].
  - unfold loadVideo.
    boost_auto ltac:(first [apply disposeOfVideo_boost|apply playStateChanged_boost]).
  - unfold videoLoaded. boost_auto ltac:(apply applyPlayState_boost).
  - apply disposeOfVideo_boost.
Qed.

(** X17: Whatever happens in a session, the playback boost stays one of -3, -1,
    0, 1 and 3 percent: every event handler keeps it there. *)
Theorem playbackBoost_in_range (fuel : nat) (evs : list Event)
    (v v' : SyncedVideoView) :
  boostInRange (playbackBoost v) ->
  run fuel evs v = Some v' ->
  boostInRange (playbackBoost v').
Proof.
  revert v. induction evs as [|ev evs IH]; intros v Hb H.
  - injection H as <-. exact Hb.
  - simpl in H. unfold step in H.
    destruct (handlerOf fuel ev v) as [[r v1]|] eqn:E; [|discriminate].
    apply (IH v1); [|exact H].
    exact (handlerOf_boost fuel ev v r v1 E Hb).
Qed.

Lemma playbackBoost_in_range_witness :
  exists v',
    run 1 (FutureDue 250 triggerJumpCheckMsg :: Sample.ticks)
      (Sample.playingView 12 0 false) = Some v' /\
    playbackBoost v' = (-3)%Z /\ boostInRange (playbackBoost v').
Proof.
  destruct (run 1 (FutureDue 250 triggerJumpCheckMsg :: Sample.ticks)
              (Sample.playingView 12 0 false)) as [v'|] eqn:E;
    [|vm_compute in E; discriminate E].
  exists v'. split; [reflexivity|]. split.
  - assert (E' := E). vm_compute in E'. injection E' as <-. reflexivity.
  - apply (playbackBoost_in_range 1
             (FutureDue 250 triggerJumpCheckMsg :: Sample.ticks)
             (Sample.playingView 12 0 false) v');
      [right; right; left; reflexivity|exact E].
Defined.

(** ** The rate is left alone for 3 s after a play start *)









(** ** Play states that arrive while the video loads *)

(** Without an adapter, [playStateChanged] stores the state and the action
    spec, and does nothing else. *)
Lemma playStateChanged_unloaded (fuel : nat) (now : Q) (p : Payload)
    (v : SyncedVideoView) :
  videoView v = None ->
  exists l,
    playStateChanged fuel now p v
      = Some (Normal tt,
              set_latestPlayState (Some l) (set_latestActionSpec (actionSpec p) v)) /\
    PlayState.same (data p) l = true.
Proof.
  intro Hvv.
  destruct v as [viewId0 dom0 vvo lo spec0 wait0 step0 boost0 lsc0 ltc0 lra0
                   jump0 hand0 load0 trace0].
  cbn in Hvv. subst vvo.
  unfold playStateChanged. run_handler. destruct lo as [l0|].
  - destruct (PlayState.same (data p) l0) eqn:Es.
    + exists l0. split; [reflexivity|exact Es].
    + unfold applyPlayState. run_handler. exists (data p).
      split; [reflexivity|apply same_refl].
  - unfold applyPlayState. run_handler. exists (data p).
    split; [reflexivity|apply same_refl].
Qed.

Lemma backlog_unloaded (fuel : nat) (ps : list (Q * Payload)) :
  forall v, videoView v = None ->
  exists v1,
    run fuel (backlog ps) v = Some v1 /\
    trace v1 = trace v /\ videoView v1 = None /\
    abandonLoad v1 = abandonLoad v /\ waitingForSync v1 = waitingForSync v /\
    (forall d, ps <> [] ->
       exists l, latestPlayState v1 = Some l /\
                 PlayState.same (data (snd (last ps d))) l = true /\
                 latestActionSpec v1 = actionSpec (snd (last ps d))).
Proof.
  induction ps as [|[now p] ps IH]; intros v Hvv.
  - exists v. simpl. repeat split; try assumption. intros d H. contradiction.
  - destruct (playStateChanged_unloaded fuel now p v Hvv) as (l & Hp & Hs).
    simpl. unfold step. simpl handlerOf. rewrite Hp.
    destruct (IH (set_latestPlayState (Some l)
                    (set_latestActionSpec (actionSpec p) v)) Hvv)
      as (v1 & Hrun & Ht & Hv1 & Hab & Hw & Hlast).
    exists v1. split; [exact Hrun|]. repeat split; try assumption.
    intros d _. destruct ps as [|np ps'].
    + simpl in Hrun. injection Hrun as <-. exists l. repeat split. exact Hs.
    + apply Hlast. discriminate.
Qed.

(** X19: Play states that arrive while the video is still loading are stored
    without any effect; when the load completes (the view not waiting for
    sync), the adapter receives exactly the commands of the last one, with a
    playback boost of 0. *)
Theorem backlog_applies_last_state (fuel : nat) (ps : list (Q * Payload))
    (loadId : nat) (v : SyncedVideoView) (d : Q * Payload) :
  videoView v = None -> abandonLoad v = Some loadId -> ps <> [] ->
  exists v1 l,
    run fuel (backlog ps) v = Some v1 /\
    trace v1 = trace v /\
    latestPlayState v1 = Some l /\
    PlayStateEq.fields (data (snd (last ps d))) l /\
    forall (now : Q) (vv : Video2DView),
      waitingForSync v = false ->
      fuelFor (duration vv) (seekTarget now l) fuel ->
      exists v2,
        videoLoaded fuel now loadId vv v1 = Some (Normal tt, v2) /\
        adapterCommands (newEffects v1 v2) = commandsFor now 0 l.
Proof.
  intros Hvv Hab Hne.
  destruct (backlog_unloaded fuel ps v Hvv)
    as (v1 & Hrun & Ht & Hv1 & Hab1 & Hw1 & Hlast).
  destruct (Hlast d Hne) as (l & Hl & Hs & _).
  exists v1, l. split; [exact Hrun|]. split; [exact Ht|]. split; [exact Hl|].
  split; [apply same_fields; exact Hs|].
  intros now vv Hw Hf. rewrite Hab in Hab1. rewrite Hw in Hw1.
  destruct (adapterApply_total fuel now 0%Z l vv Hf) as (vv1 & Ha & _).
  destruct v1 as [viewId0 dom0 vvo lo spec0 wait0 step0 boost0 lsc0 ltc0 lra0
                    jump0 hand0 load0 trace0].
  cbn in Hv1, Hab1, Hw1, Hl. subst vvo load0 wait0 lo.
  unfold videoLoaded, catchLog. run_handler. rewrite Nat.eqb_refl.
  erewrite applyPlayState_applied; [|reflexivity|reflexivity|reflexivity|exact Ha].
  match goal with
  | |- context [reveal ?a ?b] =>
      destruct (reveal_cosmetic a b) as (c & v2 & Hr & b0 & tr & Hv2 & Hcos)
  end.
  rewrite Hr. subst v2.
  assert (Hcmd : forall tail,
            filter isAdapterCommand (applyEffects now 0 l ++ tail)
            = commandsFor now 0 l ++ filter isAdapterCommand tail).
  { intro tail. unfold applyEffects, commandsFor.
    destruct (PlayState.isPlaying l); reflexivity. }
  destruct c; eexists; (split; [reflexivity|]); unfold applied, newEffects;
    destruct (PlayState.isPlaying l) eqn:Hp; cbn;
    repeat rewrite <- app_assoc; rewrite skipn_app, skipn_all, Nat.sub_diag;
    cbn [skipn app]; unfold adapterCommands; rewrite Hcmd;
    fold (adapterCommands tr); rewrite (cosmetic_no_commands tr Hcos);
    apply app_nil_r.
Qed.

Lemma backlog_applies_last_state_witness :
  exists v1 v2,
    run 1 (backlog [(10, mkPayload (Sample.playingFrom 0) None);
                    (20, mkPayload (Sample.pausedAt 7) None)])
      (set_abandonLoad (Some 4%nat) (set_videoView None Sample.view)) = Some v1 /\
    adapterCommands (trace v1) = [] /\
    videoLoaded 1 30 4 (Sample.adapter 60 0) v1 = Some (Normal tt, v2) /\
    adapterCommands (newEffects v1 v2) = [AdapterPause (Some 7)].
Proof.
  destruct (backlog_applies_last_state 1
              [(10, mkPayload (Sample.playingFrom 0) None);
               (20, mkPayload (Sample.pausedAt 7) None)]
              4 (set_abandonLoad (Some 4%nat) (set_videoView None Sample.view))
              (0, mkPayload (Sample.pausedAt 0) None))
    as (v1 & l & Hrun & Ht & Hl & _ & Hload); try reflexivity; try discriminate.
  assert (Hrun' := Hrun). vm_compute in Hrun'. injection Hrun' as <-.
  cbn in Hl. injection Hl as <-.
  destruct (Hload 30 (Sample.adapter 60 0)) as (v2 & H2 & Hc); [reflexivity| |].
  - split; [discriminate|vm_compute; lia].
  - eexists _, v2. split; [exact Hrun|]. split; [reflexivity|].
    split; [exact H2|exact Hc].
Defined.

(** ** Scrubbing on the time bar *)

(** X20: A scrub pauses: [handleTimebar(proportion)] on a loaded video publishes
    (once) the state "paused at duration * proportion" with an action spec of
    type "timebar" at [(proportion, 0.5)].  When the stored state differs, it
    is replaced and the adapter is paused at that time; when it is the same
    already, nothing is applied, yet the state is published all the same. *)
Theorem scrub_pauses (fuel : nat) (now : Q) (proportion : Q)
    (v : SyncedVideoView) (vv : Video2DView) (d : Q) (latest : PlayState.t) :
  videoView v = Some vv -> duration vv = Some d ->
  waitingForSync v = false -> latestPlayState v = Some latest ->
  let state := PlayState.mk false None (d * proportion) in
  fuelFor (Some d) (d * proportion) fuel ->
  exists v',
    handleTimebar fuel now proportion v = Some (Normal tt, v') /\
    publishes (newEffects v v')
      = [Publish (mkPayload state
                    (Some (ActionSpec.mk (viewId v) "timebar" proportion 0.5)))] /\
    if PlayState.same state latest
    then adapterCommands (newEffects v v') = [] /\
         latestPlayState v' = Some latest /\ videoView v' = Some vv
    else adapterCommands (newEffects v v') = [AdapterPause (Some (d * proportion))] /\
         latestPlayState v' = Some state.
Proof.
  intros Hvv Hd Hw Hl state Hf.
  destruct (adapterApply_total fuel now (playbackBoost v) state vv)
    as (vv1 & Ha & _); [rewrite Hd; exact Hf|].
  assert (Happ := fun w H1 H2 H3 H4 =>
                    applyPlayState_applied fuel now w vv vv1 state H1 H2 H3 H4).
  destruct v as [viewId0 dom0 vvo lo spec0 wait0 step0 boost0 lsc0 ltc0 lra0
                   jump0 hand0 load0 trace0].
  cbn in Hvv, Hw, Hl, Ha. subst vvo lo wait0.
  unfold handleTimebar. run_handler. rewrite Hd. run_handler.
  unfold playStateChanged. run_handler. fold state.
  destruct (PlayState.same state latest) eqn:Es.
  - run_handler. eexists. split; [reflexivity|]. cbn.
    unfold newEffects, publishes. cbn.
    rewrite skipn_app, skipn_all, Nat.sub_diag. cbn. repeat split.
  - erewrite Happ; [|reflexivity|reflexivity|reflexivity|exact Ha].
    unfold reveal. run_handler.
    eexists. split; [reflexivity|]. cbn.
    unfold newEffects, publishes. cbn.
    repeat rewrite <- app_assoc. rewrite skipn_app, skipn_all, Nat.sub_diag. cbn.
    repeat split.
Qed.

Lemma scrub_pauses_witness :
  exists v',
    handleTimebar 1 0 0.25 (Sample.playingView 12 0 false) = Some (Normal tt, v') /\
    adapterCommands (newEffects (Sample.playingView 12 0 false) v')
      = [AdapterPause (Some (60 * 0.25))] /\
    latestPlayState v' = Some (PlayState.mk false None (60 * 0.25)).
Proof.
  destruct (scrub_pauses 1 0 0.25 (Sample.playingView 12 0 false)
              (Sample.playingAdapter 60 12) 60 (Sample.playingFrom 0))
    as (v' & Hh & _ & Hc); try reflexivity.
  - split; [discriminate|vm_compute; lia].
  - exists v'. split; [exact Hh|]. exact Hc.
Defined.

Lemma eqb_refl_Q (q : Q) : JS.eqb q q = true.
Proof. unfold JS.eqb. apply Qeq_bool_iff. reflexivity. Qed.

(** X21: A drag that stays on the same proportion is delivered once: after any
    [dragAtOffset(x)] on a bar of positive width, a second [dragAtOffset(x)]
    changes neither the bar nor the view. *)
Theorem repeated_drag_ignored (fuel : nat) (now now' : Q) (tb tb1 : TimeBarView)
    (offsetX : Q) (v v' : SyncedVideoView)
    (r : option (completion unit * SyncedVideoView)) :
  0 < barWidth tb ->
  dragAtOffset fuel now tb offsetX v = (tb1, r) ->
  dragAtOffset fuel now' tb1 offsetX v' = (tb1, Some (Normal tt, v')).
Proof.
  intros _ H. unfold dragAtOffset in H.
  destruct (JS.eqb_opt (lastDragProportion tb) (Some (timeProportion tb offsetX)))
    eqn:E.
  - injection H as <- _. unfold dragAtOffset. rewrite E. reflexivity.
  - injection H as <- _. unfold dragAtOffset, timeProportion. cbn.
    rewrite eqb_refl_Q. reflexivity.
Qed.

Lemma repeated_drag_ignored_witness :
  exists tb1 r,
    dragAtOffset 1 0 Sample.bar 160 (Sample.playingView 12 0 false) = (tb1, r) /\
    lastDragProportion tb1 = Some (timeProportion Sample.bar 160) /\
    dragAtOffset 1 100 tb1 160 Sample.view = (tb1, Some (Normal tt, Sample.view)).
Proof.
  destruct (dragAtOffset 1 0 Sample.bar 160 (Sample.playingView 12 0 false))
    as [tb1 r] eqn:E.
  exists tb1, r. split; [reflexivity|]. split.
  - unfold dragAtOffset in E. cbn in E. injection E as <- _. reflexivity.
  - apply (repeated_drag_ignored 1 0 100 Sample.bar tb1 160
             (Sample.playingView 12 0 false) Sample.view r);
      [reflexivity|exact E].
Defined.

(** * [throttle] *)

Section ThrottleFacts.

Variable A : Type.
Variable delay : Q.

Lemma last_app_nonempty (B : Type) (l1 l2 : list B) (d : B) :
  l2 <> [] -> last (l1 ++ l2) d = last l2 d.
Proof.
  intro Hne. induction l1 as [|x l1 IH]; [reflexivity|].
  simpl. rewrite IH. destruct (l1 ++ l2) eqn:E; [|reflexivity].
  apply app_eq_nil in E. destruct E as [_ E]. contradiction.
Qed.

Lemma throttle_step_spaced (ev : Throttle.Event A) (s : Throttle.t A) :
  Throttle.dueAfterDelay A delay s ->
  match ev, Throttle.timeoutForFinal A s with
  | Throttle.Fire _ now, Some (due, _) => due <= now
  | _, _ => True
  end ->
  let s1 := fst (Throttle.step A delay ev s) in
  let out := snd (Throttle.step A delay ev s) in
  Throttle.dueAfterDelay A delay s1 /\
  ((out = [] /\ Throttle.lastTime A s1 = Throttle.lastTime A s) \/
   (exists now arg, out = [(now, arg)] /\ Throttle.lastTime A s1 = now /\
                    Throttle.lastTime A s + delay <= now)).
Proof.
  intros Hinv Htimer. destruct s as [lt pend]. destruct ev as [now arg|now].
  - simpl. unfold Throttle.call. simpl.
    destruct (JS.ltb (delay - (now - lt)) 0) eqn:E; simpl.
    + split; [exact I|]. right. exists now, arg. repeat split.
      apply ltb_true in E. lra.
    + split; [unfold Throttle.dueAfterDelay; simpl; ring|].
      left. split; reflexivity.
  - simpl. unfold Throttle.fire. simpl. destruct pend as [[due arg]|]; simpl.
    + split; [exact I|]. right. exists now, arg. repeat split.
      unfold Throttle.dueAfterDelay in Hinv. simpl in Hinv, Htimer.
      rewrite <- Hinv. exact Htimer.
    + split; [exact I|]. left. split; reflexivity.
Qed.

(** X22: The throttle spaces the calls: when no timeout fires before it is due,
    every call of [fn] comes at least [delay] after the one before it (and
    after the initial [lastTime]). *)
Theorem throttle_spacing (evs : list (Throttle.Event A)) (s : Throttle.t A) :
  Throttle.dueAfterDelay A delay s ->
  Throttle.timersOnTime A delay evs s ->
  Throttle.spacedFrom A delay (Throttle.lastTime A s)
    (snd (Throttle.run A delay evs s)).
Proof.
  revert s. induction evs as [|ev evs IH]; intros s Hinv Htimers.
  - exact I.
  - simpl in Htimers. destruct Htimers as [Hnow Hrest].
    destruct (throttle_step_spaced ev s Hinv Hnow) as (Hinv1 & Hout).
    simpl. destruct (Throttle.step A delay ev s) as [s1 out1] eqn:Es.
    simpl in Hinv1, Hout, Hrest. specialize (IH s1 Hinv1 Hrest).
    destruct (Throttle.run A delay evs s1) as [s2 out2]. simpl in IH |- *.
    destruct Hout as [[-> Hl]|(now & arg & -> & Hl & Hgap)].
    + simpl. rewrite <- Hl. exact IH.
    + simpl. split; [exact Hgap|]. rewrite <- Hl. exact IH.
Qed.

Lemma throttle_fires_keep (fs : list (Throttle.Event A)) :
  forallb (Throttle.isFire A) fs = true ->
  forall (s : Throttle.t A) (arg : A) (out : list (Q * A)),
    (exists due, Throttle.timeoutForFinal A s = Some (due, arg)) \/
    (Throttle.timeoutForFinal A s = None /\
     exists t, last out (t, arg) = (t, arg) /\ out <> []) ->
    let s' := fst (Throttle.run A delay fs s) in
    let out' := out ++ snd (Throttle.run A delay fs s) in
    (exists due, Throttle.timeoutForFinal A s' = Some (due, arg)) \/
    (Throttle.timeoutForFinal A s' = None /\
     exists t, last out' (t, arg) = (t, arg) /\ out' <> []).
Proof.
  induction fs as [|ev fs IH]; intros Hall s arg out H.
  - simpl. rewrite app_nil_r. exact H.
  - simpl in Hall. apply andb_true_iff in Hall. destruct Hall as [Hev Hfs].
    destruct ev as [now a|now]; [discriminate Hev|].
    simpl. unfold Throttle.fire.
    destruct s as [lt pend]. simpl in H |- *.
    destruct H as [[due Hp]|[Hp (t & Hlast & Hne)]]; subst pend; simpl.
    + specialize (IH Hfs (Throttle.mk A now None) arg (out ++ [(now, arg)])).
      destruct (Throttle.run A delay fs (Throttle.mk A now None)) as [s2 out2].
      simpl in IH |- *.
      change (out ++ (now, arg) :: out2) with (out ++ [(now, arg)] ++ out2).
      rewrite app_assoc. apply IH.
      right. split; [reflexivity|]. exists now. split.
      * rewrite last_last. reflexivity.
      * intro E. apply app_eq_nil in E. destruct E as [_ E]. discriminate E.
    + specialize (IH Hfs (Throttle.mk A lt None) arg out).
      destruct (Throttle.run A delay fs (Throttle.mk A lt None)) as [s2 out2].
      simpl in IH |- *. apply IH.
      right. split; [reflexivity|]. exists t. split; assumption.
Qed.

(** X23: The throttle delivers the last value: after any history, a call with
    [arg] followed only by timeouts firing leaves [arg] either as the
    argument of the pending timeout or as the argument of the last call of
    [fn]; earlier pending values are dropped. *)
Theorem throttle_delivers_last (history fires : list (Throttle.Event A))
    (now : Q) (arg : A) (s : Throttle.t A) :
  forallb (Throttle.isFire A) fires = true ->
  let evs := history ++ Throttle.Call A now arg :: fires in
  let s' := fst (Throttle.run A delay evs s) in
  let out := snd (Throttle.run A delay evs s) in
  (exists due, Throttle.timeoutForFinal A s' = Some (due, arg)) \/
  (Throttle.timeoutForFinal A s' = None /\
   exists t, last out (t, arg) = (t, arg) /\ out <> []).
Proof.
  intros Hfires. revert s. induction history as [|ev history IH]; intro s.
  - simpl. unfold Throttle.call. simpl.
    destruct (JS.ltb (delay - (now - Throttle.lastTime A s)) 0); simpl.
    + assert (K := throttle_fires_keep fires Hfires
                     (Throttle.mk A now None) arg [(now, arg)]).
      destruct (Throttle.run A delay fires (Throttle.mk A now None)) as [s2 out2].
      simpl in K |- *. apply K. right. split; [reflexivity|].
      exists now. split; [reflexivity|discriminate].
    + assert (K := throttle_fires_keep fires Hfires
                     (Throttle.mk A (Throttle.lastTime A s)
                        (Some (now + (delay - (now - Throttle.lastTime A s)), arg)))
                     arg []).
      destruct (Throttle.run A delay fires _) as [s2 out2].
      simpl in K |- *. apply K. left. eexists. reflexivity.
  - simpl. destruct (Throttle.step A delay ev s) as [s1 out1].
    specialize (IH s1). simpl in IH.
    destruct (Throttle.run A delay (history ++ Throttle.Call A now arg :: fires) s1)
      as [s2 out2]. simpl in IH |- *.
    destruct IH as [IH|[Hp (t & Hlast & Hne)]]; [left; exact IH|].
    right. split; [exact Hp|]. exists t. split.
    + destruct out2 as [|x out2]; [contradiction|].
      rewrite last_app_nonempty; [exact Hlast|discriminate].
    + intro E. apply app_eq_nil in E. destruct E as [_ E]. contradiction.
Qed.

End ThrottleFacts.

Lemma throttle_spacing_witness :
  Throttle.spacedFrom Q 100 0
    (snd (Throttle.run Q 100
            [Throttle.Call Q 1000 (1 # 4); Throttle.Call Q 1050 (1 # 2);
             Throttle.Fire Q 1100] (Throttle.init Q))).
Proof.
  apply (throttle_spacing Q 100
           [Throttle.Call Q 1000 (1 # 4); Throttle.Call Q 1050 (1 # 2);
            Throttle.Fire Q 1100] (Throttle.init Q)).
  - exact I.
  - vm_compute. repeat split; discriminate.
Defined.

Lemma throttle_delivers_last_witness :
  let evs := [Throttle.Call Q 1000 (1 # 4); Throttle.Call Q 1040 (1 # 3)] ++
             Throttle.Call Q 1050 (1 # 2) :: [Throttle.Fire Q 1100] in
  (exists due, Throttle.timeoutForFinal Q
                 (fst (Throttle.run Q 100 evs (Throttle.init Q))) = Some (due, 1 # 2)) \/
  (Throttle.timeoutForFinal Q (fst (Throttle.run Q 100 evs (Throttle.init Q))) = None /\
   exists t, last (snd (Throttle.run Q 100 evs (Throttle.init Q))) (t, 1 # 2) = (t, 1 # 2) /\
             snd (Throttle.run Q 100 evs (Throttle.init Q)) <> []).
Proof.
  apply (throttle_delivers_last Q 100
           [Throttle.Call Q 1000 (1 # 4); Throttle.Call Q 1040 (1 # 3)]
           [Throttle.Fire Q 1100] 1050 (1 # 2) (Throttle.init Q)).
  reflexivity.
Defined.

(** * The asset manager *)

(** ** The import limits *)

Lemma addItems_invariant (sizes : list N) :
  forall (c c' : AssetManager.ImportChecker.t) (answers : list (N * bool)),
    AssetManager.ImportChecker.addItems sizes c = (answers, c') ->
    if AssetManager.ImportChecker.withinLimits c then
      (N.of_nat (List.length (AssetManager.ImportChecker.accepted answers))
       + AssetManager.ImportChecker.totalFiles c <= 10)%N /\
      (AssetManager.ImportChecker.sumSizes (AssetManager.ImportChecker.accepted answers)
       + AssetManager.ImportChecker.totalSize c <= 1048576 * 100)%N /\
      (AssetManager.ImportChecker.withinLimits c' = true ->
       AssetManager.ImportChecker.accepted answers = sizes /\
       AssetManager.ImportChecker.totalSize c' =
         (AssetManager.ImportChecker.totalSize c
          + AssetManager.ImportChecker.sumSizes sizes)%N)
    else AssetManager.ImportChecker.accepted answers = [] /\ c' = c.
Proof.
  induction sizes as [|size rest IH]; intros c c' answers H.
  - simpl in H. injection H as <- <-.
    destruct (AssetManager.ImportChecker.withinLimits c) eqn:Ew.
    + unfold AssetManager.ImportChecker.withinLimits,
        AssetManager.MAX_IMPORT_FILES, AssetManager.MAX_IMPORT_MB in Ew.
      apply andb_true_iff in Ew. destruct Ew as [Ef Es].
      apply N.leb_le in Ef. apply N.leb_le in Es.
      cbn [AssetManager.ImportChecker.accepted AssetManager.ImportChecker.sumSizes
           filter map List.length fold_right N.of_nat].
      repeat split; try lia.
    + split; reflexivity.
  - simpl in H. unfold AssetManager.ImportChecker.addItem in H.
    destruct (AssetManager.ImportChecker.withinLimits c) eqn:Ew; cbn [negb] in H; cbv iota in H.
    + set (c1 := AssetManager.ImportChecker.mk
                   (AssetManager.ImportChecker.totalFiles c + 1)
                   (AssetManager.ImportChecker.totalSize c + size)) in *.
      destruct (AssetManager.ImportChecker.addItems rest c1) as [answers1 c2] eqn:Er.
      injection H as <- <-. specialize (IH _ _ _ Er).
      assert (Ew' := Ew).
      unfold AssetManager.ImportChecker.withinLimits,
        AssetManager.MAX_IMPORT_FILES, AssetManager.MAX_IMPORT_MB in Ew'.
      apply andb_true_iff in Ew'. destruct Ew' as [Ef Es].
      apply N.leb_le in Ef. apply N.leb_le in Es.
      destruct (AssetManager.ImportChecker.withinLimits c1) eqn:Ew1.
      * destruct IH as (Hn & Hs & Hfin).
        unfold AssetManager.ImportChecker.accepted in *. cbn [filter snd map fst List.length].
        cbn [AssetManager.ImportChecker.sumSizes fold_right] in *.
        unfold AssetManager.ImportChecker.sumSizes in *.
        subst c1. cbn [AssetManager.ImportChecker.totalFiles
                       AssetManager.ImportChecker.totalSize] in *.
        repeat split; try lia.
        -- destruct (Hfin H) as [-> _]. reflexivity.
        -- destruct (Hfin H) as [Ha ->]. cbn [fold_right]. lia.
      * destruct IH as [Ha ->].
        unfold AssetManager.ImportChecker.accepted in *. cbn [filter snd].
        rewrite Ha. cbn [map List.length N.of_nat AssetManager.ImportChecker.sumSizes fold_right].
        split; [simpl; lia|]. split; [simpl; lia|].
        intro Hw. rewrite Hw in Ew1. discriminate Ew1.
    + destruct (AssetManager.ImportChecker.addItems rest c) as [answers1 c2] eqn:Er.
      injection H as <- <-. specialize (IH _ _ _ Er). rewrite Ew in IH.
      destruct IH as [Ha ->]. split; [|reflexivity].
      unfold AssetManager.ImportChecker.accepted in *. cbn [filter snd]. exact Ha.
Qed.

(** X24: However many files a drop offers to a fresh import checker, and whatever
    their sizes, the files [addItem] accepts are at most 10 and hold at most
    100 MB together.  When the checker is within its limits at the end,
    every file was accepted and [totalBytes] is the sum of their sizes;
    otherwise [limitReason] is not empty. *)
Theorem import_checker_limits (sizes : list N) :
  let answers := fst (AssetManager.ImportChecker.addItems sizes
                        AssetManager.ImportChecker.init) in
  let checker := snd (AssetManager.ImportChecker.addItems sizes
                        AssetManager.ImportChecker.init) in
  (List.length (AssetManager.ImportChecker.accepted answers) <= 10)%nat /\
  (AssetManager.ImportChecker.sumSizes (AssetManager.ImportChecker.accepted answers)
   <= 1048576 * 100)%N /\
  (AssetManager.ImportChecker.withinLimits checker = true ->
   AssetManager.ImportChecker.accepted answers = sizes /\
   AssetManager.ImportChecker.totalBytes checker =
     AssetManager.ImportChecker.sumSizes sizes) /\
  (AssetManager.ImportChecker.withinLimits checker = false ->
   AssetManager.ImportChecker.limitReason checker <> ""%string).
Proof.
  destruct (AssetManager.ImportChecker.addItems sizes AssetManager.ImportChecker.init)
    as [answers checker] eqn:E.
  cbn [fst snd]. assert (K := addItems_invariant sizes _ _ _ E).
  change (AssetManager.ImportChecker.withinLimits AssetManager.ImportChecker.init)
    with true in K. cbv iota in K.
  cbn [AssetManager.ImportChecker.init AssetManager.ImportChecker.totalFiles
       AssetManager.ImportChecker.totalSize] in K.
  destruct K as (Hn & Hs & Hfin). repeat split; try lia.
  - apply Hfin. assumption.
  - unfold AssetManager.ImportChecker.totalBytes. destruct (Hfin H) as [_ ->]. lia.
  - intro Hw. unfold AssetManager.ImportChecker.withinLimits in Hw.
    unfold AssetManager.ImportChecker.limitReason.
    destruct (AssetManager.MAX_IMPORT_FILES <? AssetManager.ImportChecker.totalFiles checker)%N
      eqn:Ef; [discriminate|].
    destruct (1048576 * AssetManager.MAX_IMPORT_MB
              <? AssetManager.ImportChecker.totalSize checker)%N
      eqn:Es; [discriminate|].
    apply N.ltb_ge in Ef. apply N.ltb_ge in Es.
    apply N.leb_le in Ef. apply N.leb_le in Es.
    rewrite Ef, Es in Hw. discriminate Hw.
Qed.

(** ** The choice of what to load *)

Lemma setEntry_key (key : string) (spec : AssetManager.FileSpec)
    (dict : list (string * AssetManager.FileSpec)) :
  In key (map fst (AssetManager.setEntry key spec dict)).
Proof.
  induction dict as [|[k s] rest IH]; simpl.
  - left. reflexivity.
  - destruct (String.eqb k key) eqn:E; simpl.
    + left. apply String.eqb_eq. exact E.
    + right. exact IH.
Qed.

Lemma setEntry_keeps (key key' : string) (spec : AssetManager.FileSpec)
    (dict : list (string * AssetManager.FileSpec)) :
  In key' (map fst dict) -> In key' (map fst (AssetManager.setEntry key spec dict)).
Proof.
  induction dict as [|[k s] rest IH]; simpl; [contradiction|].
  destruct (String.eqb k key); simpl; intros [E|Hin]; auto.
Qed.

Lemma fileDict_keys (fileSpecs : list AssetManager.FileSpec) :
  forall (dict : list (string * AssetManager.FileSpec)) (key : string),
    In key (map fst dict) \/ In key (map AssetManager.path fileSpecs) ->
    In key (map fst (fold_left
                       (fun dict spec => AssetManager.setEntry (AssetManager.path spec) spec dict)
                       fileSpecs dict)).
Proof.
  induction fileSpecs as [|spec rest IH]; intros dict key H; simpl.
  - destruct H as [H|[]]. exact H.
  - apply IH. simpl in H. destruct H as [H|[<-|H]].
    + left. apply setEntry_keeps. exact H.
    + left. apply setEntry_key.
    + right. exact H.
Qed.

Lemma filter_singleton_in (B : Type) (f : B -> bool) (l : list B) (x : B) :
  filter f l = [x] -> In x l /\ f x = true.
Proof.
  intro E. apply filter_In. rewrite E. left. reflexivity.
Qed.

(** X25: A descriptor that [deriveAssetDescriptor] gives is well formed: no
    error is shown with it; its load type is one of [.obj], [.gltf], [.glb]
    and [.mp4]; exactly one top-level file has that type, and it gives the
    display name; its path is a key of [fileDict] and is [objSource] for an
    [.obj] and [source] otherwise, and only an [.obj] has an [mtlSource]. *)
Theorem deriveAssetDescriptor_sound (fileSpecs : list AssetManager.FileSpec)
    (d : AssetManager.Descriptor) (errors : list string) :
  AssetManager.deriveAssetDescriptor fileSpecs = (Some d, errors) ->
  errors = [] /\
  In (AssetManager.loadType d) [".obj"; ".gltf"; ".glb"; ".mp4"]%string /\
  exists main,
    mainFileOf fileSpecs d main /\
    if String.eqb (AssetManager.loadType d) ".obj"
    then AssetManager.objSource (AssetManager.loadPaths d) = Some (AssetManager.path main) /\
         AssetManager.source (AssetManager.loadPaths d) = None
    else AssetManager.source (AssetManager.loadPaths d) = Some (AssetManager.path main) /\
         AssetManager.objSource (AssetManager.loadPaths d) = None /\
         AssetManager.mtlSource (AssetManager.loadPaths d) = None.
Proof.
  unfold AssetManager.deriveAssetDescriptor.
  set (topSpecs := filter (fun spec => Nat.eqb (AssetManager.depth spec) 1) fileSpecs).
  assert (Hkey : forall main ty,
             filter (fun spec => String.eqb (AssetManager.type spec) ty) topSpecs = [main] ->
             In (AssetManager.path main)
                (map fst (fold_left
                            (fun dict spec =>
                               AssetManager.setEntry (AssetManager.path spec) spec dict)
                            fileSpecs []))).
  { intros main ty E. apply fileDict_keys. right. apply in_map.
    apply filter_singleton_in in E. destruct E as [E _].
    unfold topSpecs in E. apply filter_In in E. exact (proj1 E). }
  destruct topSpecs as [|top tops] eqn:Etop; [discriminate|].
  rewrite <- Etop in *. clear Etop.
  unfold AssetManager.priorityTypes, AssetManager.priorityLoop, AssetManager.byType.
  intro H.
  destruct (filter (fun spec => String.eqb (AssetManager.type spec) ".obj") topSpecs)
    as [|obj [|? ?]] eqn:Eobj; try discriminate H.
  - destruct (filter (fun spec => String.eqb (AssetManager.type spec) ".gltf") topSpecs)
      as [|gltf [|? ?]] eqn:Egltf; try discriminate H.
    + destruct (filter (fun spec => String.eqb (AssetManager.type spec) ".glb") topSpecs)
        as [|glb [|? ?]] eqn:Eglb; try discriminate H.
      * cbn [String.eqb Ascii.eqb Bool.eqb] in H.
        assert (Hext : filter (fun spec => existsb (String.eqb (AssetManager.type spec))
                                             AssetManager.handledTypes) topSpecs
                       = filter (fun spec => String.eqb (AssetManager.type spec) ".mp4")
                                topSpecs).
        { apply filter_ext. intro a. unfold AssetManager.handledTypes. simpl.
          apply orb_false_r. }
        rewrite Hext in H.
        destruct (filter (fun spec => String.eqb (AssetManager.type spec) ".mp4") topSpecs)
          as [|mp4 [|? ?]] eqn:Emp4; try discriminate H.
        assert (Hty : String.eqb (AssetManager.type mp4) ".mp4" = true).
        { apply filter_singleton_in in Emp4. exact (proj2 Emp4). }
        rewrite Hty in H. apply String.eqb_eq in Hty.
        injection H as <- <-. cbn. rewrite Hty.
        split; [reflexivity|]. split; [tauto|].
        exists mp4. split; [|cbn; auto].
        split; [exact Emp4|]. split; [reflexivity|]. exact (Hkey _ _ Emp4).
      * cbn [String.eqb Ascii.eqb Bool.eqb] in H. injection H as <- <-. cbn.
        split; [reflexivity|]. split; [tauto|].
        exists glb. split; [|cbn; auto].
        split; [exact Eglb|]. split; [reflexivity|]. exact (Hkey _ _ Eglb).
    + cbn [String.eqb Ascii.eqb Bool.eqb] in H. injection H as <- <-. cbn.
      split; [reflexivity|]. split; [tauto|].
      exists gltf. split; [|cbn; auto].
      split; [exact Egltf|]. split; [reflexivity|]. exact (Hkey _ _ Egltf).
  - cbn [String.eqb Ascii.eqb Bool.eqb] in H.
    destruct (filter (fun spec => String.eqb (AssetManager.type spec) ".mtl") topSpecs)
      as [|mtl [|? ?]] eqn:Emtl; try discriminate H;
      injection H as <- <-; cbn;
      (split; [reflexivity|]); (split; [tauto|]);
      exists obj; (split; [|cbn; auto]);
      (split; [exact Eobj|]); (split; [reflexivity|]); exact (Hkey _ _ Eobj).
Qed.

Lemma deriveAssetDescriptor_sound_witness :
  AssetManager.deriveAssetDescriptor [SampleAssets.notes; SampleAssets.clip]
  = (Some SampleAssets.descriptor, []) /\
  exists main, mainFileOf [SampleAssets.notes; SampleAssets.clip]
                 SampleAssets.descriptor main.
Proof.
  split; [reflexivity|].
  destruct (deriveAssetDescriptor_sound [SampleAssets.notes; SampleAssets.clip]
              SampleAssets.descriptor [] eq_refl) as (_ & _ & main & Hmain & _).
  exists main. exact Hmain.
Defined.

(** ** Waiting for the files *)

Section FetchingFacts.

Variable headOk : nat -> string -> bool.

Lemma addKey_in (key url : string) (keys : list string) :
  In url (AssetManager.addKey key keys) <-> url = key \/ In url keys.
Proof.
  unfold AssetManager.addKey. destruct (existsb (String.eqb key) keys) eqn:E.
  - split; [auto|]. intros [->|H]; [|exact H].
    apply existsb_exists in E. destruct E as (k & Hk & Ek).
    apply String.eqb_eq in Ek. subst k. exact Hk.
  - rewrite in_app_iff. simpl. intuition.
Qed.

Lemma keysOf_from_in (urls : list string) :
  forall (keys : list string) (url : string),
    In url (fold_left (fun keys url => AssetManager.addKey url keys) urls keys)
    <-> In url keys \/ In url urls.
Proof.
  induction urls as [|u rest IH]; intros keys url; simpl.
  - tauto.
  - rewrite IH, addKey_in. intuition.
Qed.

Lemma keysOf_in (urls : list string) (url : string) :
  In url (AssetManager.keysOf urls) <-> In url urls.
Proof.
  unfold AssetManager.keysOf. rewrite keysOf_from_in. simpl. tauto.
Qed.

Lemma filter_nil_iff (B : Type) (f : B -> bool) (l : list B) :
  filter f l = [] <-> forall x, In x l -> f x = false.
Proof.
  induction l as [|a l IH]; simpl.
  - split; [intros _ x []|reflexivity].
  - destruct (f a) eqn:E.
    + split; [discriminate|]. intro H. rewrite (H a) in E; [discriminate E|auto].
    + rewrite IH. split.
      * intros H x [<-|Hx]; auto.
      * intros H x Hx. apply H. auto.
Qed.

Lemma runAssetCheck_ok_iff (retries : nat) :
  forall (round : nat) (waitingFor : list string),
    AssetManager.runAssetCheck headOk round retries waitingFor = true <->
    forall url, In url waitingFor ->
                exists r, (round <= r <= round + retries)%nat /\ headOk r url = true.
Proof.
  induction retries as [|retries IH]; intros round waitingFor; simpl.
  - destruct (filter (fun url => negb (headOk round url)) waitingFor) as [|u w'] eqn:E.
    + split; [|reflexivity]. intros _ url Hin. exists round. split; [lia|].
      apply (proj1 (filter_nil_iff _ _ _) E) in Hin.
      apply negb_false_iff in Hin. exact Hin.
    + split; [discriminate|]. intro H.
      assert (Hu : In u (filter (fun url => negb (headOk round url)) waitingFor))
        by (rewrite E; left; reflexivity).
      apply filter_In in Hu. destruct Hu as [Hin Hno].
      destruct (H u Hin) as (r & Hr & Hok).
      assert (r = round) by lia. subst r. rewrite Hok in Hno. discriminate Hno.
  - destruct (filter (fun url => negb (headOk round url)) waitingFor) as [|u w'] eqn:E.
    + split; [|reflexivity]. intros _ url Hin. exists round. split; [lia|].
      apply (proj1 (filter_nil_iff _ _ _) E) in Hin.
      apply negb_false_iff in Hin. exact Hin.
    + rewrite IH. rewrite <- E. split.
      * intros H url Hin. destruct (headOk round url) eqn:Eok.
        -- exists round. split; [lia|exact Eok].
        -- destruct (H url) as (r & Hr & Hok).
           { apply filter_In. split; [exact Hin|]. rewrite Eok. reflexivity. }
           exists r. split; [lia|exact Hok].
      * intros H url Hin. apply filter_In in Hin. destruct Hin as [Hin Hno].
        apply negb_true_iff in Hno.
        destruct (H url Hin) as (r & Hr & Hok).
        assert (r <> round) by (intros ->; rewrite Hok in Hno; discriminate Hno).
        exists r. split; [lia|exact Hok].
Qed.

(** Whether [url] is answered by one of the checks [0 .. maxRetries]. *)
Lemma answered_dec (maxRetries : nat) (url : string) :
  {exists r, (r <= maxRetries)%nat /\ headOk r url = true} +
  {forall r, (r <= maxRetries)%nat -> headOk r url = false}.
Proof.
  induction maxRetries as [|n IH].
  - destruct (headOk 0 url) eqn:E.
    + left. exists 0%nat. split; [lia|exact E].
    + right. intros r Hr. assert (r = 0%nat) by lia. subst r. exact E.
  - destruct IH as [IH|IH].
    + left. destruct IH as (r & Hr & Hok). exists r. split; [lia|exact Hok].
    + destruct (headOk (S n) url) eqn:E.
      * left. exists (S n). split; [lia|exact E].
      * right. intros r Hr. destruct (Nat.eq_dec r (S n)) as [->|Hne]; [exact E|].
        apply IH. lia.
Qed.

Lemma unanswered_url (maxRetries : nat) (urls : list string) :
  ~ (forall url, In url urls ->
                 exists r, (r <= maxRetries)%nat /\ headOk r url = true) ->
  exists url, In url urls /\
              forall r, (r <= maxRetries)%nat -> headOk r url = false.
Proof.
  induction urls as [|u rest IH]; intro H.
  - exfalso. apply H. intros url [].
  - destruct (answered_dec maxRetries u) as [Hu|Hu].
    + destruct IH as (url & Hin & Hno).
      * intro Hall. apply H. intros url [<-|Hin]; [exact Hu|apply Hall; exact Hin].
      * exists url. split; [right; exact Hin|exact Hno].
    + exists u. split; [left; reflexivity|exact Hu].
Qed.

(** X26: [ensureBlobsAvailable] resolves to ["ok"] exactly when every URL is
    answered by one of the checks [0 .. maxRetries]: it makes at most
    [maxRetries + 1] checks, and a URL that was answered once counts as
    available from then on. *)
Theorem ensureBlobsAvailable_ok_iff (blobURLs : list string) (maxRetries : nat) :
  AssetManager.ensureBlobsAvailable headOk blobURLs maxRetries = true <->
  forall url, In url blobURLs ->
              exists r, (r <= maxRetries)%nat /\ headOk r url = true.
Proof.
  unfold AssetManager.ensureBlobsAvailable. rewrite runAssetCheck_ok_iff.
  split; intros H url Hin.
  - destruct (H url) as (r & Hr & Hok); [apply keysOf_in; exact Hin|].
    exists r. split; [lia|exact Hok].
  - apply (proj1 (keysOf_in _ _)) in Hin. destruct (H url Hin) as (r & Hr & Hok).
    exists r. split; [lia|exact Hok].
Qed.

Lemma markKnown_result (urls : list string) :
  forall (known : string -> option AssetManager.Known) (key : string),
    fold_left (fun known url => fun key =>
                 if String.eqb key url then Some AssetManager.IsKnown else known key)
              urls known key
    = if existsb (String.eqb key) urls then Some AssetManager.IsKnown else known key.
Proof.
  induction urls as [|u rest IH]; intros known key; simpl; [reflexivity|].
  rewrite IH. destruct (String.eqb key u); simpl; [|reflexivity].
  destruct (existsb (String.eqb key) rest); reflexivity.
Qed.

Lemma existsb_keysOf (urls : list string) (key : string) :
  existsb (String.eqb key) (AssetManager.keysOf urls) = existsb (String.eqb key) urls.
Proof.
  apply eq_true_iff_eq. rewrite !existsb_exists.
  split; intros (u & Hin & E); exists u; (split; [|exact E]); apply keysOf_in; exact Hin.
Qed.

(** X27: [ensureAssetsAvailable] either resolves to ["ok"], every blob URL of the
    descriptor having been answered by one of 61 checks, and then marks
    exactly these URLs as known; or some blob URL was answered by none of the
    61 checks, and it throws and leaves [knownAssetURLs] as it was. *)
Theorem ensureAssetsAvailable_outcome (d : AssetManager.Descriptor)
    (known : string -> option AssetManager.Known) :
  let urls := map (fun entry => AssetManager.blobURL (snd entry))
                  (AssetManager.fileDict d) in
  let result := fst (AssetManager.ensureAssetsAvailable headOk d known) in
  let known' := snd (AssetManager.ensureAssetsAvailable headOk d known) in
  (result = Normal "ok"%string /\
   (forall url, In url urls -> exists r, (r <= 60)%nat /\ headOk r url = true) /\
   (forall key, known' key = if existsb (String.eqb key) urls
                             then Some AssetManager.IsKnown else known key))
  \/
  (result = Throw "failed to find assets"%string /\
   (exists url, In url urls /\ forall r, (r <= 60)%nat -> headOk r url = false) /\
   known' = known).
Proof.
  cbv zeta. unfold AssetManager.ensureAssetsAvailable.
  set (urls := map (fun entry => AssetManager.blobURL (snd entry))
                   (AssetManager.fileDict d)).
  destruct (AssetManager.ensureBlobsAvailable headOk (AssetManager.keysOf urls) 60) eqn:E;
    cbn [fst snd].
  - left. split; [reflexivity|]. split.
    + unfold AssetManager.ensureBlobsAvailable in E.
      rewrite runAssetCheck_ok_iff in E. intros url Hin.
      destruct (E url) as (r & Hr & Hok).
      { apply keysOf_in, keysOf_in. exact Hin. }
      exists r. split; [lia|exact Hok].
    + intro key. rewrite markKnown_result. rewrite existsb_keysOf. reflexivity.
  - right. split; [reflexivity|]. split; [|reflexivity].
    apply unanswered_url. intro Hall.
    assert (K : AssetManager.ensureBlobsAvailable headOk (AssetManager.keysOf urls) 60 = true).
    { unfold AssetManager.ensureBlobsAvailable. apply runAssetCheck_ok_iff.
      intros url Hin. apply (proj1 (keysOf_in _ _)) in Hin.
      apply (proj1 (keysOf_in _ _)) in Hin.
      destruct (Hall url Hin) as (r & Hr & Hok). exists r. split; [lia|exact Hok]. }
    rewrite K in E. discriminate E.
Qed.

End FetchingFacts.

(** ** [fetchSharedBlob] *)

Section FetchSharedBlobFacts.

Variable fetched : nat -> option (list Z).

Lemma getBlob_first_success (optionalType : option string) (arrayBuffer : list Z)
    (wait : nat) :
  forall (attempt retries : nat),
    (wait <= retries)%nat ->
    fetched (attempt + wait) = Some arrayBuffer ->
    (forall j, (attempt <= j < attempt + wait)%nat -> fetched j = None) ->
    AssetManager.getBlob fetched optionalType attempt retries
    = (AssetManager.Resolved
         (AssetManager.mkBlob arrayBuffer
            match optionalType with Some ty => ty | None => ""%string end),
       S (attempt + wait)).
Proof.
  induction wait as [|wait IH]; intros attempt retries Hle Hok Hfail.
  - rewrite Nat.add_0_r in *. destruct retries; simpl; rewrite Hok; reflexivity.
  - destruct retries as [|retries]; [lia|]. simpl.
    rewrite (Hfail attempt) by lia.
    rewrite (IH (S attempt) retries); try lia.
    + f_equal. lia.
    + replace (S attempt + wait)%nat with (attempt + S wait)%nat by lia. exact Hok.
    + intros j Hj. apply Hfail. lia.
Qed.

Lemma getBlob_gives_up (optionalType : option string) (retries : nat) :
  forall (attempt : nat),
    (forall j, (attempt <= j <= attempt + retries)%nat -> fetched j = None) ->
    AssetManager.getBlob fetched optionalType attempt retries
    = (AssetManager.NeverResolved, S (attempt + retries)).
Proof.
  induction retries as [|retries IH]; intros attempt Hfail; simpl.
  - rewrite (Hfail attempt) by lia. rewrite Nat.add_0_r. reflexivity.
  - rewrite (Hfail attempt) by lia. rewrite IH.
    + f_equal. lia.
    + intros j Hj. apply Hfail. lia.
Qed.

(** X28: [fetchSharedBlob] resolves with the first request that succeeds, when
    that is one of the first 61: the blob holds the bytes of that response,
    with the type asked for, and no further request is made. *)
Theorem fetchSharedBlob_first_success (optionalType : option string)
    (arrayBuffer : list Z) (k : nat) :
  (k <= 60)%nat ->
  fetched k = Some arrayBuffer ->
  (forall j, (j < k)%nat -> fetched j = None) ->
  AssetManager.fetchSharedBlob fetched optionalType
  = (AssetManager.Resolved
       (AssetManager.mkBlob arrayBuffer
          match optionalType with Some ty => ty | None => ""%string end),
     S k).
Proof.
  intros Hk Hok Hfail. unfold AssetManager.fetchSharedBlob.
  apply (getBlob_first_success optionalType arrayBuffer k 0 60 Hk Hok).
  intros j Hj. apply Hfail. lia.
Qed.

(** X29: [fetchSharedBlob] gives up after 61 failed requests: its promise is
    never resolved (nor rejected), so whoever awaits it waits for ever. *)
Theorem fetchSharedBlob_gives_up (optionalType : option string) :
  (forall j, (j <= 60)%nat -> fetched j = None) ->
  AssetManager.fetchSharedBlob fetched optionalType
  = (AssetManager.NeverResolved, 61%nat).
Proof.
  intro Hfail. unfold AssetManager.fetchSharedBlob.
  apply (getBlob_gives_up optionalType 60 0). intros j Hj. apply Hfail. lia.
Qed.

End FetchSharedBlobFacts.

Lemma fetchSharedBlob_first_success_witness :
  AssetManager.fetchSharedBlob SampleAssets.fetched (Some "video/mp4"%string)
  = (AssetManager.Resolved (AssetManager.mkBlob [0%Z; 1%Z; 2%Z] "video/mp4"), 3%nat).
Proof.
  apply (fetchSharedBlob_first_success SampleAssets.fetched (Some "video/mp4"%string)
           [0%Z; 1%Z; 2%Z] 2).
  - lia.
  - reflexivity.
  - intros j Hj. destruct j as [|[|j]]; [reflexivity|reflexivity|lia].
Defined.

Lemma fetchSharedBlob_gives_up_witness :
  AssetManager.fetchSharedBlob (fun _ => None) None
  = (AssetManager.NeverResolved, 61%nat).
Proof.
  apply (fetchSharedBlob_gives_up (fun _ => None) None).
  intros j Hj. reflexivity.
Defined.

(** * The model and its views *)

Lemma fields_sym (a b : PlayState.t) :
  PlayStateEq.fields a b -> PlayStateEq.fields b a.
Proof.
  unfold PlayStateEq.fields, PlayStateEq.opt. intros (Hp & Ho & Ht).
  repeat split.
  - symmetry. exact Hp.
  - destruct (PlayState.startOffset a), (PlayState.startOffset b);
      try exact Ho; try contradiction. symmetry. exact Ho.
  - symmetry. exact Ht.
Qed.

(** X30: A local action reaches every view through the model: when a click or a
    scrub of view [a] has published a payload, the model has taken it with
    [setPlayState], and view [b] has handled the ['playStateChanged'] the
    model sends out, both views store a play state with the fields of the
    model's, and the model has sent the payload on as it got it. *)
Theorem views_agree_after_action (fuel : nat) (nowA nowB : Q)
    (a a' b b' : SyncedVideoView) (cA cB : completion unit) (p : Payload)
    (m : Model.t) :
  In (Publish p) (newEffects a a') ->
  (exists evt, handleUserClick fuel nowA evt a = Some (cA, a')) \/
  (exists proportion, handleTimebar fuel nowA proportion a = Some (cA, a')) ->
  playStateChanged fuel nowB p b = Some (cB, b') ->
  snd (Model.setPlayState m p) = [Model.playStateChanged p] /\
  exists la lb,
    latestPlayState a' = Some la /\ latestPlayState b' = Some lb /\
    PlayStateEq.fields la (Model.playState (fst (Model.setPlayState m p))) /\
    PlayStateEq.fields lb (Model.playState (fst (Model.setPlayState m p))).
Proof.
  intros Hin Hact Hb. split; [reflexivity|].
  assert (Ha : exists l, latestPlayState a' = Some l /\ PlayState.same (data p) l = true).
  { destruct Hact as [[evt H]|[proportion H]].
    - exact (handleUserClick_stores_published fuel nowA evt a a' cA p H Hin).
    - exact (handleTimebar_stores_published fuel nowA proportion a a' cA p H Hin). }
  destruct Ha as (la & Hla & Hsa).
  destruct (playStateChanged_stores fuel nowB p b b' cB Hb) as (lb & Hlb & Hsb).
  exists la, lb. split; [exact Hla|]. split; [exact Hlb|].
  apply same_fields in Hsa. apply same_fields in Hsb.
  split; apply fields_sym.
  - destruct Hsa as (H1 & H2 & H3). repeat split; assumption.
  - destruct Hsb as (H1 & H2 & H3). repeat split; assumption.
Qed.

(** The click of [click_starts_playback_witness], seen by a second view
    that is paused at the same place. *)
Lemma views_agree_after_action_witness :
  exists a' b' la lb,
    handleUserClick 1 20000 Sample2.click (Sample2.pausedView 5)
      = Some (Normal tt, a') /\
    In (Publish Sample3.clickPayload) (newEffects (Sample2.pausedView 5) a') /\
    playStateChanged 1 20050 Sample3.clickPayload Sample3.otherView
      = Some (Normal tt, b') /\
    latestPlayState a' = Some la /\ latestPlayState b' = Some lb /\
    PlayStateEq.fields la
      (Model.playState (fst (Model.setPlayState Sample.model Sample3.clickPayload))) /\
    PlayStateEq.fields lb
      (Model.playState (fst (Model.setPlayState Sample.model Sample3.clickPayload))).
Proof.
  destruct (handleUserClick 1 20000 Sample2.click (Sample2.pausedView 5))
    as [[c a']|] eqn:E; [|vm_compute in E; discriminate E].
  assert (E2 := E). vm_compute in E2. injection E2 as <- <-.
  destruct (playStateChanged 1 20050 Sample3.clickPayload Sample3.otherView)
    as [[cB b']|] eqn:Eb; [|vm_compute in Eb; discriminate Eb].
  assert (Eb2 := Eb). vm_compute in Eb2. injection Eb2 as <- <-.
  match type of E with
  | _ = Some (_, ?w) =>
      assert (Hin : In (Publish Sample3.clickPayload)
                       (newEffects (Sample2.pausedView 5) w))
        by (vm_compute; right; right; right; left; reflexivity)
  end.
  destruct (views_agree_after_action 1 20000 20050 (Sample2.pausedView 5) _
              Sample3.otherView _ (Normal tt) (Normal tt) Sample3.clickPayload
              Sample.model Hin (or_introl (ex_intro _ Sample2.click E)) Eb)
    as (_ & la & lb & Hla & Hlb & Hfa & Hfb).
  eexists _, _, la, lb.
  split; [reflexivity|]. split; [exact Hin|]. split; [reflexivity|].
  split; [exact Hla|]. split; [exact Hlb|]. split; [exact Hfa|exact Hfb].
Defined.
